(** * Knuth-Morris-Pratt and Z-algorithm string matching

    A shallow embedding of [computeLPS], [KMPSearch] (knuth_morris_pratt.cc)
    and [computeZArray], [zAlgorithmSearch] (the Z-algorithm source file),
    with the proofs of their functional correctness, memory safety and
    termination.

    Conventions of the embedding.
    - A [std::string] is a [list ascii]; a [vector<int>] is a [list Z].
    - A C++ [int] has 32 bits and is a [Z] between [-2^31] and [2^31 - 1].
      The four functions store the lengths of their inputs in [int]
      variables: [int_of_size] is that conversion of a [size_t], which
      keeps the value modulo [2^32].  The lengths so converted are the
      only loop bounds and array sizes of the source, and the loop
      invariants below keep every index variable between [-1] and them
      and every array entry between [0] and them; so the additions and
      subtractions of the source never leave the range of [int], and are
      those of [Z].
    - [vector<int> v(n)] with a negative [int n] asks for more than
      [max_size()] elements and throws [std::length_error]: the call
      then ends in [LengthError].  No function of the source catches it.
    - [operator[]] is a checked access: it yields [OutOfBounds] as soon as
      the index is negative or at least the length.
    - A loop is run by the combinator [while], which counts the iterations
      it may still perform and yields [OutOfFuel] when the count is used
      up.  Each function takes that count as its first argument and hands
      it to every loop it runs. *)

From Stdlib Require Import ZArith Lia Ascii String DecimalString List.
From stdpp Require Import base tactics decidable option list.

Local Open Scope Z_scope.

(** ** Outcomes, checked accesses and loops *)

Inductive outcome (A : Type) : Type :=
| Done (a : A)
| OutOfBounds
| OutOfFuel
| LengthError.

Arguments Done {A} a.
Arguments OutOfBounds {A}.
Arguments OutOfFuel {A}.
Arguments LengthError {A}.

Definition bind {A B : Type} (c : outcome A) (k : A -> outcome B) : outcome B :=
  match c with
  | Done a => k a
  | OutOfBounds => OutOfBounds
  | OutOfFuel => OutOfFuel
  | LengthError => LengthError
  end.

Notation "'do' x <- c ; k" := (bind c (fun x => k))
  (at level 20, x pattern, c at level 100, k at level 200, only parsing).

(** [len v] is [v.length()] / [v.size()], a [size_t]: the number of
    elements of [v]. *)
Definition len {A : Type} (v : list A) : Z := Z.of_nat (length v).

(** [int n = v.length()]: the conversion of a [size_t] to the 32-bit
    [int], the number between [-2^31] and [2^31 - 1] that is equal to it
    modulo [2^32]. *)
Definition int_of_size (n : Z) : Z := (n + 2 ^ 31) mod 2 ^ 32 - 2 ^ 31.

(** Indexing as a partial function: [ix v i] is [None] exactly when [i]
    is not an index of [v]. *)
Definition ix {A : Type} (v : list A) (i : Z) : option A :=
  if 0 <=? i then v !! Z.to_nat i else None.

(** [v[i]] as an rvalue. *)
Definition rd {A : Type} (v : list A) (i : Z) : outcome A :=
  match ix v i with
  | Some x => Done x
  | None => OutOfBounds
  end.

(** [v[i] = x]. *)
Definition wr {A : Type} (v : list A) (i : Z) (x : A) : outcome (list A) :=
  if (0 <=? i) && (i <? len v)
  then Done (<[Z.to_nat i := x]> v)
  else OutOfBounds.

(** [n] zeros. *)
Definition zeros (n : Z) : list Z := replicate (Z.to_nat n) 0.

(** [vector<int> v(n, 0)] and [vector<int> v(n)] for an [int n]: [n] is
    converted to [size_t], so that a negative [n] is a size of at least
    [2^64 - 2^31], above [max_size()], and the constructor throws. *)
Definition new_vector (n : Z) : outcome (list Z) :=
  if n <? 0 then LengthError else Done (zeros n).

(** [a == b] on [char]. *)
Definition ceq (a b : ascii) : bool := Ascii.eqb a b.

(** [while (cond) body], performing at most [fuel] iterations. *)
Fixpoint while {S : Type} (fuel : nat) (cond : S -> outcome bool)
    (body : S -> outcome S) (s : S) : outcome S :=
  do b <- cond s;
  if b then
    match fuel with
    | O => OutOfFuel
    | Datatypes.S fuel' => do s' <- body s; while fuel' cond body s'
    end
  else Done s.

(** ** knuth_morris_pratt.cc *)

(** The local variables of [computeLPS] that change in its loop. *)
Record lps_state : Type := LpsState {
  lps_i : Z;
  lps_j : Z;
  lps_arr : list Z
}.

Definition computeLPS_cond (m : Z) (s : lps_state) : outcome bool :=
  Done (lps_i s <? m).

Definition computeLPS_body (pattern : list ascii) (s : lps_state) : outcome lps_state :=
  let '(LpsState i j lps) := s in
  do pi <- rd pattern i;
  do pj <- rd pattern j;
  if ceq pi pj then
    let j := j + 1 in
    do lps <- wr lps i j;
    let i := i + 1 in
    Done (LpsState i j lps)
  else
    if negb (j =? 0) then
      do j <- rd lps (j - 1);
      Done (LpsState i j lps)
    else
      do lps <- wr lps i 0;
      let i := i + 1 in
      Done (LpsState i j lps).

Definition computeLPS (fuel : nat) (pattern : list ascii) : outcome (list Z) :=
  let m := int_of_size (len pattern) in
  do lps <- new_vector m;
  let i := 1 in
  let j := 0 in
  do s <- while fuel (computeLPS_cond m) (computeLPS_body pattern) (LpsState i j lps);
  Done (lps_arr s).

(** The local variables of [KMPSearch] that change in its loop. *)
Record kmp_state : Type := KmpState {
  kmp_i : Z;
  kmp_j : Z;
  kmp_arr : list Z
}.

Definition KMPSearch_cond (n : Z) (s : kmp_state) : outcome bool :=
  Done (kmp_i s <? n).

Definition KMPSearch_body (text pattern : list ascii) (n m : Z)
    (lps_pattern : list Z) (s : kmp_state) : outcome kmp_state :=
  let '(KmpState i j lps) := s in
  (* if (pattern[j] == text[i]) { j++; lps[i] = j; i++; } *)
  do pj <- rd pattern j;
  do ti <- rd text i;
  do s1 <- (if ceq pj ti then
              let j := j + 1 in
              do lps <- wr lps i j;
              let i := i + 1 in
              Done (KmpState i j lps)
            else Done (KmpState i j lps));
  let '(KmpState i j lps) := s1 in
  if j =? m then
    do j <- rd lps_pattern (j - 1);
    Done (KmpState i j lps)
  else
    (* i < n && pattern[j] != text[i], evaluated left to right *)
    do c <- (if i <? n then
               do pj <- rd pattern j;
               do ti <- rd text i;
               Done (negb (ceq pj ti))
             else Done false);
    if c then
      if negb (j =? 0) then
        do j <- rd lps_pattern (j - 1);
        Done (KmpState i j lps)
      else
        do lps <- wr lps i 0;
        let i := i + 1 in
        Done (KmpState i j lps)
    else Done (KmpState i j lps).

Definition KMPSearch (fuel : nat) (text pattern : list ascii) : outcome (list Z) :=
  let n := int_of_size (len text) in
  let m := int_of_size (len pattern) in
  if m =? 0 then Done []
  else
    do lps_pattern <- computeLPS fuel pattern;
    do lps <- new_vector n;
    let i := 0 in
    let j := 0 in
    do s <- while fuel (KMPSearch_cond n)
              (KMPSearch_body text pattern n m lps_pattern) (KmpState i j lps);
    Done (kmp_arr s).

(** ** The Z-algorithm source file *)

(** The window [L], [R] and the array [Z]: what the loops of
    [computeZArray] and [zAlgorithmSearch] change besides [i]. *)
Record z_state : Type := ZState {
  z_i : Z;
  z_L : Z;
  z_R : Z;
  z_arr : list Z
}.

(** [while (R < n && s[R - L] == s[R]) R++;] with [L] fixed: the state
    of this loop is [R] alone. *)
Definition extend_cond (s : list ascii) (n L : Z) (R : Z) : outcome bool :=
  if R <? n then
    do a <- rd s (R - L);
    do b <- rd s R;
    Done (ceq a b)
  else Done false.

Definition extend_body (R : Z) : outcome Z := Done (R + 1).

Definition computeZArray_cond (n : Z) (s : z_state) : outcome bool :=
  Done (z_i s <? n).

Definition computeZArray_body (fuel : nat) (s : list ascii) (n : Z)
    (st : z_state) : outcome z_state :=
  let '(ZState i L R Z) := st in
  do st' <-
    (if i >? R then
       let L := i in
       let R := i in
       do R <- while fuel (extend_cond s n L) extend_body R;
       do Z <- wr Z i (R - L);
       let R := R - 1 in
       Done (ZState i L R Z)
     else
       let k := i - L in
       do zk <- rd Z k;
       if zk <? R - i + 1 then
         do Z <- wr Z i zk;
         Done (ZState i L R Z)
       else
         let L := i in
         do R <- while fuel (extend_cond s n L) extend_body R;
         do Z <- wr Z i (R - L);
         let R := R - 1 in
         Done (ZState i L R Z));
  (* ++i *)
  let '(ZState i L R Z) := st' in
  Done (ZState (i + 1) L R Z).

Definition computeZArray (fuel : nat) (s : list ascii) : outcome (list Z) :=
  let n := int_of_size (len s) in
  if n =? 0 then Done []
  else
    do Z <- new_vector n;
    let L := 0 in
    let R := 0 in
    do Z <- wr Z 0 n;
    do st <- while fuel (computeZArray_cond n) (computeZArray_body fuel s n)
               (ZState 1 L R Z);
    Done (z_arr st).

(** [while (R < m && (R - L) < n && text[R] == pattern[R - L]) R++;] *)
Definition search_extend_cond (text pattern : list ascii) (m n L : Z) (R : Z)
    : outcome bool :=
  if R <? m then
    if R - L <? n then
      do a <- rd text R;
      do b <- rd pattern (R - L);
      Done (ceq a b)
    else Done false
  else Done false.

Definition zAlgorithmSearch_cond (m : Z) (s : z_state) : outcome bool :=
  Done (z_i s <? m).

Definition zAlgorithmSearch_body (fuel : nat) (text pattern : list ascii)
    (m n : Z) (Z_pattern : list Z) (st : z_state) : outcome z_state :=
  let '(ZState i L R Z) := st in
  do Z <- wr Z i 0;
  do st' <-
    (if i >? R then
       let L := i in
       let R := i in
       do R <- while fuel (search_extend_cond text pattern m n L) extend_body R;
       do Z <- wr Z i (R - L);
       let R := R - 1 in
       Done (ZState i L R Z)
     else
       let k := i - L in
       do zk <- rd Z_pattern k;
       if zk <? R - i + 1 then
         do Z <- wr Z i zk;
         Done (ZState i L R Z)
       else
         let L := i in
         do R <- while fuel (search_extend_cond text pattern m n L) extend_body R;
         do Z <- wr Z i (R - L);
         let R := R - 1 in
         Done (ZState i L R Z));
  let '(ZState i L R Z) := st' in
  Done (ZState (i + 1) L R Z).

Definition zAlgorithmSearch (fuel : nat) (text pattern : list ascii)
    : outcome (list Z) :=
  let n := int_of_size (len pattern) in
  let m := int_of_size (len text) in
  do Z <- new_vector m;
  if n =? 0 then Done Z
  else
    do Z_pattern <- computeZArray fuel pattern;
    let L := 0 in
    let R := -1 in
    do st <- while fuel (zAlgorithmSearch_cond m)
               (zAlgorithmSearch_body fuel text pattern m n Z_pattern)
               (ZState 0 L R Z);
    Done (z_arr st).

(** String literals as symbol sequences. *)
Definition str (s : string) : list ascii := list_ascii_of_string s.

(** ** The callers: test functions, samples and [main]

    A caller is run on the text written to [cout] so far.  It ends with a
    value and the text written, or in a failed [assert] (which aborts the
    program), or in a call of one of the four functions that did not
    return (no caller catches an exception). *)

Inductive ended (A : Type) : Type :=
| Ok (a : A) (out : string)
| AssertionFailed
| CallFailed.

Arguments Ok {A} a out.
Arguments AssertionFailed {A}.
Arguments CallFailed {A}.

Definition io (A : Type) : Type := string -> ended A.

Definition io_ret {A : Type} (a : A) : io A := fun out => Ok a out.

Definition io_bind {A B : Type} (c : io A) (k : A -> io B) : io B :=
  fun out =>
    match c out with
    | Ok a out' => k a out'
    | AssertionFailed => AssertionFailed
    | CallFailed => CallFailed
    end.

Notation "'exec' x <- c ; k" := (io_bind c (fun x => k))
  (at level 20, x pattern, c at level 100, k at level 200, only parsing).

(** [cout << "..."] *)
Definition cout_str (s : string) : io unit :=
  fun out => Ok tt (String.append out s).

(** [cout << s] for a [std::string] variable. *)
Definition cout_text (s : list ascii) : io unit :=
  cout_str (string_of_list_ascii s).

(** [cout << val] for an [int]: its decimal digits. *)
Definition cout_int (val : Z) : io unit :=
  cout_str (NilZero.string_of_int (Z.to_int val)).

(** [cout << endl] *)
Definition endl : io unit := cout_str (String "010"%char EmptyString).

(** [for (int val : v) { cout << val << " "; }] *)
Fixpoint cout_each (v : list Z) : io unit :=
  match v with
  | [] => io_ret tt
  | val :: v' =>
      exec _ <- cout_int val;
      exec _ <- cout_str " ";
      cout_each v'
  end.

(** A call of one of the four functions. *)
Definition call {A : Type} (c : outcome A) : io A :=
  fun out =>
    match c with
    | Done a => Ok a out
    | OutOfBounds | OutOfFuel | LengthError => CallFailed
    end.

(** [assert(b)] *)
Definition assert (b : bool) : io unit :=
  fun out => if b then Ok tt out else AssertionFailed.

(** [v == w] on [vector<int>]: equal sizes and equal entries. *)
Fixpoint veq (v w : list Z) : bool :=
  match v, w with
  | [], [] => true
  | x :: v', y :: w' => (x =? y) && veq v' w'
  | _, _ => false
  end.

(** The lines of a text, each ended by a newline. *)
Fixpoint unlines (l : list string) : string :=
  match l with
  | [] => EmptyString
  | s :: l' => String.append s (String "010"%char (unlines l'))
  end.

Module knuth_morris_pratt.

Definition testComputeLPS (fuel : nat) : io unit :=
  exec _ <- cout_str "Testing computeLPS..."; exec _ <- endl;
  (* Test case 1: Empty string *)
  let expected1 := [] in
  exec result1 <- call (computeLPS fuel []);
  exec _ <- assert (veq result1 expected1);
  exec _ <- cout_str "  Test Case 1 (Empty String): Passed"; exec _ <- endl;
  (* Test case 2: Single character *)
  let expected2 := [0] in
  exec result2 <- call (computeLPS fuel (str "A"));
  exec _ <- assert (veq result2 expected2);
  exec _ <- cout_str "  Test Case 2 (Single Char): Passed"; exec _ <- endl;
  (* Test case 3: No repeating prefix/suffix *)
  let expected3 := [0; 0; 0; 0; 0] in
  exec result3 <- call (computeLPS fuel (str "ABCDE"));
  exec _ <- assert (veq result3 expected3);
  exec _ <- cout_str "  Test Case 3 (No Repeats): Passed"; exec _ <- endl;
  (* Test case 4: All same characters *)
  let expected4 := [0; 1; 2; 3; 4] in
  exec result4 <- call (computeLPS fuel (str "AAAAA"));
  exec _ <- assert (veq result4 expected4);
  exec _ <- cout_str "  Test Case 4 (All Same): Passed"; exec _ <- endl;
  (* Test case 5: Simple repeating pattern *)
  let expected5 := [0; 0; 1; 2; 3; 4] in
  exec result5 <- call (computeLPS fuel (str "ABABAB"));
  exec _ <- assert (veq result5 expected5);
  exec _ <- cout_str "  Test Case 5 (Simple Repeat): Passed"; exec _ <- endl;
  (* Test case 6: More complex pattern *)
  let expected6 := [0; 1; 0; 1; 2; 0; 1; 2; 3; 4; 5] in
  exec result6 <- call (computeLPS fuel (str "AABAACAABAA"));
  exec _ <- assert (veq result6 expected6);
  exec _ <- cout_str "  Test Case 6 (Complex 1): Passed"; exec _ <- endl;
  (* Test case 7: Another complex pattern *)
  let expected7 := [0; 1; 0; 1; 2; 0; 1; 2; 0; 1; 2] in
  exec result7 <- call (computeLPS fuel (str "aabaacaadaa"));
  exec _ <- assert (veq result7 expected7);
  exec _ <- cout_str "  Test Case 7 (Complex 2 - aabaacaadaa): Passed"; exec _ <- endl;
  exec _ <- cout_str "computeLPS tests finished."; exec _ <- endl; endl.

Definition testKMPSearch (fuel : nat) : io unit :=
  exec _ <- cout_str "Testing KMPSearch (Text LPS State Array)..."; exec _ <- endl;
  (* Test case 1: Empty text *)
  let expected1 := [] in
  exec result1 <- call (KMPSearch fuel [] (str "ABC"));
  exec _ <- assert (veq result1 expected1);
  exec _ <- cout_str "  Test Case 1 (Empty Text): Passed"; exec _ <- endl;
  (* Test case 2: Empty pattern *)
  let expected2 := [] in
  exec result2 <- call (KMPSearch fuel (str "ABCABC") []);
  exec _ <- assert (veq result2 expected2);
  exec _ <- cout_str "  Test Case 2 (Empty Pattern): Passed"; exec _ <- endl;
  (* Test case 3: Empty text and pattern *)
  let expected3 := [] in
  exec result3 <- call (KMPSearch fuel [] []);
  exec _ <- assert (veq result3 expected3);
  exec _ <- cout_str "  Test Case 3 (Empty Both): Passed"; exec _ <- endl;
  (* Test case 4: Pattern not found *)
  let text4 := str "ABCDEFG" in
  let pattern4 := str "XYZ" in
  let expected4 := [0; 0; 0; 0; 0; 0; 0] in
  exec result4 <- call (KMPSearch fuel text4 pattern4);
  exec _ <- assert (veq result4 expected4);
  exec _ <- cout_str "  Test Case 4 (Pattern Not Found): Passed"; exec _ <- endl;
  (* Test case 5: Simple match at beginning *)
  let text5 := str "ABCDEF" in
  let pattern5 := str "ABC" in
  let expected5 := [1; 2; 3; 0; 0; 0] in
  exec result5 <- call (KMPSearch fuel text5 pattern5);
  exec _ <- assert (veq result5 expected5);
  exec _ <- cout_str "  Test Case 5 (Match at Start): Passed"; exec _ <- endl;
  (* Test case 6: Simple match at end *)
  let text6 := str "XYZABC" in
  let pattern6 := str "ABC" in
  let expected6 := [0; 0; 0; 1; 2; 3] in
  exec result6 <- call (KMPSearch fuel text6 pattern6);
  exec _ <- assert (veq result6 expected6);
  exec _ <- cout_str "  Test Case 6 (Match at End): Passed"; exec _ <- endl;
  (* Test case 7: Multiple non-overlapping matches *)
  let text7 := str "ABCXYZABC" in
  let pattern7 := str "ABC" in
  let expected7 := [1; 2; 3; 0; 0; 0; 1; 2; 3] in
  exec result7 <- call (KMPSearch fuel text7 pattern7);
  exec _ <- assert (veq result7 expected7);
  exec _ <- cout_str "  Test Case 7 (Multiple Non-overlapping): Passed"; exec _ <- endl;
  (* Test case 8: Overlapping matches *)
  let text8 := str "ababab" in
  let pattern8 := str "abab" in
  let expected8 := [1; 2; 3; 4; 3; 4] in
  exec result8 <- call (KMPSearch fuel text8 pattern8);
  exec _ <- assert (veq result8 expected8);
  exec _ <- cout_str "  Test Case 8 (Overlapping Matches): Passed"; exec _ <- endl;
  (* Test case 9: Complex case with resets *)
  let text9 := str "ABABDABACDABABCABAB" in
  let pattern9 := str "ABABCABAB" in
  let expected9 := [1; 2; 3; 4; 0; 1; 2; 3; 0; 0; 1; 2; 3; 4; 5; 6; 7; 8; 9] in
  exec result9 <- call (KMPSearch fuel text9 pattern9);
  exec _ <- assert (veq result9 expected9);
  exec _ <- cout_str "  Test Case 9 (Complex Overlapping): Passed"; exec _ <- endl;
  (* Test case 10: Text is shorter than pattern *)
  let text10 := str "ABC" in
  let pattern10 := str "ABCDE" in
  let expected10 := [1; 2; 3] in
  exec result10 <- call (KMPSearch fuel text10 pattern10);
  exec _ <- assert (veq result10 expected10);
  exec _ <- cout_str "  Test Case 10 (Text Shorter than Pattern): Passed"; exec _ <- endl;
  exec _ <- cout_str "KMPSearch tests finished."; exec _ <- endl; endl.

Definition runComputeLPSSample (fuel : nat) : io unit :=
  let pattern := str "AABAACAABAA" in
  exec lps <- call (computeLPS fuel pattern);
  exec _ <- cout_str "Pattern: "; exec _ <- cout_text pattern; exec _ <- endl;
  exec _ <- cout_str "LPS Array: ";
  exec _ <- cout_each lps;
  endl.

Definition runKMPSearchSample (fuel : nat) : io unit :=
  let text := str "ABABDABACDABABCABAB" in
  let pattern := str "ABABCABAB" in
  exec lps <- call (KMPSearch fuel text pattern);
  exec _ <- cout_str "Text: "; exec _ <- cout_text text; exec _ <- endl;
  exec _ <- cout_str "Pattern: "; exec _ <- cout_text pattern; exec _ <- endl;
  exec _ <- cout_str "LPS Array: ";
  exec _ <- cout_each lps;
  endl.

Definition main (fuel : nat) : io Z :=
  exec _ <- testComputeLPS fuel;
  exec _ <- testKMPSearch fuel;
  exec _ <- runComputeLPSSample fuel;
  exec _ <- runKMPSearchSample fuel;
  io_ret 0.

(** What the program writes when every assertion holds. *)
Definition transcript : string := unlines [
  "Testing computeLPS...";
  "  Test Case 1 (Empty String): Passed";
  "  Test Case 2 (Single Char): Passed";
  "  Test Case 3 (No Repeats): Passed";
  "  Test Case 4 (All Same): Passed";
  "  Test Case 5 (Simple Repeat): Passed";
  "  Test Case 6 (Complex 1): Passed";
  "  Test Case 7 (Complex 2 - aabaacaadaa): Passed";
  "computeLPS tests finished.";
  EmptyString;
  "Testing KMPSearch (Text LPS State Array)...";
  "  Test Case 1 (Empty Text): Passed";
  "  Test Case 2 (Empty Pattern): Passed";
  "  Test Case 3 (Empty Both): Passed";
  "  Test Case 4 (Pattern Not Found): Passed";
  "  Test Case 5 (Match at Start): Passed";
  "  Test Case 6 (Match at End): Passed";
  "  Test Case 7 (Multiple Non-overlapping): Passed";
  "  Test Case 8 (Overlapping Matches): Passed";
  "  Test Case 9 (Complex Overlapping): Passed";
  "  Test Case 10 (Text Shorter than Pattern): Passed";
  "KMPSearch tests finished.";
  EmptyString;
  "Pattern: AABAACAABAA";
  "LPS Array: 0 1 0 1 2 0 1 2 3 4 5 ";
  "Text: ABABDABACDABABCABAB";
  "Pattern: ABABCABAB";
  "LPS Array: 1 2 3 4 0 1 2 3 0 0 1 2 3 4 5 6 7 8 9 "
]%string.

End knuth_morris_pratt.

Module z_algorithm.

Definition testComputeZArray (fuel : nat) : io unit :=
  exec _ <- cout_str "--- Testing computeZArray ---"; exec _ <- endl;
  (* Test case 1: Empty string *)
  exec result <- call (computeZArray fuel []);
  let expected := [] in
  exec _ <- assert (veq result expected);
  exec _ <- cout_str "Test Case 1 (Empty String): Passed"; exec _ <- endl;
  (* Test case 2: Single character *)
  exec result <- call (computeZArray fuel (str "a"));
  let expected := [1] in
  exec _ <- assert (veq result expected);
  exec _ <- cout_str "Test Case 2 (Single Char): Passed"; exec _ <- endl;
  (* Test case 3: All same characters *)
  exec result <- call (computeZArray fuel (str "aaaaa"));
  let expected := [5; 4; 3; 2; 1] in
  exec _ <- assert (veq result expected);
  exec _ <- cout_str "Test Case 3 (All Same): Passed"; exec _ <- endl;
  (* Test case 4: Distinct characters *)
  exec result <- call (computeZArray fuel (str "abcde"));
  let expected := [5; 0; 0; 0; 0] in
  exec _ <- assert (veq result expected);
  exec _ <- cout_str "Test Case 4 (Distinct): Passed"; exec _ <- endl;
  (* Test case 5: Standard example 1 *)
  exec result <- call (computeZArray fuel (str "aabaabcaxaabaabcy"));
  let expected := [17; 1; 0; 3; 1; 0; 0; 1; 0; 7; 1; 0; 3; 1; 0; 0; 0] in
  exec _ <- assert (veq result expected);
  exec _ <- cout_str "Test Case 5 (Standard 1): Passed"; exec _ <- endl;
  (* Test case 6: Standard example 2 *)
  exec result <- call (computeZArray fuel (str "ababababa"));
  let expected := [9; 0; 7; 0; 5; 0; 3; 0; 1] in
  exec _ <- assert (veq result expected);
  exec _ <- cout_str "Test Case 6 (Standard 2): Passed"; exec _ <- endl;
  (* Test case 7: Standard example 3 *)
  exec result <- call (computeZArray fuel (str "aaabaab"));
  let expected := [7; 2; 1; 0; 2; 1; 0] in
  exec _ <- assert (veq result expected);
  exec _ <- cout_str "Test Case 7 (Standard 3): Passed"; exec _ <- endl;
  exec _ <- cout_str "--- computeZArray tests completed successfully! ---";
  exec _ <- endl; endl.

Definition testZAlgorithmSearch (fuel : nat) : io unit :=
  exec _ <- cout_str "--- Testing zAlgorithmSearch ---"; exec _ <- endl;
  (* Test Case 1: Pattern Found Multiple Times *)
  let text := str "GEEKS FOR GEEKS" in
  let pattern := str "GEEK" in
  exec resultZ <- call (zAlgorithmSearch fuel text pattern);
  let expectedZ := [4; 0; 0; 0; 0; 0; 0; 0; 0; 0; 4; 0; 0; 0; 0] in
  exec _ <- assert (len resultZ =? len text);
  exec _ <- assert (veq resultZ expectedZ);
  exec _ <- cout_str "Test Case 1 (Multiple Found): Passed"; exec _ <- endl;
  (* Test Case 2: Pattern Not Found *)
  let text := str "ABCDEF" in
  let pattern := str "XYZ" in
  exec resultZ <- call (zAlgorithmSearch fuel text pattern);
  let expectedZ := [0; 0; 0; 0; 0; 0] in
  exec _ <- assert (len resultZ =? len text);
  exec _ <- assert (veq resultZ expectedZ);
  exec _ <- cout_str "Test Case 2 (Not Found): Passed"; exec _ <- endl;
  (* Test Case 3: Overlapping Occurrences *)
  let text := str "aaaaa" in
  let pattern := str "aa" in
  exec resultZ <- call (zAlgorithmSearch fuel text pattern);
  let expectedZ := [2; 2; 2; 2; 1] in
  exec _ <- assert (len resultZ =? len text);
  exec _ <- assert (veq resultZ expectedZ);
  exec _ <- cout_str "Test Case 3 (Overlapping): Passed"; exec _ <- endl;
  (* Test Case 4: Pattern at End *)
  let text := str "xyzabc" in
  let pattern := str "abc" in
  exec resultZ <- call (zAlgorithmSearch fuel text pattern);
  let expectedZ := [0; 0; 0; 3; 0; 0] in
  exec _ <- assert (len resultZ =? len text);
  exec _ <- assert (veq resultZ expectedZ);
  exec _ <- cout_str "Test Case 4 (Found at End): Passed"; exec _ <- endl;
  (* Test Case 5: Empty Text *)
  let text := [] in
  let pattern := str "abc" in
  exec resultZ <- call (zAlgorithmSearch fuel text pattern);
  let expectedZ := [] in
  exec _ <- assert (len resultZ =? len text);
  exec _ <- assert (veq resultZ expectedZ);
  exec _ <- cout_str "Test Case 5 (Empty Text): Passed"; exec _ <- endl;
  (* Test Case 6: Empty Pattern *)
  let text := str "abc" in
  let pattern := [] in
  exec resultZ <- call (zAlgorithmSearch fuel text pattern);
  let expectedZ := [0; 0; 0] in
  exec _ <- assert (len resultZ =? len text);
  exec _ <- assert (veq resultZ expectedZ);
  exec _ <- cout_str "Test Case 6 (Empty Pattern): Passed"; exec _ <- endl;
  (* Test Case 7: Pattern Longer than Text *)
  let text := str "abc" in
  let pattern := str "abcd" in
  exec resultZ <- call (zAlgorithmSearch fuel text pattern);
  exec _ <- assert (len resultZ =? len text);
  let expectedZ := [3; 0; 0] in
  exec _ <- assert (veq resultZ expectedZ);
  exec _ <- cout_str "Test Case 7 (Pattern Longer): Passed"; exec _ <- endl;
  (* Test Case 8: Standard Example *)
  let text := str "ABABDABACDABABCABAB" in
  let pattern := str "ABABCABAB" in
  exec resultZ <- call (zAlgorithmSearch fuel text pattern);
  let expectedZ := [4; 0; 2; 0; 0; 3; 0; 1; 0; 0; 9; 0; 2; 0; 0; 4; 0; 2; 0] in
  exec _ <- assert (len resultZ =? len text);
  exec _ <- assert (veq resultZ expectedZ);
  exec _ <- cout_str "Test Case 8 (Standard Complex): Passed"; exec _ <- endl;
  exec _ <- cout_str "--- zAlgorithmSearch tests completed successfully! ---";
  exec _ <- endl; endl.

Definition computeZArraySample (fuel : nat) : io unit :=
  exec _ <- cout_str "--- computeZArray Sample ---"; exec _ <- endl;
  let s := str "aabaabcaxaabaabcy" in
  exec result <- call (computeZArray fuel s);
  exec _ <- cout_str "String: "; exec _ <- cout_text s; exec _ <- endl;
  exec _ <- cout_str "Z-array: ";
  exec _ <- cout_each result;
  exec _ <- endl;
  exec _ <- cout_str "--- computeZArray Sample Completed ---";
  exec _ <- endl; endl.

Definition zAlgorithmSearchSample (fuel : nat) : io unit :=
  exec _ <- cout_str "--- zAlgorithmSearch Sample ---"; exec _ <- endl;
  let text := str "ABABDABACDABABCABAB" in
  let pattern := str "ABABCABAB" in
  exec result <- call (zAlgorithmSearch fuel text pattern);
  exec _ <- cout_str "Text: "; exec _ <- cout_text text; exec _ <- endl;
  exec _ <- cout_str "Pattern: "; exec _ <- cout_text pattern; exec _ <- endl;
  exec _ <- cout_str "Z-array: ";
  exec _ <- cout_each result;
  exec _ <- endl;
  exec _ <- cout_str "--- zAlgorithmSearch Sample Completed ---";
  exec _ <- endl; endl.

Definition main (fuel : nat) : io Z :=
  exec _ <- testComputeZArray fuel;
  exec _ <- testZAlgorithmSearch fuel;
  exec _ <- computeZArraySample fuel;
  exec _ <- zAlgorithmSearchSample fuel;
  io_ret 0.

(** What the program writes when every assertion holds. *)
Definition transcript : string := unlines [
  "--- Testing computeZArray ---";
  "Test Case 1 (Empty String): Passed";
  "Test Case 2 (Single Char): Passed";
  "Test Case 3 (All Same): Passed";
  "Test Case 4 (Distinct): Passed";
  "Test Case 5 (Standard 1): Passed";
  "Test Case 6 (Standard 2): Passed";
  "Test Case 7 (Standard 3): Passed";
  "--- computeZArray tests completed successfully! ---";
  EmptyString;
  "--- Testing zAlgorithmSearch ---";
  "Test Case 1 (Multiple Found): Passed";
  "Test Case 2 (Not Found): Passed";
  "Test Case 3 (Overlapping): Passed";
  "Test Case 4 (Found at End): Passed";
  "Test Case 5 (Empty Text): Passed";
  "Test Case 6 (Empty Pattern): Passed";
  "Test Case 7 (Pattern Longer): Passed";
  "Test Case 8 (Standard Complex): Passed";
  "--- zAlgorithmSearch tests completed successfully! ---";
  EmptyString;
  "--- computeZArray Sample ---";
  "String: aabaabcaxaabaabcy";
  "Z-array: 17 1 0 3 1 0 0 1 0 7 1 0 3 1 0 0 0 ";
  "--- computeZArray Sample Completed ---";
  EmptyString;
  "--- zAlgorithmSearch Sample ---";
  "Text: ABABDABACDABABCABAB";
  "Pattern: ABABCABAB";
  "Z-array: 4 0 2 0 0 3 0 1 0 0 9 0 2 0 0 4 0 2 0 ";
  "--- zAlgorithmSearch Sample Completed ---";
  EmptyString
]%string.

End z_algorithm.

(** ** The specification, on lists

    The properties the four arrays are documented to have, stated with
    [take], [drop] and [suffix_of]. *)

(** The prefix of [p] of length [k] is a suffix of [t]. *)
Definition prefix_is_suffix (p t : list ascii) (k : nat) : Prop :=
  (k <= length p)%nat /\ take k p `suffix_of` t.

(** The prefix of [s] of length [k] is a proper prefix of [s] and also a
    suffix of [s]. *)
Definition proper_border (s : list ascii) (k : nat) : Prop :=
  (k < length s)%nat /\ take k s `suffix_of` s.

(** [p[0..L) == t[i..i+L)]. *)
Definition prefix_match (p t : list ascii) (i L : nat) : Prop :=
  (L <= length p)%nat /\ (i + L <= length t)%nat /\
  take L p = take L (drop i t).

(** A full occurrence of [p] starts at offset [j] of [t]. *)
Definition occurs_at (p t : list ascii) (j : nat) : Prop :=
  (j + length p <= length t)%nat /\ take (length p) (drop j t) = p.

(** [k] is the largest number with property [P]. *)
Definition is_longest (P : nat -> Prop) (k : nat) : Prop :=
  P k /\ forall k', P k' -> (k' <= k)%nat.

(** [v] has fewer than [2^31] elements: its length is an [int]. *)
Definition fits_int {A : Type} (v : list A) : Prop := len v < 2 ^ 31.

(** The elements of [v] below the index [int_of_size (len v)]: all of
    [v] when its length is an [int]. *)
Definition seen {A : Type} (v : list A) : list A :=
  take (Z.to_nat (int_of_size (len v))) v.

(** A call ends when it returns a result or throws. *)
Definition ends {A : Type} (o : outcome A) : Prop :=
  (exists r, o = Done r) \/ o = LengthError.

(** A string of [n] symbols. *)
Definition long_string (n : Z) : list ascii := replicate (Z.to_nat n) "a"%char.

(** The text and the pattern of the fourth documented scenario. *)
Definition scenario4_text : list ascii := str "ABABDABACDABABCABAB".
Definition scenario4_pattern : list ascii := str "ABABCABAB".
Definition scenario4_result : list Z :=
  [4; 0; 2; 0; 0; 3; 0; 1; 0; 0; 9; 0; 2; 0; 0; 4; 0; 2; 0].

(** A renaming of the symbols: it swaps the two cases of a letter. *)
Definition toggle_case (c : ascii) : ascii :=
  let '(Ascii b0 b1 b2 b3 b4 b5 b6 b7) := c in
  Ascii b0 b1 b2 b3 b4 (negb b5) b6 b7.

(** ** The specification, on indices

    The same properties on [Z] indices, as the loops see them. *)

(** [occ p t k i]: the first [k] symbols of [p] are the [k] symbols of
    [t] that end just before position [i]. *)
Definition occ (p t : list ascii) (k i : Z) : Prop :=
  0 <= k <= len p /\ k <= i <= len t /\
  forall x, 0 <= x < k -> ix p x = ix t (i - k + x).

(** [is_lps p i v]: [v] is the length of the longest proper prefix of
    [p[0..i]] that is also a suffix of it. *)
Definition is_lps (p : list ascii) (i v : Z) : Prop :=
  v <= i /\ occ p p v (i + 1) /\
  forall v', v' <= i -> occ p p v' (i + 1) -> v' <= v.

(** [is_kmp p t i v]: [v] is the length of the longest prefix of [p]
    that is a suffix of [t[0..i]]. *)
Definition is_kmp (p t : list ascii) (i v : Z) : Prop :=
  occ p t v (i + 1) /\ forall v', occ p t v' (i + 1) -> v' <= v.

(** [zm p t i z]: the first [z] symbols of [p] are the symbols of [t]
    from position [i] on. *)
Definition zm (p t : list ascii) (i z : Z) : Prop :=
  0 <= z <= len p /\ 0 <= i /\ i + z <= len t /\
  forall x, 0 <= x < z -> ix p x = ix t (i + x).

(** [zmax p t i z]: moreover the match cannot be made longer. *)
Definition zmax (p t : list ascii) (i z : Z) : Prop :=
  zm p t i z /\ (z < len p -> i + z < len t -> ix p z <> ix t (i + z)).

(** The window [[L, R]] of the text is known to match the pattern. *)
Definition zbox (p t : list ascii) (L R : Z) : Prop :=
  forall x, L <= x <= R -> ix p (x - L) = ix t x.

(** ** Loop invariants and variants *)

(** The entries of [lps] before [i] are final. *)
Definition lps_table (p : list ascii) (lps : list Z) (i : Z) : Prop :=
  forall k, 0 <= k < i -> exists v, ix lps k = Some v /\ is_lps p k v.

(** The invariant of the loop of [computeLPS]: [p[0..j)] is the longest
    proper border of [p[0..i)] that [p[i]] may still extend. *)
Definition computeLPS_inv (p : list ascii) (s : lps_state) : Prop :=
  1 <= lps_i s <= len p /\
  0 <= lps_j s < lps_i s /\
  len (lps_arr s) = len p /\
  lps_table p (lps_arr s) (lps_i s) /\
  occ p p (lps_j s) (lps_i s) /\
  (forall k, lps_j s < k < lps_i s -> occ p p k (lps_i s) ->
     ix p k <> ix p (lps_i s)).

(** Its variant: a fall-back lowers [j], every other step raises [i]. *)
Definition computeLPS_mu (p : list ascii) (s : lps_state) : nat :=
  Z.to_nat (2 * (len p - lps_i s) + lps_j s).

(** The entries of the result before [i] are final. *)
Definition kmp_table (p t : list ascii) (lps : list Z) (i : Z) : Prop :=
  forall k, 0 <= k < i -> exists v, ix lps k = Some v /\ is_kmp p t k v.

(** The invariant of the loop of [KMPSearch]: [p[0..j)] is the longest
    prefix of [p], short of [p] itself, that ends before [t[i]] and that
    [t[i]] may still extend. *)
Definition KMPSearch_inv (p t : list ascii) (s : kmp_state) : Prop :=
  0 <= kmp_i s <= len t /\
  0 <= kmp_j s < len p /\
  len (kmp_arr s) = len t /\
  kmp_table p t (kmp_arr s) (kmp_i s) /\
  occ p t (kmp_j s) (kmp_i s) /\
  (forall k, kmp_j s < k < len p -> occ p t k (kmp_i s) ->
     ix p k <> ix t (kmp_i s)).

(** Its variant. *)
Definition KMPSearch_mu (t : list ascii) (s : kmp_state) : nat :=
  Z.to_nat (2 * (len t - kmp_i s) + kmp_j s).

(** The entries of the result before [i] are final. *)
Definition z_table (p t : list ascii) (za : list Z) (i : Z) : Prop :=
  forall k, 0 <= k < i -> exists v, ix za k = Some v /\ zmax p t k v.

(** The invariant of the [for] loop of [computeZArray]. *)
Definition computeZArray_inv (s : list ascii) (st : z_state) : Prop :=
  1 <= z_i st <= len s /\
  len (z_arr st) = len s /\
  z_table s s (z_arr st) (z_i st) /\
  0 <= z_L st <= z_i st - 1 /\
  z_R st <= len s - 1 /\
  (z_i st <= z_R st -> 1 <= z_L st) /\
  zbox s s (z_L st) (z_R st) /\
  -1 <= z_R st.

(** Its variant. *)
Definition computeZArray_mu (s : list ascii) (st : z_state) : nat :=
  Z.to_nat (len s - z_i st).

(** The invariant of the [for] loop of [zAlgorithmSearch]; the window
    is never longer than the pattern. *)
Definition zAlgorithmSearch_inv (p t : list ascii) (st : z_state) : Prop :=
  0 <= z_i st <= len t /\
  len (z_arr st) = len t /\
  z_table p t (z_arr st) (z_i st) /\
  0 <= z_L st /\
  z_R st <= len t - 1 /\
  z_R st - z_L st + 1 <= len p /\
  (z_i st <= z_R st -> z_L st <= z_i st - 1) /\
  zbox p t (z_L st) (z_R st) /\
  -1 <= z_R st.

(** Its variant. *)
Definition zAlgorithmSearch_mu (t : list ascii) (st : z_state) : nat :=
  Z.to_nat (len t - z_i st).

(** [loop_next cond body s' s]: the loop, in state [s], performs one more
    iteration, which leaves it in state [s']. *)
Definition loop_next {S : Type} (cond : S -> outcome bool)
    (body : S -> outcome S) (s' s : S) : Prop :=
  cond s = Done true /\ body s = Done s'.

(** [while (cond) body] without fuel: a total function, by recursion on
    the proof that no infinite run starts from [s]. *)
Fixpoint loop {S : Type} (cond : S -> outcome bool) (body : S -> outcome S)
    (s : S) (a : Acc (loop_next cond body) s) {struct a} : outcome S :=
  match cond s as c return cond s = c -> outcome S with
  | Done true => fun Hc =>
      match body s as b return body s = b -> outcome S with
      | Done s' => fun Hb => loop cond body s' (Acc_inv a (conj Hc Hb))
      | OutOfBounds => fun _ => OutOfBounds
      | OutOfFuel => fun _ => OutOfFuel
      | LengthError => fun _ => LengthError
      end eq_refl
  | Done false => fun _ => Done s
  | OutOfBounds => fun _ => OutOfBounds
  | OutOfFuel => fun _ => OutOfFuel
  | LengthError => fun _ => LengthError
  end eq_refl.

(** ** The assertions of the source's tests

    Each [assert] of [testComputeLPS], [testKMPSearch], [testComputeZArray]
    and [testZAlgorithmSearch], evaluated in the embedding. *)

Example testComputeLPS_1 : computeLPS 64 [] = Done [].
Proof. by vm_compute. Qed.

Example testComputeLPS_2 : computeLPS 64 (str "A") = Done [0].
Proof. by vm_compute. Qed.

Example testComputeLPS_3 : computeLPS 64 (str "ABCDE") = Done [0; 0; 0; 0; 0].
Proof. by vm_compute. Qed.

Example testComputeLPS_4 : computeLPS 64 (str "AAAAA") = Done [0; 1; 2; 3; 4].
Proof. by vm_compute. Qed.

Example testComputeLPS_5 : computeLPS 64 (str "ABABAB") = Done [0; 0; 1; 2; 3; 4].
Proof. by vm_compute. Qed.

Example testComputeLPS_6 : computeLPS 64 (str "AABAACAABAA") = Done [0; 1; 0; 1; 2; 0; 1; 2; 3; 4; 5].
Proof. by vm_compute. Qed.

Example testComputeLPS_7 : computeLPS 64 (str "aabaacaadaa") = Done [0; 1; 0; 1; 2; 0; 1; 2; 0; 1; 2].
Proof. by vm_compute. Qed.

Example testKMPSearch_1 :
  KMPSearch 64 [] (str "ABC") = Done [].
Proof. by vm_compute. Qed.

Example testKMPSearch_2 :
  KMPSearch 64 (str "ABCABC") [] = Done [].
Proof. by vm_compute. Qed.

Example testKMPSearch_3 :
  KMPSearch 64 [] [] = Done [].
Proof. by vm_compute. Qed.

Example testKMPSearch_4 :
  KMPSearch 64 (str "ABCDEFG") (str "XYZ") = Done [0; 0; 0; 0; 0; 0; 0].
Proof. by vm_compute. Qed.

Example testKMPSearch_5 :
  KMPSearch 64 (str "ABCDEF") (str "ABC") = Done [1; 2; 3; 0; 0; 0].
Proof. by vm_compute. Qed.

Example testKMPSearch_6 :
  KMPSearch 64 (str "XYZABC") (str "ABC") = Done [0; 0; 0; 1; 2; 3].
Proof. by vm_compute. Qed.

Example testKMPSearch_7 :
  KMPSearch 64 (str "ABCXYZABC") (str "ABC") = Done [1; 2; 3; 0; 0; 0; 1; 2; 3].
Proof. by vm_compute. Qed.

Example testKMPSearch_8 :
  KMPSearch 64 (str "ababab") (str "abab") = Done [1; 2; 3; 4; 3; 4].
Proof. by vm_compute. Qed.

Example testKMPSearch_9 :
  KMPSearch 64 (str "ABABDABACDABABCABAB") (str "ABABCABAB") = Done [1; 2; 3; 4; 0; 1; 2; 3; 0; 0; 1; 2; 3; 4; 5; 6; 7; 8; 9].
Proof. by vm_compute. Qed.

Example testKMPSearch_10 :
  KMPSearch 64 (str "ABC") (str "ABCDE") = Done [1; 2; 3].
Proof. by vm_compute. Qed.

Example testComputeZArray_1 : computeZArray 64 [] = Done [].
Proof. by vm_compute. Qed.

Example testComputeZArray_2 : computeZArray 64 (str "a") = Done [1].
Proof. by vm_compute. Qed.

Example testComputeZArray_3 : computeZArray 64 (str "aaaaa") = Done [5; 4; 3; 2; 1].
Proof. by vm_compute. Qed.

Example testComputeZArray_4 : computeZArray 64 (str "abcde") = Done [5; 0; 0; 0; 0].
Proof. by vm_compute. Qed.

Example testComputeZArray_5 : computeZArray 64 (str "aabaabcaxaabaabcy") = Done [17; 1; 0; 3; 1; 0; 0; 1; 0; 7; 1; 0; 3; 1; 0; 0; 0].
Proof. by vm_compute. Qed.

Example testComputeZArray_6 : computeZArray 64 (str "ababababa") = Done [9; 0; 7; 0; 5; 0; 3; 0; 1].
Proof. by vm_compute. Qed.

Example testComputeZArray_7 : computeZArray 64 (str "aaabaab") = Done [7; 2; 1; 0; 2; 1; 0].
Proof. by vm_compute. Qed.

Example testZAlgorithmSearch_1 :
  zAlgorithmSearch 64 (str "GEEKS FOR GEEKS") (str "GEEK") = Done [4; 0; 0; 0; 0; 0; 0; 0; 0; 0; 4; 0; 0; 0; 0].
Proof. by vm_compute. Qed.

Example testZAlgorithmSearch_2 :
  zAlgorithmSearch 64 (str "ABCDEF") (str "XYZ") = Done [0; 0; 0; 0; 0; 0].
Proof. by vm_compute. Qed.

Example testZAlgorithmSearch_3 :
  zAlgorithmSearch 64 (str "aaaaa") (str "aa") = Done [2; 2; 2; 2; 1].
Proof. by vm_compute. Qed.

Example testZAlgorithmSearch_4 :
  zAlgorithmSearch 64 (str "xyzabc") (str "abc") = Done [0; 0; 0; 3; 0; 0].
Proof. by vm_compute. Qed.

Example testZAlgorithmSearch_5 :
  zAlgorithmSearch 64 [] (str "abc") = Done [].
Proof. by vm_compute. Qed.

Example testZAlgorithmSearch_6 :
  zAlgorithmSearch 64 (str "abc") [] = Done [0; 0; 0].
Proof. by vm_compute. Qed.

Example testZAlgorithmSearch_7 :
  zAlgorithmSearch 64 (str "abc") (str "abcd") = Done [3; 0; 0].
Proof. by vm_compute. Qed.

Example testZAlgorithmSearch_8 :
  zAlgorithmSearch 64 (str "ABABDABACDABABCABAB") (str "ABABCABAB") = Done [4; 0; 2; 0; 0; 3; 0; 1; 0; 0; 9; 0; 2; 0; 0; 4; 0; 2; 0].
Proof. by vm_compute. Qed.

(** ** Reasoning about accesses and loops *)

Lemma len_nonneg {A : Type} (v : list A) : 0 <= len v.
Proof. unfold len. lia. Qed.

Lemma ix_Some {A : Type} (v : list A) (i : Z) :
  0 <= i < len v -> exists x, ix v i = Some x.
Proof.
  unfold ix, len. intros H.
  destruct (Z.leb_spec 0 i); [|lia].
  destruct (lookup_lt_is_Some_2 v (Z.to_nat i)) as [x Hx]; [lia|eauto].
Qed.

Lemma ix_Some_inv {A : Type} (v : list A) (i : Z) (x : A) :
  ix v i = Some x -> 0 <= i < len v.
Proof.
  unfold ix, len. destruct (Z.leb_spec 0 i); [|discriminate].
  intros Hx. apply lookup_lt_Some in Hx. lia.
Qed.

Lemma ix_None {A : Type} (v : list A) (i : Z) :
  ~ (0 <= i < len v) -> ix v i = None.
Proof.
  intros H. destruct (ix v i) eqn:E; [|done].
  apply ix_Some_inv in E. lia.
Qed.

Lemma ix_of_nat {A : Type} (v : list A) (i : nat) : ix v (Z.of_nat i) = v !! i.
Proof.
  unfold ix. destruct (Z.leb_spec 0 (Z.of_nat i)); [|lia].
  by rewrite Nat2Z.id.
Qed.

Lemma rd_Done {A : Type} (v : list A) (i : Z) (x : A) :
  ix v i = Some x -> rd v i = Done x.
Proof. unfold rd. by intros ->. Qed.

Lemma wr_Done {A : Type} (v : list A) (i : Z) (x : A) :
  0 <= i < len v -> wr v i x = Done (<[Z.to_nat i := x]> v).
Proof.
  intros H. unfold wr.
  destruct (Z.leb_spec 0 i); [|lia]. destruct (Z.ltb_spec i (len v)); [done|lia].
Qed.

Lemma len_insert {A : Type} (v : list A) (i : nat) (x : A) :
  len (<[i := x]> v) = len v.
Proof. unfold len. by rewrite length_insert. Qed.

Lemma ix_insert_eq {A : Type} (v : list A) (i : Z) (x : A) :
  0 <= i < len v -> ix (<[Z.to_nat i := x]> v) i = Some x.
Proof.
  intros H. unfold ix. destruct (Z.leb_spec 0 i); [|lia].
  apply list_lookup_insert_eq. unfold len in H. lia.
Qed.

Lemma ix_insert_ne {A : Type} (v : list A) (i k : Z) (x : A) :
  0 <= i -> k <> i -> ix (<[Z.to_nat i := x]> v) k = ix v k.
Proof.
  intros Hi Hk. unfold ix. destruct (Z.leb_spec 0 k); [|done].
  apply list_lookup_insert_ne. lia.
Qed.

Lemma int_of_size_fits (n : Z) : 0 <= n < 2 ^ 31 -> int_of_size n = n.
Proof. intros H. unfold int_of_size. rewrite Z.mod_small; lia. Qed.

Lemma int_of_size_range (n : Z) : - 2 ^ 31 <= int_of_size n < 2 ^ 31.
Proof.
  unfold int_of_size.
  pose proof (Z.mod_pos_bound (n + 2 ^ 31) (2 ^ 32)). lia.
Qed.

Lemma int_of_size_le (n : Z) : 0 <= n -> int_of_size n <= n.
Proof.
  intros H. unfold int_of_size.
  pose proof (Z.mod_le (n + 2 ^ 31) (2 ^ 32)). lia.
Qed.

Lemma int_of_size_len {A : Type} (v : list A) :
  fits_int v -> int_of_size (len v) = len v.
Proof.
  intros H. apply int_of_size_fits. unfold fits_int, len in *. lia.
Qed.

Lemma fits_int_nil {A : Type} : fits_int (@nil A).
Proof. unfold fits_int, len. simpl. lia. Qed.

Lemma new_vector_Done (n : Z) : 0 <= n -> new_vector n = Done (zeros n).
Proof. intros H. unfold new_vector. by destruct (Z.ltb_spec n 0); [lia|]. Qed.

Lemma new_vector_LengthError (n : Z) : n < 0 -> new_vector n = LengthError.
Proof. intros H. unfold new_vector. by destruct (Z.ltb_spec n 0); [|lia]. Qed.

Lemma new_vector_len {A : Type} (v : list A) :
  new_vector (len v) = Done (zeros (len v)).
Proof. apply new_vector_Done. unfold len. lia. Qed.

Lemma len_zeros (n : Z) : 0 <= n -> len (zeros n) = n.
Proof. intros H. unfold len, zeros. rewrite length_replicate. lia. Qed.

Lemma ix_zeros (n i : Z) : 0 <= i < n -> ix (zeros n) i = Some 0.
Proof.
  intros H. unfold ix, zeros. destruct (Z.leb_spec 0 i); [|lia].
  apply lookup_replicate_2. lia.
Qed.

Lemma ceq_true (a b : ascii) : ceq a b = true <-> a = b.
Proof. apply Ascii.eqb_eq. Qed.

Lemma ceq_false (a b : ascii) : ceq a b = false <-> a <> b.
Proof. apply Ascii.eqb_neq. Qed.

Lemma while_ext {S : Type} (cond1 cond2 : S -> outcome bool)
    (body1 body2 : S -> outcome S) :
  (forall s, cond1 s = cond2 s) -> (forall s, body1 s = body2 s) ->
  forall fuel s, while fuel cond1 body1 s = while fuel cond2 body2 s.
Proof.
  intros Hc Hb fuel. induction fuel as [|fuel IH]; intros s; simpl;
    rewrite Hc; destruct (cond2 s) as [[|]| | |]; simpl; try done.
  rewrite Hb. destruct (body2 s); simpl; [apply IH|done..].
Qed.

Lemma bind_ext {A B : Type} (c : outcome A) (k1 k2 : A -> outcome B) :
  (forall a, k1 a = k2 a) -> bind c k1 = bind c k2.
Proof. intros H. destruct c; simpl; [apply H|done..]. Qed.

(** Two loops that agree on the states that satisfy an invariant of the
    first. *)
Lemma while_agree {S : Type} (Inv : S -> Prop) (cond1 cond2 : S -> outcome bool)
    (body1 body2 : S -> outcome S) :
  (forall s, Inv s -> cond1 s = cond2 s) ->
  (forall s, Inv s -> cond1 s = Done true -> body1 s = body2 s) ->
  (forall s s', Inv s -> cond1 s = Done true -> body1 s = Done s' -> Inv s') ->
  forall fuel s, Inv s -> while fuel cond1 body1 s = while fuel cond2 body2 s.
Proof.
  intros Hc Hb Hi fuel. induction fuel as [|fuel IH]; intros s Hs; simpl;
    rewrite <- (Hc s Hs); destruct (cond1 s) as [[|]| | |] eqn:E; simpl; try done.
  rewrite <- (Hb s Hs E). destruct (body1 s) as [s'| | |] eqn:E'; simpl; [|done..].
  apply IH. by apply (Hi s).
Qed.

(** A loop whose condition fails at once. *)
Lemma while_false {S : Type} (cond : S -> outcome bool) (body : S -> outcome S)
    (fuel : nat) (s : S) :
  cond s = Done false -> while fuel cond body s = Done s.
Proof. intros H. destruct fuel; simpl; by rewrite H. Qed.

(** The loop rule.  [Inv] is the loop invariant and [mu] the variant.
    The body of a loop may itself run loops on the same fuel; [ok] is
    the condition on that fuel under which they cannot run out. *)
Section LoopRule.
Context {S : Type}.
Variables (Inv : S -> Prop) (mu : S -> nat) (ok : Prop).
Variables (cond : S -> outcome bool) (body : S -> outcome S).

Hypothesis step : forall s, Inv s ->
  cond s = Done false \/
  (cond s = Done true /\
   ((body s = OutOfFuel /\ ~ ok) \/
    exists s', body s = Done s' /\ Inv s' /\ (mu s' < mu s)%nat)).

(** Run on any fuel, the loop either ends in a state that satisfies the
    invariant and not the condition, or stops for lack of fuel; in no
    case does it access anything out of bounds. *)
Lemma while_rule (fuel : nat) (s : S) :
  Inv s ->
  (while fuel cond body s = OutOfFuel /\ (ok -> (fuel < mu s)%nat)) \/
  (exists s', while fuel cond body s = Done s' /\ Inv s' /\ cond s' = Done false).
Proof.
  revert s. induction fuel as [|fuel IH]; intros s HI;
    destruct (step s HI) as [Hc | [Hc [[Hb Hn] | (s' & Hb & HI' & Hmu)]]];
    simpl; rewrite Hc; simpl.
  - right; eauto.
  - left; split; [done|tauto].
  - left; split; [done|lia].
  - right; eauto.
  - rewrite Hb; simpl. left; split; [done|tauto].
  - rewrite Hb; simpl.
    destruct (IH s' HI') as [[E Hlt] | (s'' & E & HI'' & Hc'')].
    + left; split; [done|]. intros Hok. specialize (Hlt Hok). lia.
    + right; eauto.
Qed.

(** The loop has no infinite run from a state that satisfies the
    invariant. *)
Lemma loop_acc (s : S) : Inv s -> Acc (loop_next cond body) s.
Proof.
  remember (mu s) as n eqn:Hn. revert s Hn.
  induction n as [n IH] using lt_wf_ind. intros s -> HI.
  constructor. intros s' [Hc Hb].
  destruct (step s HI) as [Hf | [_ [[Hof _] | (s'' & Hb' & HI' & Hmu)]]];
    [congruence..|].
  rewrite Hb in Hb'. injection Hb' as <-. by apply (IH (mu s')).
Qed.
End LoopRule.

(** ** Occurrences of pattern prefixes *)

Lemma occ_zero (p t : list ascii) (i : Z) : 0 <= i <= len t -> occ p t 0 i.
Proof.
  intros H. pose proof (len_nonneg p). repeat split; intros; lia.
Qed.

Lemma occ_extend (p t : list ascii) (k i : Z) :
  occ p t k i -> ix p k = ix t i -> k < len p -> i < len t ->
  occ p t (k + 1) (i + 1).
Proof.
  intros (Hk & Hi & Hx) He Hkp Hit. repeat split; try lia.
  intros x Hr. destruct (Z.eq_dec x k) as [->|Hne].
  - rewrite He. f_equal. lia.
  - rewrite Hx by lia. f_equal. lia.
Qed.

Lemma occ_shrink (p t : list ascii) (k i : Z) :
  occ p t k i -> 0 < k -> occ p t (k - 1) (i - 1) /\ ix p (k - 1) = ix t (i - 1).
Proof.
  intros (Hk & Hi & Hx) Hpos. split.
  - repeat split; try lia. intros x Hr. rewrite Hx by lia. f_equal. lia.
  - rewrite Hx by lia. f_equal. lia.
Qed.

Lemma occ_chain (p t : list ascii) (k' k i : Z) :
  occ p p k' k -> occ p t k i -> occ p t k' i.
Proof.
  intros (Hk' & Hkk & Hx') (Hk & Hi & Hx). repeat split; try lia.
  intros x Hr. rewrite Hx' by lia. rewrite Hx by lia. f_equal. lia.
Qed.

Lemma occ_overlap (p t : list ascii) (k' k i : Z) :
  occ p t k i -> occ p t k' i -> k' <= k -> occ p p k' k.
Proof.
  intros (Hk & Hi & Hx) (Hk' & Hi' & Hx') Hle. repeat split; try lia.
  intros x Hr. rewrite Hx' by lia. rewrite Hx by lia. f_equal. lia.
Qed.

Lemma occ_shrink' (p t : list ascii) (k i : Z) :
  occ p t (k + 1) (i + 1) -> 0 <= k -> occ p t k i /\ ix p k = ix t i.
Proof.
  intros H Hk. destruct (occ_shrink p t (k + 1) (i + 1) H) as [H1 H2]; [lia|].
  by replace (k + 1 - 1) with k in * by lia; replace (i + 1 - 1) with i in * by lia.
Qed.

(** If no prefix longer than [j] and shorter than [b] that ends before
    [i] can be extended by [t[i]], then a prefix of length at most [b]
    ending at [i] has length at most [j + 1] and extends one ending
    before [i]. *)
Lemma occ_candidate (p t : list ascii) (j i b v : Z) :
  (forall k, j < k < b -> occ p t k i -> ix p k <> ix t i) ->
  0 < v <= b -> occ p t v (i + 1) ->
  v - 1 <= j /\ occ p t (v - 1) i /\ ix p (v - 1) = ix t i.
Proof.
  intros Hmax Hv Hocc.
  replace v with (v - 1 + 1) in Hocc by lia.
  apply occ_shrink' in Hocc as [H1 H2]; [|lia].
  split; [|done].
  destruct (Z_le_gt_dec (v - 1) j) as [|Hgt]; [done|].
  exfalso. apply (Hmax (v - 1)); [lia|done..].
Qed.

(** ** [computeLPS] *)

Lemma lps_table_insert (p : list ascii) (lps : list Z) (i v : Z) :
  0 <= i < len lps -> lps_table p lps i -> is_lps p i v ->
  lps_table p (<[Z.to_nat i := v]> lps) (i + 1).
Proof.
  intros Hi Ht Hv k Hk. destruct (Z.eq_dec k i) as [->|Hne].
  - exists v. by rewrite ix_insert_eq.
  - rewrite ix_insert_ne by lia. apply Ht. lia.
Qed.

Lemma computeLPS_step (p : list ascii) (s : lps_state) :
  computeLPS_inv p s ->
  computeLPS_cond (len p) s = Done false \/
  (computeLPS_cond (len p) s = Done true /\
   exists s', computeLPS_body p s = Done s' /\ computeLPS_inv p s' /\
              (computeLPS_mu p s' < computeLPS_mu p s)%nat).
Proof.
  destruct s as [i j lps]. unfold computeLPS_inv, computeLPS_mu, computeLPS_cond.
  simpl. intros (Hi & Hj & Hlen & Htab & Hocc & Hmax).
  destruct (Z.ltb_spec i (len p)) as [Hlt|Hge]; [right|by left].
  split; [done|].
  destruct (ix_Some p i) as [pi Hpi]; [lia|].
  destruct (ix_Some p j) as [pj Hpj]; [lia|].
  rewrite (rd_Done _ _ _ Hpi), (rd_Done _ _ _ Hpj). simpl.
  destruct (ceq pi pj) eqn:E.
  - (* pattern[i] == pattern[j] *)
    apply ceq_true in E as ->.
    rewrite wr_Done by lia. simpl.
    eexists; split; [reflexivity|]. simpl.
    assert (Hnew : occ p p (j + 1) (i + 1))
      by (apply occ_extend; [done|congruence|lia..]).
    split; [|lia].
    split; [lia|]. split; [lia|]. split; [by rewrite len_insert|].
    split; [|split; [done|]].
    + apply lps_table_insert; [lia|done|].
      split; [lia|]. split; [done|].
      intros v' Hv' Hocc'.
      destruct (Z_le_gt_dec v' 0); [lia|].
      destruct (occ_candidate p p j i i v' Hmax) as [? _]; [lia|done|lia].
    + intros k Hk Hocc'.
      destruct (occ_candidate p p j i i k Hmax) as [? _]; [lia|done|lia].
  - (* mismatch *)
    apply ceq_false in E.
    destruct (Z.eqb_spec j 0) as [->|Hj0]; simpl.
    + (* j == 0 *)
      rewrite wr_Done by lia. simpl.
      eexists; split; [reflexivity|]. simpl.
      assert (Hno : forall v, 0 < v <= i -> ~ occ p p v (i + 1)).
      { intros v Hv Hocc'.
        destruct (occ_candidate p p 0 i i v Hmax) as (? & _ & He); [lia|done|].
        replace (v - 1) with 0 in He by lia. congruence. }
      split; [|lia].
      split; [lia|]. split; [lia|]. split; [by rewrite len_insert|].
      split; [|split].
      * apply lps_table_insert; [lia|done|].
        split; [lia|]. split; [apply occ_zero; lia|].
        intros v' Hv' Hocc'. destruct (Z_le_gt_dec v' 0); [done|].
        exfalso. apply (Hno v'); [lia|done].
      * apply occ_zero. lia.
      * intros k Hk Hocc'. exfalso. apply (Hno k); [lia|done].
    + (* j != 0: fall back *)
      destruct (Htab (j - 1)) as (v & Hv & Hle & Hbord & Hbest); [lia|].
      replace (j - 1 + 1) with j in * by lia.
      rewrite (rd_Done _ _ _ Hv). simpl.
      eexists; split; [reflexivity|]. simpl.
      assert (0 <= v) by (destruct Hbord; lia).
      split; [|lia].
      split; [lia|]. split; [lia|]. split; [done|]. split; [done|].
      split; [by apply occ_chain with j|].
      intros k Hk Hocc'.
      destruct (Z_lt_ge_dec j k); [apply Hmax; [lia|done]|].
      destruct (Z.eq_dec k j) as [->|]; [congruence|].
      assert (k <= v); [|lia].
      apply Hbest; [lia|]. apply (occ_overlap p p k j i); [done..|lia].
Qed.

Lemma computeLPS_init (p : list ascii) :
  len p > 0 -> computeLPS_inv p (LpsState 1 0 (zeros (len p))).
Proof.
  intros Hpos. unfold computeLPS_inv; simpl.
  split; [lia|]. split; [lia|]. split; [apply len_zeros; lia|].
  split; [|split].
  - intros k Hk. exists 0. split; [apply ix_zeros; lia|].
    replace k with 0 by lia. split; [lia|]. split; [apply occ_zero; lia|].
    intros; lia.
  - apply occ_zero. lia.
  - intros; lia.
Qed.

(** The call on a pattern whose length is an [int]. *)
Lemma computeLPS_fits (fuel : nat) (p : list ascii) :
  fits_int p ->
  computeLPS fuel p =
    do s <- while fuel (computeLPS_cond (len p)) (computeLPS_body p)
              (LpsState 1 0 (zeros (len p)));
    Done (lps_arr s).
Proof.
  intros Hp. unfold computeLPS. by rewrite int_of_size_len, new_vector_len.
Qed.

(** What a call of [computeLPS] yields, whatever the fuel. *)
Lemma computeLPS_run (fuel : nat) (p : list ascii) :
  fits_int p ->
  (computeLPS fuel p = OutOfFuel /\ (fuel < 2 * length p)%nat) \/
  (exists lps, computeLPS fuel p = Done lps /\ len lps = len p /\
               lps_table p lps (len p)).
Proof.
  intros Hfits. rewrite computeLPS_fits by done.
  destruct (Z_le_gt_dec (len p) 0) as [H0|Hpos].
  - (* the empty pattern: the loop is not entered *)
    right. destruct fuel; simpl;
      (destruct (Z.ltb_spec 1 (len p)); [lia|]); simpl;
      (eexists; split; [reflexivity|]);
      (split; [rewrite len_zeros; pose proof (len_nonneg p); lia|]);
      intros k Hk; lia.
  - assert (Hstep : forall s, computeLPS_inv p s ->
       computeLPS_cond (len p) s = Done false \/
       (computeLPS_cond (len p) s = Done true /\
        ((computeLPS_body p s = OutOfFuel /\ ~ True) \/
         exists s', computeLPS_body p s = Done s' /\ computeLPS_inv p s' /\
                    (computeLPS_mu p s' < computeLPS_mu p s)%nat))).
    { intros s Hs. destruct (computeLPS_step p s Hs) as [?|[? ?]]; auto. }
    assert (Hinit := computeLPS_init p Hpos).
    destruct (while_rule _ _ _ _ _ Hstep fuel _ Hinit)
      as [[E Hlt] | (s' & E & HI & Hc)].
    + left. rewrite E. split; [done|].
      specialize (Hlt I). unfold computeLPS_mu, len in *. simpl in Hlt. lia.
    + right. rewrite E. simpl. exists (lps_arr s').
      destruct HI as (Hi & _ & Hlen & Htab & _).
      unfold computeLPS_cond in Hc.
      destruct (Z.ltb_spec (lps_i s') (len p)); [done|].
      replace (len p) with (lps_i s') at 2 by lia. done.
Qed.

(** ** [KMPSearch] *)

(** Falling back from [j] to the longest proper border of [p[0..j-1]]
    loses no candidate. *)
Lemma occ_fallback (p t : list ascii) (j i b v : Z) :
  occ p t j i -> 0 < j -> is_lps p (j - 1) v ->
  (forall k, j < k < b -> occ p t k i -> ix p k <> ix t i) ->
  (j < b -> ix p j <> ix t i) ->
  0 <= v < j /\ occ p t v i /\
  (forall k, v < k < b -> occ p t k i -> ix p k <> ix t i).
Proof.
  intros Hocc Hj (Hle & Hbord & Hbest) Hmax Hmis.
  replace (j - 1 + 1) with j in * by lia.
  assert (0 <= v) by (destruct Hbord; lia).
  split; [lia|]. split; [by apply occ_chain with j|].
  intros k Hk Hocc'.
  destruct (Z_lt_ge_dec j k); [apply Hmax; [lia|done]|].
  destruct (Z.eq_dec k j) as [->|]; [apply Hmis; lia|].
  assert (k <= v); [|lia].
  apply Hbest; [lia|]. apply (occ_overlap p t k j i); [done..|lia].
Qed.

Lemma kmp_table_insert (p t : list ascii) (lps : list Z) (i v : Z) :
  0 <= i < len lps -> kmp_table p t lps i -> is_kmp p t i v ->
  kmp_table p t (<[Z.to_nat i := v]> lps) (i + 1).
Proof.
  intros Hi Ht Hv k Hk. destruct (Z.eq_dec k i) as [->|Hne].
  - exists v. by rewrite ix_insert_eq.
  - rewrite ix_insert_ne by lia. apply Ht. lia.
Qed.

Lemma KMPSearch_step (p t : list ascii) (lps_pattern : list Z) (s : kmp_state) :
  lps_table p lps_pattern (len p) ->
  KMPSearch_inv p t s ->
  KMPSearch_cond (len t) s = Done false \/
  (KMPSearch_cond (len t) s = Done true /\
   exists s', KMPSearch_body t p (len t) (len p) lps_pattern s = Done s' /\
              KMPSearch_inv p t s' /\
              (KMPSearch_mu t s' < KMPSearch_mu t s)%nat).
Proof.
  intros Hlps.
  destruct s as [i j lps]. unfold KMPSearch_inv, KMPSearch_mu, KMPSearch_cond.
  simpl. intros (Hi & Hj & Hlen & Htab & Hocc & Hmax).
  destruct (Z.ltb_spec i (len t)) as [Hlt|Hge]; [right|by left].
  split; [done|].
  destruct (ix_Some p j) as [pj Hpj]; [lia|].
  destruct (ix_Some t i) as [ti Hti]; [lia|].
  rewrite (rd_Done _ _ _ Hpj), (rd_Done _ _ _ Hti). simpl.
  destruct (ceq pj ti) eqn:E.
  - (* pattern[j] == text[i] *)
    apply ceq_true in E as ->.
    rewrite wr_Done by lia. simpl.
    assert (Hnew : occ p t (j + 1) (i + 1))
      by (apply occ_extend; [done|congruence|lia..]).
    assert (Hbest : forall v', occ p t v' (i + 1) -> v' <= j + 1).
    { intros v' Hocc'. destruct (Z_le_gt_dec v' 0); [lia|].
      destruct (occ_candidate p t j i (len p) v' Hmax) as [? _];
        [destruct Hocc'; lia|done|lia]. }
    assert (Htab' : kmp_table p t (<[Z.to_nat i:=j + 1]> lps) (i + 1))
      by (apply kmp_table_insert; [lia|done|by split]).
    assert (Hmax' : forall k, j + 1 < k < len p -> occ p t k (i + 1) ->
                      ix p k <> ix t (i + 1)).
    { intros k Hk Hocc'. specialize (Hbest k Hocc'). lia. }
    destruct (Z.eqb_spec (j + 1) (len p)) as [Hm|Hm].
    + (* j == m: a full match, fold back *)
      destruct (Hlps (j + 1 - 1)) as (v & Hv & Hvlps); [lia|].
      rewrite (rd_Done _ _ _ Hv). simpl.
      destruct (occ_fallback p t (j + 1) (i + 1) (len p) v)
        as (Hv0 & Hoccv & Hmaxv); [done|lia|done|done|lia|].
      eexists; split; [reflexivity|]. simpl.
      split; [|lia].
      split; [lia|]. split; [lia|]. split; [by rewrite len_insert|]. done.
    + destruct (Z.ltb_spec (i + 1) (len t)) as [Hlt'|Hge'].
      * destruct (ix_Some p (j + 1)) as [pj' Hpj']; [lia|].
        destruct (ix_Some t (i + 1)) as [ti' Hti']; [lia|].
        rewrite (rd_Done _ _ _ Hpj'), (rd_Done _ _ _ Hti'). simpl.
        destruct (ceq pj' ti') eqn:E'; simpl.
        -- eexists; split; [reflexivity|]. simpl.
           split; [|lia].
           split; [lia|]. split; [lia|]. split; [by rewrite len_insert|]. done.
        -- apply ceq_false in E'.
           destruct (Z.eqb_spec (j + 1) 0) as [|_]; [lia|]. simpl.
           destruct (Hlps (j + 1 - 1)) as (v & Hv & Hvlps); [lia|].
           rewrite (rd_Done _ _ _ Hv). simpl.
           destruct (occ_fallback p t (j + 1) (i + 1) (len p) v)
             as (Hv0 & Hoccv & Hmaxv); [done|lia|done|done|congruence|].
           eexists; split; [reflexivity|]. simpl.
           split; [|lia].
           split; [lia|]. split; [lia|]. split; [by rewrite len_insert|]. done.
      * simpl. eexists; split; [reflexivity|]. simpl.
        split; [|lia].
        split; [lia|]. split; [lia|]. split; [by rewrite len_insert|]. done.
  - (* pattern[j] != text[i] *)
    apply ceq_false in E. simpl.
    destruct (Z.eqb_spec j (len p)) as [|_]; [lia|].
    destruct (Z.ltb_spec i (len t)) as [_|]; [|lia].
    rewrite (rd_Done _ _ _ Hpj), (rd_Done _ _ _ Hti). simpl.
    destruct (ceq pj ti) eqn:E2; [apply ceq_true in E2; done|]. simpl.
    destruct (Z.eqb_spec j 0) as [->|Hj0]; simpl.
    + (* j == 0 *)
      rewrite wr_Done by lia. simpl.
      eexists; split; [reflexivity|]. simpl.
      assert (Hno : forall v, 0 < v -> ~ occ p t v (i + 1)).
      { intros v Hv Hocc'.
        destruct (occ_candidate p t 0 i (len p) v Hmax) as (? & _ & He);
          [destruct Hocc'; lia|done|].
        replace (v - 1) with 0 in He by lia. congruence. }
      split; [|lia].
      split; [lia|]. split; [lia|]. split; [by rewrite len_insert|].
      split; [|split].
      * apply kmp_table_insert; [lia|done|].
        split; [apply occ_zero; lia|].
        intros v' Hocc'. destruct (Z_le_gt_dec v' 0); [done|].
        exfalso. apply (Hno v'); [lia|done].
      * apply occ_zero. lia.
      * intros k Hk Hocc'. exfalso. apply (Hno k); [lia|done].
    + (* j != 0: fall back *)
      destruct (Hlps (j - 1)) as (v & Hv & Hvlps); [lia|].
      rewrite (rd_Done _ _ _ Hv). simpl.
      destruct (occ_fallback p t j i (len p) v)
        as (Hv0 & Hoccv & Hmaxv); [done|lia|done|done|congruence|].
      eexists; split; [reflexivity|]. simpl.
      split; [|lia].
      split; [lia|]. split; [lia|]. done.
Qed.

Lemma KMPSearch_init (p t : list ascii) :
  0 < len p -> KMPSearch_inv p t (KmpState 0 0 (zeros (len t))).
Proof.
  intros Hpos. pose proof (len_nonneg t).
  unfold KMPSearch_inv; simpl.
  split; [lia|]. split; [lia|]. split; [apply len_zeros; lia|].
  split; [|split].
  - intros k Hk. lia.
  - apply occ_zero. lia.
  - intros k Hk (_ & ? & _). lia.
Qed.

(** The call on a text and a pattern whose lengths are [int]s. *)
Lemma KMPSearch_fits (fuel : nat) (t p : list ascii) :
  fits_int t -> fits_int p ->
  KMPSearch fuel t p =
    if len p =? 0 then Done []
    else
      do lps_pattern <- computeLPS fuel p;
      do s <- while fuel (KMPSearch_cond (len t))
                (KMPSearch_body t p (len t) (len p) lps_pattern)
                (KmpState 0 0 (zeros (len t)));
      Done (kmp_arr s).
Proof.
  intros Ht Hp. unfold KMPSearch.
  by rewrite !int_of_size_len, new_vector_len.
Qed.

(** What a call of [KMPSearch] with a non-empty pattern yields. *)
Lemma KMPSearch_run (fuel : nat) (t p : list ascii) :
  fits_int t -> fits_int p -> p <> [] ->
  (KMPSearch fuel t p = OutOfFuel /\
   (fuel < 2 * length p \/ fuel < 2 * length t)%nat) \/
  (exists lps, KMPSearch fuel t p = Done lps /\ len lps = len t /\
               kmp_table p t lps (len t)).
Proof.
  intros Hft Hfp Hp. rewrite KMPSearch_fits by done.
  assert (0 < len p) by (destruct p; [done|unfold len; simpl; lia]).
  destruct (Z.eqb_spec (len p) 0) as [|_]; [lia|].
  destruct (computeLPS_run fuel p Hfp) as [[E Hlt] | (lpsp & E & Hlenp & Hlps)];
    rewrite E; simpl.
  { left. split; [done|lia]. }
  assert (Hstep : forall s, KMPSearch_inv p t s ->
     KMPSearch_cond (len t) s = Done false \/
     (KMPSearch_cond (len t) s = Done true /\
      ((KMPSearch_body t p (len t) (len p) lpsp s = OutOfFuel /\ ~ True) \/
       exists s', KMPSearch_body t p (len t) (len p) lpsp s = Done s' /\
                  KMPSearch_inv p t s' /\
                  (KMPSearch_mu t s' < KMPSearch_mu t s)%nat))).
  { intros s Hs. destruct (KMPSearch_step p t lpsp s Hlps Hs) as [?|[? ?]]; auto. }
  assert (Hinit := KMPSearch_init p t H).
  destruct (while_rule _ _ _ _ _ Hstep fuel _ Hinit)
    as [[E' Hlt] | (s' & E' & HI & Hc)]; rewrite E'; simpl.
  - left. split; [done|].
    specialize (Hlt I). unfold KMPSearch_mu, len in *. simpl in Hlt. lia.
  - right. exists (kmp_arr s').
    destruct HI as (Hi & _ & Hlen & Htab & _).
    unfold KMPSearch_cond in Hc.
    destruct (Z.ltb_spec (kmp_i s') (len t)); [done|].
    replace (len t) with (kmp_i s') at 2 by lia. done.
Qed.

(** ** Prefix matches at a position *)

Lemma zm_zero (p t : list ascii) (i : Z) : 0 <= i <= len t -> zm p t i 0.
Proof.
  intros H. pose proof (len_nonneg p). repeat split; intros; lia.
Qed.

Lemma zm_extend (p t : list ascii) (i z : Z) :
  zm p t i z -> ix p z = ix t (i + z) -> z < len p -> i + z < len t ->
  zm p t i (z + 1).
Proof.
  intros (Hz & Hi & Hiz & Hx) He Hzp Hit. repeat split; try lia.
  intros x Hr. destruct (Z.eq_dec x z) as [->|Hne]; [done|].
  apply Hx. lia.
Qed.

(** A match is a prefix of any maximal one. *)
Lemma zmax_longest (p t : list ascii) (i z z' : Z) :
  zmax p t i z -> zm p t i z' -> z' <= z.
Proof.
  intros [(Hz & Hi & Hiz & Hx) Hstop] (Hz' & _ & Hiz' & Hx').
  destruct (Z_le_gt_dec z' z) as [|Hgt]; [done|].
  exfalso. apply Hstop; [lia..|]. apply Hx'. lia.
Qed.

Lemma zm_zbox (p t : list ascii) (L R : Z) : zm p t L (R - L) -> zbox p t L (R - 1).
Proof.
  intros (_ & _ & _ & Hx) x Hr. rewrite Hx by lia. f_equal. lia.
Qed.

(** Inside the window, a short match of the pattern with itself is
    copied ... *)
Lemma zbox_copy (p t : list ascii) (L R i zk : Z) :
  zbox p t L R -> 0 <= L < i -> i <= R -> R < len t -> R - L < len p ->
  zmax p p (i - L) zk -> zk < R - i + 1 ->
  zmax p t i zk.
Proof.
  intros Hbox HL Hi HR HRL [(Hz & _ & Hkz & Hx) Hstop] Hlt.
  split; [repeat split; try lia|].
  - intros x Hr. rewrite Hx by lia. rewrite <- Hbox by lia. f_equal. lia.
  - intros Hzp Hit. rewrite <- Hbox by lia.
    replace (i + zk - L) with (i - L + zk) by lia. apply Hstop; lia.
Qed.

(** ... and one that reaches the end of the window matches the text up
    to there. *)
Lemma zbox_restart (p t : list ascii) (L R i zk : Z) :
  zbox p t L R -> 0 <= L < i -> i <= R -> R < len t -> R - L < len p ->
  zmax p p (i - L) zk -> R - i + 1 <= zk ->
  zm p t i (R - i).
Proof.
  intros Hbox HL Hi HR HRL [(Hz & _ & Hkz & Hx) Hstop] Hle.
  repeat split; try lia.
  intros x Hr. rewrite Hx by lia. rewrite <- Hbox by lia. f_equal. lia.
Qed.

Lemma z_table_insert (p t : list ascii) (za : list Z) (i v : Z) :
  0 <= i < len za -> z_table p t za i -> zmax p t i v ->
  z_table p t (<[Z.to_nat i := v]> za) (i + 1).
Proof.
  intros Hi Ht Hv k Hk. destruct (Z.eq_dec k i) as [->|Hne].
  - exists v. by rewrite ix_insert_eq.
  - rewrite ix_insert_ne by lia. apply Ht. lia.
Qed.

(** ** [computeZArray] *)

Lemma extend_cond_spec (s : list ascii) (L R : Z) :
  0 <= L <= R -> R <= len s ->
  exists b, extend_cond s (len s) L R = Done b /\
            (b = true <-> R < len s /\ ix s (R - L) = ix s R).
Proof.
  intros HL HR. unfold extend_cond.
  destruct (Z.ltb_spec R (len s)) as [Hlt|Hge].
  - destruct (ix_Some s (R - L)) as [a Ha]; [lia|].
    destruct (ix_Some s R) as [b Hb]; [lia|].
    rewrite (rd_Done _ _ _ Ha), (rd_Done _ _ _ Hb). simpl.
    eexists; split; [reflexivity|]. rewrite ceq_true, Ha, Hb.
    split; [by intros ->|]. intros [_ [= ->]]. done.
  - exists false. split; [done|]. split; [done|lia].
Qed.

(** The extension loop of [computeZArray], started at [R0] with [L]
    fixed. *)
Lemma extend_run (fuel : nat) (s : list ascii) (L R0 : Z) :
  0 <= L <= R0 -> R0 <= len s -> zm s s L (R0 - L) ->
  (while fuel (extend_cond s (len s) L) extend_body R0 = OutOfFuel /\
   (fuel < Z.to_nat (len s - R0))%nat) \/
  (exists R, while fuel (extend_cond s (len s) L) extend_body R0 = Done R /\
             R0 <= R <= len s /\ zmax s s L (R - L)).
Proof.
  intros HL HR Hzm.
  pose (Inv := fun R : Z => R0 <= R <= len s /\ zm s s L (R - L)).
  assert (Hstep : forall R, Inv R ->
     extend_cond s (len s) L R = Done false \/
     (extend_cond s (len s) L R = Done true /\
      ((extend_body R = OutOfFuel /\ ~ True) \/
       exists R', extend_body R = Done R' /\ Inv R' /\
                  (Z.to_nat (len s - R') < Z.to_nat (len s - R))%nat))).
  { intros R [HR' Hzm'].
    destruct (extend_cond_spec s L R) as (b & Hb & Hspec); [lia..|].
    destruct b; [right|by left]. split; [done|]. right.
    destruct Hspec as [Hspec _]. destruct (Hspec eq_refl) as [Hlt He].
    exists (R + 1). split; [done|]. split; [|lia]. split; [lia|].
    replace (R + 1 - L) with (R - L + 1) by lia.
    apply zm_extend; [done| |lia..]. rewrite He. f_equal. lia. }
  destruct (while_rule Inv _ _ _ _ Hstep fuel R0) as [[E Hlt] | (R & E & [HR' Hzm'] & Hc)].
  - by split.
  - left. split; [done|]. by apply Hlt.
  - right. exists R. split; [done|]. split; [done|]. split; [done|].
    intros H1 H2.
    destruct (extend_cond_spec s L R) as (b & Hb & Hspec); [lia..|].
    rewrite Hc in Hb. injection Hb as <-. intros He.
    destruct Hspec as [_ Hspec]. discriminate Hspec.
    split; [lia|]. rewrite He. f_equal. lia.
Qed.

(** The part shared by the two branches of [computeZArray] that compare
    symbols: extend from [R0] with [L = i], record [Z[i]], step [R]
    back. *)
Lemma computeZArray_extend (fuel : nat) (s : list ascii) (i R0 : Z) (za : list Z) :
  1 <= i < len s -> i <= R0 <= len s -> zm s s i (R0 - i) ->
  len za = len s -> z_table s s za i ->
  let c := bind (while fuel (extend_cond s (len s) i) extend_body R0) (fun R =>
           bind (wr za i (R - i)) (fun Z => Done (ZState i i (R - 1) Z))) in
  (c = OutOfFuel /\ (fuel < length s)%nat) \/
  (exists R za', c = Done (ZState i i (R - 1) za') /\
     i <= R <= len s /\ len za' = len s /\
     z_table s s za' (i + 1) /\ zbox s s i (R - 1)).
Proof.
  intros Hi HR0 Hzm Hlen Htab c. subst c.
  destruct (extend_run fuel s i R0) as [[E Hlt] | (R & E & HR & Hmax)];
    [lia|lia|done| |]; rewrite E; simpl.
  - left. split; [done|]. unfold len in *. lia.
  - right. rewrite wr_Done by lia. simpl.
    exists R, (<[Z.to_nat i := R - i]> za).
    split; [done|]. split; [lia|]. split; [by rewrite len_insert|].
    split; [apply z_table_insert; [lia|done..]|].
    apply zm_zbox. apply Hmax.
Qed.

Lemma computeZArray_step (fuel : nat) (s : list ascii) (st : z_state) :
  computeZArray_inv s st ->
  computeZArray_cond (len s) st = Done false \/
  (computeZArray_cond (len s) st = Done true /\
   ((computeZArray_body fuel s (len s) st = OutOfFuel /\
     ~ (length s <= fuel)%nat) \/
    exists st', computeZArray_body fuel s (len s) st = Done st' /\
                computeZArray_inv s st' /\
                (computeZArray_mu s st' < computeZArray_mu s st)%nat)).
Proof.
  destruct st as [i L R za].
  unfold computeZArray_inv, computeZArray_mu, computeZArray_cond. simpl.
  intros (Hi & Hlen & Htab & HL & HR & HL1 & Hbox & HRlo).
  destruct (Z.ltb_spec i (len s)) as [Hlt|Hge]; [right|by left].
  split; [done|].
  destruct (Z.gtb_spec i R) as [Hout|Hin].
  - (* i > R *)
    destruct (computeZArray_extend fuel s i i za)
      as [[E Hf] | (R' & za' & E & HR' & Hlen' & Htab' & Hbox')];
      [lia|lia|replace (i - i) with 0 by lia; apply zm_zero; lia|done|done| |];
      simpl in E; rewrite E; simpl.
    + left. split; [done|lia].
    + right. eexists; split; [reflexivity|]. simpl.
      split; [|lia]. split; [lia|]. split; [done|]. split; [done|].
      split; [lia|]. split; [lia|]. split; [lia|]. split; [done|lia].
  - (* i <= R *)
    destruct (Htab (i - L)) as (zk & Hzk & Hzmax); [lia|].
    rewrite (rd_Done _ _ _ Hzk). simpl.
    destruct (Z.ltb_spec zk (R - i + 1)) as [Hshort|Hlong].
    + rewrite wr_Done by lia. simpl.
      right. eexists; split; [reflexivity|]. simpl.
      split; [|lia]. split; [lia|]. split; [by rewrite len_insert|].
      split; [|split; [lia|split; [lia|split; [lia|split; [done|lia]]]]].
      apply z_table_insert; [lia|done|].
      apply (zbox_copy s s L R i zk); [done|lia..|done|lia].
    + destruct (computeZArray_extend fuel s i R za)
        as [[E Hf] | (R' & za' & E & HR' & Hlen' & Htab' & Hbox')];
        [lia|lia| |done|done| |]; [|simpl in E; rewrite E; simpl..].
      * apply (zbox_restart s s L R i zk); [done|lia..|done|lia].
      * left. split; [done|lia].
      * right. eexists; split; [reflexivity|]. simpl.
        split; [|lia]. split; [lia|]. split; [done|]. split; [done|].
        split; [lia|]. split; [lia|]. split; [lia|]. split; [done|lia].
Qed.

(** The call on a string whose length is an [int]. *)
Lemma computeZArray_fits (fuel : nat) (s : list ascii) :
  fits_int s ->
  computeZArray fuel s =
    if len s =? 0 then Done []
    else
      do Z <- wr (zeros (len s)) 0 (len s);
      do st <- while fuel (computeZArray_cond (len s))
                 (computeZArray_body fuel s (len s)) (ZState 1 0 0 Z);
      Done (z_arr st).
Proof.
  intros Hs. unfold computeZArray. by rewrite int_of_size_len, new_vector_len.
Qed.

(** What a call of [computeZArray] yields. *)
Lemma computeZArray_run (fuel : nat) (s : list ascii) :
  fits_int s ->
  (computeZArray fuel s = OutOfFuel /\ (fuel < length s)%nat) \/
  (exists za, computeZArray fuel s = Done za /\ len za = len s /\
              z_table s s za (len s)).
Proof.
  intros Hfits. rewrite computeZArray_fits by done.
  pose proof (len_nonneg s) as Hn.
  destruct (Z.eqb_spec (len s) 0) as [H0|Hpos].
  - right. exists []. split; [done|]. split; [unfold len in *; simpl; lia|].
    intros k Hk. lia.
  - rewrite wr_Done by (rewrite len_zeros; lia). simpl.
    assert (Hinit : computeZArray_inv s
              (ZState 1 0 0 (<[Z.to_nat 0 := len s]> (zeros (len s))))).
    { unfold computeZArray_inv; simpl.
      split; [lia|]. split; [rewrite len_insert; apply len_zeros; lia|].
      split; [|split; [lia|split; [lia|split; [lia|]]]].
      - intros k Hk. replace k with 0 by lia. exists (len s).
        split; [apply ix_insert_eq; rewrite len_zeros; lia|].
        split; [repeat split; try lia; intros; f_equal; lia|lia].
      - split; [|lia]. intros x Hx. f_equal. lia. }
    destruct (while_rule _ _ _ _ _ (computeZArray_step fuel s) fuel _ Hinit)
      as [[E Hlt] | (s' & E & HI & Hc)]; rewrite E; simpl.
    + left. split; [done|].
      destruct (le_lt_dec (length s) fuel) as [Hok|]; [|done].
      specialize (Hlt Hok). unfold computeZArray_mu, len in *. simpl in Hlt. lia.
    + right. exists (z_arr s').
      destruct HI as (Hi & Hlen & Htab & _).
      unfold computeZArray_cond in Hc.
      destruct (Z.ltb_spec (z_i s') (len s)); [done|].
      replace (len s) with (z_i s') at 2 by lia. done.
Qed.

(** ** [zAlgorithmSearch] *)

Lemma search_extend_cond_spec (t p : list ascii) (L R : Z) :
  0 <= L <= R -> R <= len t -> R - L <= len p ->
  exists b, search_extend_cond t p (len t) (len p) L R = Done b /\
            (b = true <-> R < len t /\ R - L < len p /\ ix p (R - L) = ix t R).
Proof.
  intros HL HR HRL. unfold search_extend_cond.
  destruct (Z.ltb_spec R (len t)) as [Hlt|Hge].
  - destruct (Z.ltb_spec (R - L) (len p)) as [Hlt'|Hge'].
    + destruct (ix_Some t R) as [a Ha]; [lia|].
      destruct (ix_Some p (R - L)) as [b Hb]; [lia|].
      rewrite (rd_Done _ _ _ Ha), (rd_Done _ _ _ Hb). simpl.
      eexists; split; [reflexivity|]. rewrite ceq_true, Ha, Hb.
      split; [by intros ->|]. intros (_ & _ & [= ->]). done.
    + exists false. split; [done|]. split; [done|lia].
  - exists false. split; [done|]. split; [done|lia].
Qed.

(** The extension loop of [zAlgorithmSearch], started at [R0] with [L]
    fixed. *)
Lemma search_extend_run (fuel : nat) (t p : list ascii) (L R0 : Z) :
  0 <= L <= R0 -> R0 <= len t -> zm p t L (R0 - L) ->
  (while fuel (search_extend_cond t p (len t) (len p) L) extend_body R0 = OutOfFuel /\
   (fuel < Z.to_nat (len t - R0))%nat) \/
  (exists R, while fuel (search_extend_cond t p (len t) (len p) L) extend_body R0
               = Done R /\
             R0 <= R <= len t /\ zmax p t L (R - L)).
Proof.
  intros HL HR Hzm.
  pose (Inv := fun R : Z => R0 <= R <= len t /\ zm p t L (R - L)).
  assert (Hstep : forall R, Inv R ->
     search_extend_cond t p (len t) (len p) L R = Done false \/
     (search_extend_cond t p (len t) (len p) L R = Done true /\
      ((extend_body R = OutOfFuel /\ ~ True) \/
       exists R', extend_body R = Done R' /\ Inv R' /\
                  (Z.to_nat (len t - R') < Z.to_nat (len t - R))%nat))).
  { intros R [HR' Hzm'].
    destruct (search_extend_cond_spec t p L R) as (b & Hb & Hspec);
      [lia|lia|destruct Hzm'; lia|].
    destruct b; [right|by left]. split; [done|]. right.
    destruct Hspec as [Hspec _]. destruct (Hspec eq_refl) as (Hlt & Hlt' & He).
    exists (R + 1). split; [done|]. split; [|lia]. split; [lia|].
    replace (R + 1 - L) with (R - L + 1) by lia.
    apply zm_extend; [done| |lia..]. rewrite He. f_equal. lia. }
  destruct (while_rule Inv _ _ _ _ Hstep fuel R0) as [[E Hlt] | (R & E & [HR' Hzm'] & Hc)].
  - by split.
  - left. split; [done|]. by apply Hlt.
  - right. exists R. split; [done|]. split; [done|]. split; [done|].
    intros H1 H2.
    destruct (search_extend_cond_spec t p L R) as (b & Hb & Hspec);
      [lia|lia|destruct Hzm'; lia|].
    rewrite Hc in Hb. injection Hb as <-. intros He.
    destruct Hspec as [_ Hspec]. discriminate Hspec.
    split; [lia|]. split; [lia|]. rewrite He. f_equal. lia.
Qed.

Lemma zAlgorithmSearch_extend (fuel : nat) (t p : list ascii) (i R0 : Z)
    (za : list Z) :
  0 <= i < len t -> i <= R0 <= len t -> zm p t i (R0 - i) ->
  len za = len t -> z_table p t za i ->
  let c := bind (while fuel (search_extend_cond t p (len t) (len p) i)
                   extend_body R0) (fun R =>
           bind (wr za i (R - i)) (fun Z => Done (ZState i i (R - 1) Z))) in
  (c = OutOfFuel /\ (fuel < length t)%nat) \/
  (exists R za', c = Done (ZState i i (R - 1) za') /\
     i <= R <= len t /\ R - i <= len p /\ len za' = len t /\
     z_table p t za' (i + 1) /\ zbox p t i (R - 1)).
Proof.
  intros Hi HR0 Hzm Hlen Htab c. subst c.
  destruct (search_extend_run fuel t p i R0) as [[E Hlt] | (R & E & HR & Hmax)];
    [lia|lia|done| |]; rewrite E; simpl.
  - left. split; [done|]. unfold len in *. lia.
  - right. rewrite wr_Done by lia. simpl.
    exists R, (<[Z.to_nat i := R - i]> za).
    split; [done|]. split; [lia|]. split; [destruct Hmax as [[? _] _]; lia|].
    split; [by rewrite len_insert|].
    split; [apply z_table_insert; [lia|done..]|].
    apply zm_zbox. apply Hmax.
Qed.

Lemma zAlgorithmSearch_step (fuel : nat) (t p : list ascii) (Z_pattern : list Z)
    (st : z_state) :
  z_table p p Z_pattern (len p) ->
  zAlgorithmSearch_inv p t st ->
  zAlgorithmSearch_cond (len t) st = Done false \/
  (zAlgorithmSearch_cond (len t) st = Done true /\
   ((zAlgorithmSearch_body fuel t p (len t) (len p) Z_pattern st = OutOfFuel /\
     ~ (length t <= fuel)%nat) \/
    exists st', zAlgorithmSearch_body fuel t p (len t) (len p) Z_pattern st
                  = Done st' /\
                zAlgorithmSearch_inv p t st' /\
                (zAlgorithmSearch_mu t st' < zAlgorithmSearch_mu t st)%nat)).
Proof.
  intros Hzp. destruct st as [i L R za].
  unfold zAlgorithmSearch_inv, zAlgorithmSearch_mu, zAlgorithmSearch_cond. simpl.
  intros (Hi & Hlen & Htab & HL & HR & HRL & HL1 & Hbox & HRlo).
  destruct (Z.ltb_spec i (len t)) as [Hlt|Hge]; [right|by left].
  split; [done|].
  rewrite wr_Done by lia. simpl.
  assert (Hlen0 : len (<[Z.to_nat i := 0]> za) = len t) by by rewrite len_insert.
  assert (Htab0 : z_table p t (<[Z.to_nat i := 0]> za) i).
  { intros k Hk. rewrite ix_insert_ne by lia. by apply Htab. }
  destruct (Z.gtb_spec i R) as [Hout|Hin].
  - (* i > R *)
    destruct (zAlgorithmSearch_extend fuel t p i i (<[Z.to_nat i := 0]> za))
      as [[E Hf] | (R' & za' & E & HR' & HRL' & Hlen' & Htab' & Hbox')];
      [lia|lia|replace (i - i) with 0 by lia; apply zm_zero; lia|done|done| |];
      simpl in E; rewrite E; simpl.
    + left. split; [done|lia].
    + right. eexists; split; [reflexivity|]. simpl.
      split; [|lia]. split; [lia|]. split; [done|]. split; [done|].
      split; [lia|]. split; [lia|]. split; [lia|]. split; [lia|]. split; [done|lia].
  - (* i <= R *)
    destruct (Hzp (i - L)) as (zk & Hzk & Hzmax); [lia|].
    rewrite (rd_Done _ _ _ Hzk). simpl.
    destruct (Z.ltb_spec zk (R - i + 1)) as [Hshort|Hlong].
    + rewrite wr_Done by lia. simpl.
      right. eexists; split; [reflexivity|]. simpl.
      split; [|lia]. split; [lia|]. split; [by rewrite len_insert|].
      split; [|split; [lia|split; [lia|split; [lia|split; [lia|split; [done|lia]]]]]].
      apply z_table_insert; [lia|done|].
      apply (zbox_copy p t L R i zk); [done|lia..|done|lia].
    + destruct (zAlgorithmSearch_extend fuel t p i R (<[Z.to_nat i := 0]> za))
        as [[E Hf] | (R' & za' & E & HR' & HRL' & Hlen' & Htab' & Hbox')];
        [lia|lia| |done|done| |]; [|simpl in E; rewrite E; simpl..].
      * apply (zbox_restart p t L R i zk); [done|lia..|done|lia].
      * left. split; [done|lia].
      * right. eexists; split; [reflexivity|]. simpl.
        split; [|lia]. split; [lia|]. split; [done|]. split; [done|].
        split; [lia|]. split; [lia|]. split; [lia|]. split; [lia|]. split; [done|lia].
Qed.

(** The call on a text and a pattern whose lengths are [int]s. *)
Lemma zAlgorithmSearch_fits (fuel : nat) (t p : list ascii) :
  fits_int t -> fits_int p ->
  zAlgorithmSearch fuel t p =
    if len p =? 0 then Done (zeros (len t))
    else
      do Z_pattern <- computeZArray fuel p;
      do st <- while fuel (zAlgorithmSearch_cond (len t))
                 (zAlgorithmSearch_body fuel t p (len t) (len p) Z_pattern)
                 (ZState 0 0 (-1) (zeros (len t)));
      Done (z_arr st).
Proof.
  intros Ht Hp. unfold zAlgorithmSearch.
  by rewrite !int_of_size_len, new_vector_len.
Qed.

(** What a call of [zAlgorithmSearch] with a non-empty pattern yields. *)
Lemma zAlgorithmSearch_run (fuel : nat) (t p : list ascii) :
  fits_int t -> fits_int p -> p <> [] ->
  (zAlgorithmSearch fuel t p = OutOfFuel /\
   (fuel < length p \/ fuel < length t)%nat) \/
  (exists za, zAlgorithmSearch fuel t p = Done za /\ len za = len t /\
              z_table p t za (len t)).
Proof.
  intros Hft Hfp Hp. rewrite zAlgorithmSearch_fits by done.
  assert (0 < len p) by (destruct p; [done|unfold len; simpl; lia]).
  pose proof (len_nonneg t) as Hm.
  destruct (Z.eqb_spec (len p) 0) as [|_]; [lia|].
  destruct (computeZArray_run fuel p Hfp) as [[E Hlt] | (zp & E & Hlenp & Hzp)];
    rewrite E; simpl.
  { left. split; [done|lia]. }
  assert (Hinit : zAlgorithmSearch_inv p t (ZState 0 0 (-1) (zeros (len t)))).
  { unfold zAlgorithmSearch_inv; simpl.
    split; [lia|]. split; [apply len_zeros; lia|].
    split; [|split; [lia|split; [lia|split; [lia|split; [lia|]]]]].
    - intros k Hk. lia.
    - split; [|lia]. intros x Hx. lia. }
  destruct (while_rule _ _ _ _ _ (fun s => zAlgorithmSearch_step fuel t p zp s Hzp)
              fuel _ Hinit)
    as [[E' Hlt] | (s' & E' & HI & Hc)]; rewrite E'; simpl.
  - left. split; [done|].
    destruct (le_lt_dec (length t) fuel) as [Hok|]; [|lia].
    specialize (Hlt Hok). unfold zAlgorithmSearch_mu, len in *. simpl in Hlt. lia.
  - right. exists (z_arr s').
    destruct HI as (Hi & Hlen & Htab & _).
    unfold zAlgorithmSearch_cond in Hc.
    destruct (Z.ltb_spec (z_i s') (len t)); [done|].
    replace (len t) with (z_i s') at 2 by lia. done.
Qed.

(** ** More fuel changes no result *)

Lemma bind_Done {A B : Type} (c : outcome A) (k : A -> outcome B) (r : B) :
  bind c k = Done r -> exists a, c = Done a /\ k a = Done r.
Proof. destruct c; simpl; [eauto|discriminate..]. Qed.

Lemma bind_mono {A B : Type} (c1 c2 : outcome A) (k1 k2 : A -> outcome B) (r : B) :
  (forall a, c1 = Done a -> c2 = Done a) ->
  (forall a r, k1 a = Done r -> k2 a = Done r) ->
  bind c1 k1 = Done r -> bind c2 k2 = Done r.
Proof.
  intros Hc Hk H. apply bind_Done in H as (a & Ha & Hr).
  rewrite (Hc a Ha). simpl. by apply Hk.
Qed.

Lemma while_mono {S : Type} (cond : S -> outcome bool) (body1 body2 : S -> outcome S) :
  (forall s r, body1 s = Done r -> body2 s = Done r) ->
  forall (f1 f2 : nat) (s r : S), (f1 <= f2)%nat ->
    while f1 cond body1 s = Done r -> while f2 cond body2 s = Done r.
Proof.
  intros Hb f1. induction f1 as [|f1 IH]; intros f2 s r Hle;
    destruct f2 as [|f2]; try lia; simpl;
    destruct (cond s) as [[|]| | |]; simpl; try done.
  intros H. apply bind_Done in H as (s' & Hs' & Hr).
  rewrite (Hb _ _ Hs'). simpl. apply IH; [lia|done].
Qed.

Lemma computeLPS_mono (f1 f2 : nat) (p : list ascii) (r : list Z) :
  (f1 <= f2)%nat -> computeLPS f1 p = Done r -> computeLPS f2 p = Done r.
Proof.
  intros Hle. unfold computeLPS. apply bind_mono; [done|].
  intros lps r'. apply bind_mono; [|done].
  intros a. by apply while_mono.
Qed.

Lemma KMPSearch_mono (f1 f2 : nat) (t p : list ascii) (r : list Z) :
  (f1 <= f2)%nat -> KMPSearch f1 t p = Done r -> KMPSearch f2 t p = Done r.
Proof.
  intros Hle. unfold KMPSearch. destruct (int_of_size (len p) =? 0); [done|].
  apply bind_mono; [intros a; by apply computeLPS_mono|].
  intros lpsp r'. apply bind_mono; [done|].
  intros lps r''. apply bind_mono; [|done].
  intros a. by apply while_mono.
Qed.

Lemma computeZArray_body_mono (f1 f2 : nat) (s : list ascii) (n : Z)
    (st r : z_state) :
  (f1 <= f2)%nat ->
  computeZArray_body f1 s n st = Done r -> computeZArray_body f2 s n st = Done r.
Proof.
  intros Hle. destruct st as [i L R za]. unfold computeZArray_body.
  apply bind_mono; [|done]. intros a.
  destruct (i >? R).
  - apply bind_mono; [|done]. intros R'. by apply while_mono.
  - apply bind_mono; [done|]. intros zk r'. destruct (zk <? R - i + 1); [done|].
    apply bind_mono; [|done]. intros R'. by apply while_mono.
Qed.

Lemma computeZArray_mono (f1 f2 : nat) (s : list ascii) (r : list Z) :
  (f1 <= f2)%nat -> computeZArray f1 s = Done r -> computeZArray f2 s = Done r.
Proof.
  intros Hle. unfold computeZArray. destruct (int_of_size (len s) =? 0); [done|].
  apply bind_mono; [done|]. intros za0 r0.
  apply bind_mono; [done|]. intros za r'. apply bind_mono; [|done].
  intros a. apply while_mono; [|done].
  intros st st'. by apply computeZArray_body_mono.
Qed.

Lemma zAlgorithmSearch_body_mono (f1 f2 : nat) (t p : list ascii) (m n : Z)
    (zp : list Z) (st r : z_state) :
  (f1 <= f2)%nat ->
  zAlgorithmSearch_body f1 t p m n zp st = Done r ->
  zAlgorithmSearch_body f2 t p m n zp st = Done r.
Proof.
  intros Hle. destruct st as [i L R za]. unfold zAlgorithmSearch_body.
  apply bind_mono; [done|]. intros za0 r0.
  apply bind_mono; [|done]. intros a.
  destruct (i >? R).
  - apply bind_mono; [|done]. intros R'. by apply while_mono.
  - apply bind_mono; [done|]. intros zk r'. destruct (zk <? R - i + 1); [done|].
    apply bind_mono; [|done]. intros R'. by apply while_mono.
Qed.

Lemma zAlgorithmSearch_mono (f1 f2 : nat) (t p : list ascii) (r : list Z) :
  (f1 <= f2)%nat ->
  zAlgorithmSearch f1 t p = Done r -> zAlgorithmSearch f2 t p = Done r.
Proof.
  intros Hle. unfold zAlgorithmSearch.
  apply bind_mono; [done|]. intros za0 r0.
  destruct (int_of_size (len p) =? 0); [done|].
  apply bind_mono; [intros a; by apply computeZArray_mono|].
  intros zp r'. apply bind_mono; [|done].
  intros a. apply while_mono; [|done].
  intros st st'. by apply zAlgorithmSearch_body_mono.
Qed.

(** A run that, whatever the fuel, either returns a result satisfying
    [P] or stops for lack of fuel below [N], returns one and the same
    such result for every fuel from [N] on. *)
Lemma run_stable {A : Type} (f : nat -> outcome A) (N : nat) (P : A -> Prop) :
  (forall f1 f2 r, (f1 <= f2)%nat -> f f1 = Done r -> f f2 = Done r) ->
  (forall fuel, (f fuel = OutOfFuel /\ (fuel < N)%nat) \/
                (exists r, f fuel = Done r /\ P r)) ->
  exists r, (forall fuel, (N <= fuel)%nat -> f fuel = Done r) /\ P r.
Proof.
  intros Hmono Hrun. destruct (Hrun N) as [[_ ?]|(r & Hr & HP)]; [lia|].
  exists r. split; [|done]. intros fuel Hle. by apply (Hmono N).
Qed.

(** ** The two specifications agree *)

Lemma zm_prefix_match (p t : list ascii) (i z : nat) :
  zm p t (Z.of_nat i) (Z.of_nat z) <-> prefix_match p t i z.
Proof.
  unfold zm, prefix_match, len. split.
  - intros (Hz & _ & Hiz & Hx). split; [lia|]. split; [lia|].
    apply list_eq. intros j.
    destruct (decide (j < z)%nat) as [Hj|Hj].
    + rewrite !lookup_take_lt by done. rewrite lookup_drop.
      rewrite <- !ix_of_nat, Nat2Z.inj_add. apply Hx. lia.
    + by rewrite !lookup_take_ge by lia.
  - intros (Hz & Hiz & He). split; [lia|]. split; [lia|]. split; [lia|].
    intros x Hx. replace x with (Z.of_nat (Z.to_nat x)) by lia.
    rewrite <- Nat2Z.inj_add, !ix_of_nat.
    rewrite <- (lookup_take_lt p z) by lia. rewrite He.
    rewrite lookup_take_lt by lia. apply lookup_drop.
Qed.

Lemma occ_zm (p t : list ascii) (k i : Z) : occ p t k i <-> zm p t (i - k) k.
Proof.
  unfold occ, zm. split.
  - intros (? & ? & ?). repeat split; try lia; done.
  - intros (? & ? & ? & ?). repeat split; try lia; done.
Qed.

Lemma occ_prefix_is_suffix (p t : list ascii) (k i : nat) :
  occ p t (Z.of_nat k) (Z.of_nat i) <->
  (i <= length t)%nat /\ prefix_is_suffix p (take i t) k.
Proof.
  rewrite occ_zm. unfold prefix_is_suffix. split.
  - intros H. assert (Hki : (k <= i)%nat) by (destruct H as (_ & ? & _); lia).
    replace (Z.of_nat i - Z.of_nat k) with (Z.of_nat (i - k)) in H by lia.
    apply zm_prefix_match in H as (Hk & Hi & He).
    split; [lia|]. split; [done|]. exists (take (i - k) t).
    rewrite He, take_take_drop. f_equal. lia.
  - intros (Hi & Hk & l & He).
    assert (Hlen : length (take i t) = (length l + k)%nat).
    { rewrite He, length_app, length_take_le; lia. }
    rewrite length_take_le in Hlen by done.
    replace (Z.of_nat i - Z.of_nat k) with (Z.of_nat (i - k)) by lia.
    apply zm_prefix_match. split; [done|]. split; [lia|].
    replace i with (i - k + k)%nat in He by lia.
    rewrite <- take_take_drop in He.
    apply app_inj_2 in He as [_ He]; [done|].
    rewrite !length_take_le; [done|lia|]. rewrite length_drop. lia.
Qed.

Lemma is_kmp_longest (p t : list ascii) (i : nat) (v : Z) :
  (i < length t)%nat -> is_kmp p t (Z.of_nat i) v ->
  exists k, v = Z.of_nat k /\ is_longest (prefix_is_suffix p (take (S i) t)) k.
Proof.
  intros Hi [Hocc Hbest]. exists (Z.to_nat v).
  assert (0 <= v) by (destruct Hocc; lia). split; [lia|].
  replace (Z.of_nat i + 1) with (Z.of_nat (S i)) in * by lia.
  split.
  - replace v with (Z.of_nat (Z.to_nat v)) in Hocc by lia.
    by apply occ_prefix_is_suffix in Hocc as [_ ?].
  - intros k' Hk'. enough (Z.of_nat k' <= v) by lia.
    apply Hbest. apply occ_prefix_is_suffix. split; [lia|done].
Qed.

Lemma is_lps_longest (p : list ascii) (i : nat) (v : Z) :
  (i < length p)%nat -> is_lps p (Z.of_nat i) v ->
  exists k, v = Z.of_nat k /\ is_longest (proper_border (take (S i) p)) k.
Proof.
  intros Hi (Hle & Hocc & Hbest). exists (Z.to_nat v).
  assert (0 <= v) by (destruct Hocc; lia). split; [lia|].
  replace (Z.of_nat i + 1) with (Z.of_nat (S i)) in * by lia.
  assert (Hconv : forall k, (k <= i)%nat ->
            occ p p (Z.of_nat k) (Z.of_nat (S i)) <-> proper_border (take (S i) p) k).
  { intros k Hk. rewrite occ_prefix_is_suffix.
    unfold proper_border, prefix_is_suffix.
    rewrite length_take_le by lia. rewrite take_take.
    replace (k `min` S i)%nat with k by lia.
    split; [intros (_ & _ & ?); split; [lia|done]
           |intros [_ ?]; split; [lia|split; [lia|done]]]. }
  split.
  - apply Hconv; [lia|]. by replace (Z.of_nat (Z.to_nat v)) with v by lia.
  - intros k' Hk'.
    assert (k' <= i)%nat.
    { destruct Hk' as [Hk' _]. rewrite length_take_le in Hk' by lia. lia. }
    enough (Z.of_nat k' <= v) by lia.
    apply Hbest; [lia|]. by apply Hconv.
Qed.

Lemma zmax_longest_match (p t : list ascii) (i : nat) (v : Z) :
  zmax p t (Z.of_nat i) v ->
  exists L, v = Z.of_nat L /\ is_longest (prefix_match p t i) L.
Proof.
  intros Hmax. exists (Z.to_nat v).
  assert (0 <= v) by (destruct Hmax as [(? & _) _]; lia). split; [lia|].
  split.
  - apply zm_prefix_match. replace (Z.of_nat (Z.to_nat v)) with v by lia.
    apply Hmax.
  - intros L' HL'. enough (Z.of_nat L' <= v) by lia.
    apply (zmax_longest p t (Z.of_nat i)); [done|]. by apply zm_prefix_match.
Qed.

Lemma length_len {A B : Type} (v : list A) (w : list B) :
  len v = len w -> length v = length w.
Proof. unfold len. lia. Qed.

(** ** Empty patterns *)

Lemma len_nil_inv {A : Type} (v : list A) : len v = 0 -> v = [].
Proof. destruct v; [done|]. unfold len. simpl. lia. Qed.

Lemma KMPSearch_empty (fuel : nat) (text : list ascii) :
  KMPSearch fuel text [] = Done [].
Proof. reflexivity. Qed.

Lemma zAlgorithmSearch_empty (fuel : nat) (text : list ascii) :
  fits_int text ->
  zAlgorithmSearch fuel text [] = Done (replicate (length text) 0).
Proof.
  intros Ht. rewrite zAlgorithmSearch_fits by (done || apply fits_int_nil).
  unfold zeros, len. simpl. by rewrite Nat2Z.id.
Qed.

(** ** Results that do not depend on the fuel *)

Lemma computeLPS_stable (p : list ascii) :
  fits_int p ->
  exists lps,
    (forall fuel, (2 * length p <= fuel)%nat -> computeLPS fuel p = Done lps) /\
    len lps = len p /\ lps_table p lps (len p).
Proof.
  intros Hfp.
  apply (run_stable (fun fuel => computeLPS fuel p) (2 * length p)
           (fun lps => len lps = len p /\ lps_table p lps (len p))).
  - intros f1 f2 r Hle Hr. by apply (computeLPS_mono f1 f2).
  - intros fuel. by apply computeLPS_run.
Qed.

Lemma KMPSearch_stable (t p : list ascii) :
  fits_int t -> fits_int p -> (0 < length p)%nat ->
  exists res,
    (forall fuel, (2 * (length t + length p) <= fuel)%nat ->
       KMPSearch fuel t p = Done res) /\
    len res = len t /\ kmp_table p t res (len t).
Proof.
  intros Hft Hfp Hp.
  apply (run_stable (fun fuel => KMPSearch fuel t p) (2 * (length t + length p))
           (fun res => len res = len t /\ kmp_table p t res (len t))).
  - intros f1 f2 r Hle Hr. by apply (KMPSearch_mono f1 f2).
  - intros fuel. destruct (KMPSearch_run fuel t p Hft Hfp) as [[E Hlt]|H].
    + intros ->. simpl in Hp. lia.
    + left. split; [done|lia].
    + by right.
Qed.

Lemma computeZArray_stable (s : list ascii) :
  fits_int s ->
  exists za,
    (forall fuel, (length s <= fuel)%nat -> computeZArray fuel s = Done za) /\
    len za = len s /\ z_table s s za (len s).
Proof.
  intros Hfs.
  apply (run_stable (fun fuel => computeZArray fuel s) (length s)
           (fun za => len za = len s /\ z_table s s za (len s))).
  - intros f1 f2 r Hle Hr. by apply (computeZArray_mono f1 f2).
  - intros fuel. by apply computeZArray_run.
Qed.

Lemma zAlgorithmSearch_stable (t p : list ascii) :
  fits_int t -> fits_int p -> (0 < length p)%nat ->
  exists res,
    (forall fuel, (length t + length p <= fuel)%nat ->
       zAlgorithmSearch fuel t p = Done res) /\
    len res = len t /\ z_table p t res (len t).
Proof.
  intros Hft Hfp Hp.
  apply (run_stable (fun fuel => zAlgorithmSearch fuel t p) (length t + length p)
           (fun res => len res = len t /\ z_table p t res (len t))).
  - intros f1 f2 r Hle Hr. by apply (zAlgorithmSearch_mono f1 f2).
  - intros fuel. destruct (zAlgorithmSearch_run fuel t p Hft Hfp) as [[E Hlt]|H].
    + intros ->. simpl in Hp. lia.
    + left. split; [done|lia].
    + by right.
Qed.

(** Reading the tables at a [nat] index. *)
Lemma lps_table_lookup (p : list ascii) (lps : list Z) (i : nat) :
  lps_table p lps (len p) -> (i < length p)%nat ->
  exists k, lps !! i = Some (Z.of_nat k) /\
            is_longest (proper_border (take (S i) p)) k.
Proof.
  intros Htab Hi. destruct (Htab (Z.of_nat i)) as (v & Hv & Hlps);
    [unfold len; lia|].
  destruct (is_lps_longest p i v Hi Hlps) as (k & -> & Hk).
  exists k. by rewrite <- ix_of_nat.
Qed.

Lemma kmp_table_lookup (p t : list ascii) (res : list Z) (i : nat) :
  kmp_table p t res (len t) -> (i < length t)%nat ->
  exists k, res !! i = Some (Z.of_nat k) /\
            is_longest (prefix_is_suffix p (take (S i) t)) k.
Proof.
  intros Htab Hi. destruct (Htab (Z.of_nat i)) as (v & Hv & Hkmp);
    [unfold len; lia|].
  destruct (is_kmp_longest p t i v Hi Hkmp) as (k & -> & Hk).
  exists k. by rewrite <- ix_of_nat.
Qed.

Lemma z_table_lookup (p t : list ascii) (res : list Z) (i : nat) :
  z_table p t res (len t) -> (i < length t)%nat ->
  exists L, res !! i = Some (Z.of_nat L) /\
            is_longest (prefix_match p t i) L.
Proof.
  intros Htab Hi. destruct (Htab (Z.of_nat i)) as (v & Hv & Hmax);
    [unfold len; lia|].
  destruct (zmax_longest_match p t i v Hmax) as (L & -> & HL).
  exists L. by rewrite <- ix_of_nat.
Qed.

(** ** Occurrences and their two ends *)

Lemma occurs_at_prefix_match (p t : list ascii) (j : nat) :
  occurs_at p t j <-> prefix_match p t j (length p).
Proof.
  unfold occurs_at, prefix_match. rewrite (take_ge p (length p)) by done.
  split; [intros [? ?]; split; [lia|done]|intros (? & ? & ?); done].
Qed.

Lemma kmp_table_full (p t : list ascii) (res : list Z) (i : nat) :
  kmp_table p t res (len t) -> (i < length t)%nat ->
  res !! i = Some (len p) <-> p `suffix_of` take (S i) t.
Proof.
  intros Htab Hi.
  destruct (kmp_table_lookup p t res i Htab Hi) as (k & Hk & [Hin Hbest]).
  rewrite Hk. unfold len. split.
  - intros [= He]. destruct Hin as [_ Hsuf].
    replace k with (length p) in Hsuf by lia. by rewrite take_ge in Hsuf by done.
  - intros Hsuf. f_equal.
    assert (length p <= k)%nat.
    { apply Hbest. split; [done|]. by rewrite take_ge by done. }
    destruct Hin. lia.
Qed.

Lemma z_table_full (p t : list ascii) (res : list Z) (j : nat) :
  z_table p t res (len t) -> (j < length t)%nat ->
  res !! j = Some (len p) <-> occurs_at p t j.
Proof.
  intros Htab Hj.
  destruct (z_table_lookup p t res j Htab Hj) as (L & HL & [Hin Hbest]).
  rewrite HL, occurs_at_prefix_match. unfold len. split.
  - intros [= He]. by replace (length p) with L by lia.
  - intros Hocc. f_equal. specialize (Hbest _ Hocc). destruct Hin. lia.
Qed.

(** An occurrence ending at [i] is one starting at [i + 1 - m]. *)
Lemma suffix_occurs_at (p t : list ascii) (i : nat) :
  (i < length t)%nat ->
  p `suffix_of` take (S i) t <->
  (length p <= S i)%nat /\ occurs_at p t (S i - length p).
Proof.
  intros Hi.
  assert (Hocc : p `suffix_of` take (S i) t <->
                 occ p t (Z.of_nat (length p)) (Z.of_nat (S i))).
  { rewrite occ_prefix_is_suffix. unfold prefix_is_suffix.
    rewrite (take_ge p) by done. split; [intros ?; split; [lia|split; [lia|done]]|].
    by intros (_ & _ & ?). }
  rewrite Hocc, occ_zm, occurs_at_prefix_match. split.
  - intros H. assert (length p <= S i)%nat by (destruct H as (_ & ? & _); lia).
    split; [done|]. apply zm_prefix_match.
    by replace (Z.of_nat (S i - length p))
      with (Z.of_nat (S i) - Z.of_nat (length p)) by lia.
  - intros [Hle H]. apply zm_prefix_match in H.
    by replace (Z.of_nat (S i - length p))
      with (Z.of_nat (S i) - Z.of_nat (length p)) in H by lia.
Qed.

(** ** Inputs of any length

    A function that keeps the length of an input in an [int] looks at the
    symbols below that [int] only; when the [int] is negative, the
    function comes to a [vector] constructor that throws. *)

(** Inverting a finished run of a loop body, down to its [Done]. *)
Ltac invert_run :=
  repeat match goal with
  | H : bind _ _ = Done _ |- _ => apply bind_Done in H as (? & ? & H)
  | H : (if ?b then _ else _) = Done _ |- _ => destruct b
  | H : Done _ = Done _ |- _ => injection H as ?; subst
  | H : (let '(ZState _ _ _ _) := ?st in _) = Done _ |- _ => destruct st
  end.

(** One iteration of the [for] loops advances [i] by one. *)
Lemma computeZArray_body_i (fuel : nat) (s : list ascii) (n : Z) (st st' : z_state) :
  computeZArray_body fuel s n st = Done st' -> z_i st' = z_i st + 1.
Proof.
  destruct st as [i L R za]. unfold computeZArray_body. intros H.
  invert_run; done.
Qed.

Lemma zAlgorithmSearch_body_i (fuel : nat) (t p : list ascii) (m n : Z)
    (zp : list Z) (st st' : z_state) :
  zAlgorithmSearch_body fuel t p m n zp st = Done st' -> z_i st' = z_i st + 1.
Proof.
  destruct st as [i L R za]. unfold zAlgorithmSearch_body. intros H.
  invert_run; done.
Qed.

Lemma len_seen {A : Type} (v : list A) :
  0 <= int_of_size (len v) -> len (seen v) = int_of_size (len v).
Proof.
  intros H. pose proof (int_of_size_le (len v) (len_nonneg v)).
  unfold seen, len in *. rewrite length_take. lia.
Qed.

Lemma length_seen {A : Type} (v : list A) : (length (seen v) <= length v)%nat.
Proof. unfold seen. rewrite length_take. lia. Qed.

Lemma fits_int_seen {A : Type} (v : list A) : fits_int (seen v).
Proof.
  pose proof (int_of_size_range (len v)).
  unfold fits_int, seen, len in *. rewrite length_take. lia.
Qed.

Lemma seen_fits {A : Type} (v : list A) : fits_int v -> seen v = v.
Proof.
  intros H. unfold seen. rewrite int_of_size_len by done.
  apply take_ge. unfold len. lia.
Qed.

Lemma int_of_size_seen {A : Type} (v : list A) :
  0 <= int_of_size (len v) -> int_of_size (len (seen v)) = int_of_size (len v).
Proof.
  intros H. rewrite (int_of_size_len (seen v)) by apply fits_int_seen.
  by apply len_seen.
Qed.

Lemma rd_seen {A : Type} (v : list A) (i : Z) :
  i < int_of_size (len v) -> rd (seen v) i = rd v i.
Proof.
  intros H. unfold rd, ix, seen. destruct (Z.leb_spec 0 i); [|done].
  rewrite lookup_take_lt by lia. done.
Qed.

Lemma len_long_string (n : Z) : 0 <= n -> len (long_string n) = n.
Proof.
  intros H. unfold len, long_string. rewrite length_replicate. lia.
Qed.

Lemma int_of_size_nonneg {A : Type} (v : list A) :
  fits_int v -> 0 <= int_of_size (len v).
Proof.
  intros H. rewrite int_of_size_len by done. apply len_nonneg.
Qed.

Lemma computeLPS_body_seen (p : list ascii) (s : lps_state) :
  lps_j s < int_of_size (len p) -> lps_i s < int_of_size (len p) ->
  computeLPS_body (seen p) s = computeLPS_body p s.
Proof.
  destruct s as [i j lps]. simpl. intros Hj Hi. unfold computeLPS_body.
  by rewrite !rd_seen by done.
Qed.

(** One iteration of the loop of [computeLPS] on a pattern of any
    length, as long as its length as an [int] is not negative. *)
Lemma computeLPS_step_seen (p : list ascii) (s : lps_state) :
  0 <= int_of_size (len p) ->
  computeLPS_inv (seen p) s ->
  computeLPS_cond (int_of_size (len p)) s = Done false \/
  (computeLPS_cond (int_of_size (len p)) s = Done true /\
   exists s', computeLPS_body p s = Done s' /\ computeLPS_inv (seen p) s' /\
              (computeLPS_mu (seen p) s' < computeLPS_mu (seen p) s)%nat).
Proof.
  intros Hm Hs. rewrite <- (len_seen p Hm).
  destruct (computeLPS_step (seen p) s Hs) as [Hc|[Hc Hb]]; [by left|right].
  split; [done|]. rewrite <- computeLPS_body_seen; [done|..];
    destruct Hs as (_ & ? & _); unfold computeLPS_cond in Hc;
    rewrite <- (len_seen p Hm);
    destruct (Z.ltb_spec (lps_i s) (len (seen p))); (lia || discriminate).
Qed.

(** [computeLPS] on a pattern of any length is [computeLPS] on the part
    of the pattern below its length as an [int]. *)
Lemma computeLPS_seen (fuel : nat) (p : list ascii) :
  0 <= int_of_size (len p) -> computeLPS fuel p = computeLPS fuel (seen p).
Proof.
  intros Hm. unfold computeLPS. rewrite int_of_size_seen by done.
  rewrite new_vector_Done by done. simpl. f_equal.
  destruct (Z_le_gt_dec (int_of_size (len p)) 1) as [Hle|Hgt].
  - rewrite !while_false; [done|unfold computeLPS_cond; simpl..];
      by destruct (Z.ltb_spec 1 (int_of_size (len p))); [lia|].
  - symmetry. apply (while_agree (computeLPS_inv (seen p))).
    + done.
    + intros s Hs Hc. apply computeLPS_body_seen;
        destruct Hs as (_ & ? & _); unfold computeLPS_cond in Hc;
        destruct (Z.ltb_spec (lps_i s) (int_of_size (len p)));
        (lia || discriminate).
    + intros s s' Hs Hc Hb.
      destruct (computeLPS_step (seen p) s Hs) as [Hc'|[_ (s'' & Hb' & Hs'' & _)]].
      * rewrite (len_seen p Hm) in Hc'. congruence.
      * congruence.
    + rewrite <- (len_seen p Hm). apply computeLPS_init.
      rewrite len_seen by done. lia.
Qed.

Lemma computeLPS_LengthError (fuel : nat) (p : list ascii) :
  int_of_size (len p) < 0 -> computeLPS fuel p = LengthError.
Proof.
  intros Hm. unfold computeLPS. by rewrite new_vector_LengthError.
Qed.

(** [computeLPS] returns only when the length of the pattern as an [int]
    is not negative. *)
Lemma computeLPS_Done (fuel : nat) (p : list ascii) (lps : list Z) :
  computeLPS fuel p = Done lps -> 0 <= int_of_size (len p).
Proof.
  intros H. destruct (Z_lt_ge_dec (int_of_size (len p)) 0) as [Hneg|]; [|lia].
  by rewrite computeLPS_LengthError in H.
Qed.

Lemma KMPSearch_body_seen (t p : list ascii) (lps_pattern : list Z)
    (s : kmp_state) :
  0 <= kmp_j s < int_of_size (len p) -> kmp_i s < int_of_size (len t) ->
  KMPSearch_body (seen t) (seen p) (int_of_size (len t)) (int_of_size (len p))
    lps_pattern s
  = KMPSearch_body t p (int_of_size (len t)) (int_of_size (len p)) lps_pattern s.
Proof.
  destruct s as [i j lps]. simpl. intros Hj Hi. unfold KMPSearch_body.
  rewrite (rd_seen p j), (rd_seen t i) by lia.
  apply bind_ext. intros pj. apply bind_ext. intros ti.
  destruct (ceq pj ti); simpl; [destruct (wr lps i (j + 1)); simpl; [|done..]|];
    (match goal with |- context [?x =? int_of_size (len p)] =>
       destruct (Z.eqb_spec x (int_of_size (len p))); [done|] end);
    (match goal with |- context [?x <? int_of_size (len t)] =>
       destruct (Z.ltb_spec x (int_of_size (len t))); [|done] end);
    by rewrite !rd_seen by lia.
Qed.

(** One iteration of the loop of [KMPSearch] on inputs of any length. *)
Lemma KMPSearch_step_seen (t p : list ascii) (lps_pattern : list Z)
    (s : kmp_state) :
  0 <= int_of_size (len t) -> 0 <= int_of_size (len p) ->
  lps_table (seen p) lps_pattern (len (seen p)) ->
  KMPSearch_inv (seen p) (seen t) s ->
  KMPSearch_cond (int_of_size (len t)) s = Done false \/
  (KMPSearch_cond (int_of_size (len t)) s = Done true /\
   exists s', KMPSearch_body t p (int_of_size (len t)) (int_of_size (len p))
                lps_pattern s = Done s' /\
              KMPSearch_inv (seen p) (seen t) s' /\
              (KMPSearch_mu (seen t) s' < KMPSearch_mu (seen t) s)%nat).
Proof.
  intros Hn Hm Htab Hs.
  destruct (KMPSearch_step (seen p) (seen t) lps_pattern s Htab Hs)
    as [Hc|[Hc Hb]]; rewrite !len_seen in * by done; [by left|right].
  split; [done|]. rewrite <- KMPSearch_body_seen; [done|..].
  - destruct Hs as (_ & ? & _). by rewrite len_seen in * by done.
  - unfold KMPSearch_cond in Hc.
    destruct (Z.ltb_spec (kmp_i s) (int_of_size (len t))); [lia|discriminate].
Qed.

(** [KMPSearch] on inputs of any length is [KMPSearch] on the parts of
    the text and the pattern below their lengths as [int]s. *)
Lemma KMPSearch_seen (fuel : nat) (t p : list ascii) :
  0 <= int_of_size (len t) -> 0 <= int_of_size (len p) ->
  KMPSearch fuel t p = KMPSearch fuel (seen t) (seen p).
Proof.
  intros Hn Hm. unfold KMPSearch. rewrite !int_of_size_seen by done.
  destruct (Z.eqb_spec (int_of_size (len p)) 0) as [|Hne]; [done|].
  rewrite <- computeLPS_seen by done.
  rewrite (computeLPS_seen fuel p Hm).
  destruct (computeLPS_run fuel (seen p) (fits_int_seen p))
    as [[E _]|(lpsp & E & _ & Htab)]; rewrite E; simpl; [done|].
  rewrite new_vector_Done by done. simpl. f_equal.
  symmetry. apply (while_agree (KMPSearch_inv (seen p) (seen t))).
  - done.
  - intros s Hs Hc. apply KMPSearch_body_seen.
    + destruct Hs as (_ & ? & _). by rewrite len_seen in * by done.
    + unfold KMPSearch_cond in Hc.
      destruct (Z.ltb_spec (kmp_i s) (int_of_size (len t))); [lia|discriminate].
  - intros s s' Hs Hc Hb.
    destruct (KMPSearch_step (seen p) (seen t) lpsp s Htab Hs)
      as [Hc'|[_ (s'' & Hb' & Hs'' & _)]]; rewrite !len_seen in * by done;
      congruence.
  - rewrite <- (len_seen t Hn). apply KMPSearch_init.
    rewrite len_seen by done. lia.
Qed.

Lemma extend_cond_seen (s : list ascii) (L : Z) :
  0 <= L -> forall R,
  extend_cond (seen s) (int_of_size (len s)) L R
  = extend_cond s (int_of_size (len s)) L R.
Proof.
  intros HL R. unfold extend_cond.
  destruct (Z.ltb_spec R (int_of_size (len s))); [|done].
  by rewrite !rd_seen by lia.
Qed.

Lemma search_extend_cond_seen (t p : list ascii) (L : Z) :
  forall R,
  search_extend_cond (seen t) (seen p) (int_of_size (len t))
    (int_of_size (len p)) L R
  = search_extend_cond t p (int_of_size (len t)) (int_of_size (len p)) L R.
Proof.
  intros R. unfold search_extend_cond.
  destruct (Z.ltb_spec R (int_of_size (len t))); [|done].
  destruct (Z.ltb_spec (R - L) (int_of_size (len p))); [|done].
  by rewrite !rd_seen by lia.
Qed.

Lemma computeZArray_body_seen (fuel : nat) (s : list ascii) (st : z_state) :
  0 <= z_i st ->
  computeZArray_body fuel (seen s) (int_of_size (len s)) st
  = computeZArray_body fuel s (int_of_size (len s)) st.
Proof.
  destruct st as [i L R za]. simpl. intros Hi. unfold computeZArray_body.
  by rewrite !(while_ext _ _ _ _ (extend_cond_seen s i Hi) (fun R => eq_refl)).
Qed.

Lemma zAlgorithmSearch_body_seen (fuel : nat) (t p : list ascii)
    (Z_pattern : list Z) (st : z_state) :
  zAlgorithmSearch_body fuel (seen t) (seen p) (int_of_size (len t))
    (int_of_size (len p)) Z_pattern st
  = zAlgorithmSearch_body fuel t p (int_of_size (len t)) (int_of_size (len p))
      Z_pattern st.
Proof.
  destruct st as [i L R za]. unfold zAlgorithmSearch_body.
  by rewrite !(while_ext _ _ _ _ (search_extend_cond_seen t p i)
                 (fun R => eq_refl)).
Qed.

(** [computeZArray] on a string of any length is [computeZArray] on the
    part of the string below its length as an [int]. *)
Lemma computeZArray_seen (fuel : nat) (s : list ascii) :
  0 <= int_of_size (len s) -> computeZArray fuel s = computeZArray fuel (seen s).
Proof.
  intros Hn. unfold computeZArray. rewrite int_of_size_seen by done.
  destruct (int_of_size (len s) =? 0); [done|].
  apply bind_ext. intros za0. apply bind_ext. intros za. f_equal.
  symmetry. apply (while_agree (fun st => 0 <= z_i st)).
  - done.
  - intros st Hst _. by apply computeZArray_body_seen.
  - intros st st' Hst _ Hb. apply computeZArray_body_i in Hb. lia.
  - simpl. lia.
Qed.

(** [zAlgorithmSearch] on inputs of any length. *)
Lemma zAlgorithmSearch_seen (fuel : nat) (t p : list ascii) :
  0 <= int_of_size (len t) -> 0 <= int_of_size (len p) ->
  zAlgorithmSearch fuel t p = zAlgorithmSearch fuel (seen t) (seen p).
Proof.
  intros Hm Hn. unfold zAlgorithmSearch. rewrite !int_of_size_seen by done.
  apply bind_ext. intros za0.
  destruct (int_of_size (len p) =? 0); [done|].
  rewrite <- computeZArray_seen by done.
  apply bind_ext. intros zp. f_equal.
  symmetry. apply while_ext; [done|]. intros st. apply zAlgorithmSearch_body_seen.
Qed.

(** Where the constructors throw. *)
Lemma computeZArray_LengthError (fuel : nat) (s : list ascii) :
  int_of_size (len s) < 0 -> computeZArray fuel s = LengthError.
Proof.
  intros Hn. unfold computeZArray.
  destruct (Z.eqb_spec (int_of_size (len s)) 0); [lia|].
  by rewrite new_vector_LengthError.
Qed.

Lemma KMPSearch_LengthError_pattern (fuel : nat) (t p : list ascii) :
  int_of_size (len p) < 0 -> KMPSearch fuel t p = LengthError.
Proof.
  intros Hm. unfold KMPSearch.
  destruct (Z.eqb_spec (int_of_size (len p)) 0); [lia|].
  by rewrite computeLPS_LengthError.
Qed.

Lemma KMPSearch_LengthError_text (fuel : nat) (t p : list ascii) (lps_pattern : list Z) :
  int_of_size (len t) < 0 -> int_of_size (len p) <> 0 ->
  computeLPS fuel p = Done lps_pattern ->
  KMPSearch fuel t p = LengthError.
Proof.
  intros Hn Hm Hlps. unfold KMPSearch.
  destruct (Z.eqb_spec (int_of_size (len p)) 0); [lia|].
  rewrite Hlps. simpl. by rewrite new_vector_LengthError.
Qed.

Lemma zAlgorithmSearch_LengthError_text (fuel : nat) (t p : list ascii) :
  int_of_size (len t) < 0 -> zAlgorithmSearch fuel t p = LengthError.
Proof.
  intros Hm. unfold zAlgorithmSearch. by rewrite new_vector_LengthError.
Qed.

Lemma zAlgorithmSearch_LengthError_pattern (fuel : nat) (t p : list ascii) :
  0 <= int_of_size (len t) -> int_of_size (len p) < 0 ->
  zAlgorithmSearch fuel t p = LengthError.
Proof.
  intros Hm Hn. unfold zAlgorithmSearch. rewrite new_vector_Done by done. simpl.
  destruct (Z.eqb_spec (int_of_size (len p)) 0); [lia|].
  by rewrite computeZArray_LengthError.
Qed.

(** A pattern whose length as an [int] is zero is taken for the empty
    pattern. *)
Lemma KMPSearch_int_zero (fuel : nat) (t p : list ascii) :
  int_of_size (len p) = 0 -> KMPSearch fuel t p = Done [].
Proof. intros Hm. unfold KMPSearch. by rewrite Hm. Qed.

Lemma computeZArray_int_zero (fuel : nat) (s : list ascii) :
  int_of_size (len s) = 0 -> computeZArray fuel s = Done [].
Proof. intros Hn. unfold computeZArray. by rewrite Hn. Qed.

Lemma zAlgorithmSearch_int_zero (fuel : nat) (t p : list ascii) :
  0 <= int_of_size (len t) -> int_of_size (len p) = 0 ->
  zAlgorithmSearch fuel t p = Done (zeros (int_of_size (len t))).
Proof.
  intros Hm Hn. unfold zAlgorithmSearch. rewrite new_vector_Done by done.
  simpl. by rewrite Hn.
Qed.

Lemma seen_nonempty {A : Type} (v : list A) :
  0 < int_of_size (len v) -> (0 < length (seen v))%nat.
Proof.
  intros H. assert (Hl : len (seen v) = int_of_size (len v))
    by (apply len_seen; lia).
  unfold len in Hl at 1. lia.
Qed.

(** No call accesses anything out of bounds, whatever the lengths. *)
Lemma computeLPS_safe (fuel : nat) (p : list ascii) :
  computeLPS fuel p <> OutOfBounds.
Proof.
  destruct (Z_lt_ge_dec (int_of_size (len p)) 0) as [Hneg|Hpos].
  - by rewrite computeLPS_LengthError.
  - rewrite computeLPS_seen by lia.
    destruct (computeLPS_run fuel (seen p) (fits_int_seen p))
      as [[E _]|(r & E & _)]; by rewrite E.
Qed.

Lemma seen_not_nil {A : Type} (v : list A) :
  0 < int_of_size (len v) -> seen v <> [].
Proof.
  intros H E. apply seen_nonempty in H. rewrite E in H. simpl in H. lia.
Qed.

Lemma KMPSearch_safe (fuel : nat) (t p : list ascii) :
  KMPSearch fuel t p <> OutOfBounds.
Proof.
  destruct (Z.eq_dec (int_of_size (len p)) 0) as [H0|Hne];
    [by rewrite KMPSearch_int_zero|].
  destruct (Z_lt_ge_dec (int_of_size (len p)) 0) as [Hneg|Hpos];
    [by rewrite KMPSearch_LengthError_pattern|].
  destruct (Z_lt_ge_dec (int_of_size (len t)) 0) as [Hnt|Hpt].
  - destruct (computeLPS fuel p) as [lpsp| | |] eqn:E.
    + by rewrite (KMPSearch_LengthError_text fuel t p lpsp).
    + by apply computeLPS_safe in E.
    + unfold KMPSearch. destruct (Z.eqb_spec (int_of_size (len p)) 0); [lia|].
      by rewrite E.
    + unfold KMPSearch. destruct (Z.eqb_spec (int_of_size (len p)) 0); [lia|].
      by rewrite E.
  - rewrite KMPSearch_seen by lia.
    destruct (KMPSearch_run fuel (seen t) (seen p) (fits_int_seen t)
                (fits_int_seen p)) as [[E _]|(r & E & _)];
      [apply seen_not_nil; lia|by rewrite E..].
Qed.

Lemma computeZArray_safe (fuel : nat) (s : list ascii) :
  computeZArray fuel s <> OutOfBounds.
Proof.
  destruct (Z_lt_ge_dec (int_of_size (len s)) 0) as [Hneg|Hpos].
  - by rewrite computeZArray_LengthError.
  - rewrite computeZArray_seen by lia.
    destruct (computeZArray_run fuel (seen s) (fits_int_seen s))
      as [[E _]|(r & E & _)]; by rewrite E.
Qed.

Lemma zAlgorithmSearch_safe (fuel : nat) (t p : list ascii) :
  zAlgorithmSearch fuel t p <> OutOfBounds.
Proof.
  destruct (Z_lt_ge_dec (int_of_size (len t)) 0) as [Hnt|Hpt];
    [by rewrite zAlgorithmSearch_LengthError_text|].
  destruct (Z.eq_dec (int_of_size (len p)) 0) as [H0|Hne];
    [by rewrite zAlgorithmSearch_int_zero by lia|].
  destruct (Z_lt_ge_dec (int_of_size (len p)) 0) as [Hneg|Hpos];
    [by rewrite zAlgorithmSearch_LengthError_pattern by lia|].
  rewrite zAlgorithmSearch_seen by lia.
  destruct (zAlgorithmSearch_run fuel (seen t) (seen p) (fits_int_seen t)
              (fits_int_seen p)) as [[E _]|(r & E & _)];
    [apply seen_not_nil; lia|by rewrite E..].
Qed.

(** Every call ends, with enough fuel: it returns a result, or a
    constructor throws. *)
Lemma computeLPS_ends (p : list ascii) :
  exists o,
    (forall fuel, (2 * length p <= fuel)%nat -> computeLPS fuel p = o) /\
    ends o /\ (0 <= int_of_size (len p) -> exists r, o = Done r).
Proof.
  destruct (Z_lt_ge_dec (int_of_size (len p)) 0) as [Hneg|Hpos].
  - exists LengthError. split; [intros; by apply computeLPS_LengthError|].
    split; [by right|lia].
  - destruct (computeLPS_stable (seen p) (fits_int_seen p)) as (r & Hrun & _).
    exists (Done r). split; [|split; [left|]; eauto].
    intros fuel Hfuel. rewrite computeLPS_seen by lia. apply Hrun.
    pose proof (length_seen p). lia.
Qed.

Lemma KMPSearch_ends (t p : list ascii) :
  exists o,
    (forall fuel, (2 * (length t + length p) <= fuel)%nat ->
       KMPSearch fuel t p = o) /\
    ends o /\
    (0 <= int_of_size (len t) -> 0 <= int_of_size (len p) ->
     exists r, o = Done r).
Proof.
  pose proof (length_seen t) as Hlt. pose proof (length_seen p) as Hlp.
  destruct (Z.eq_dec (int_of_size (len p)) 0) as [H0|Hne].
  { exists (Done []). split; [intros; by apply KMPSearch_int_zero|].
    split; [left|]; eauto. }
  destruct (Z_lt_ge_dec (int_of_size (len p)) 0) as [Hneg|Hpos].
  { exists LengthError. split; [intros; by apply KMPSearch_LengthError_pattern|].
    split; [by right|lia]. }
  destruct (Z_lt_ge_dec (int_of_size (len t)) 0) as [Hnt|Hpt].
  - destruct (computeLPS_stable (seen p) (fits_int_seen p)) as (r & Hrun & _).
    exists LengthError. split; [|split; [by right|lia]].
    intros fuel Hfuel. apply (KMPSearch_LengthError_text fuel t p r); [done..|].
    rewrite computeLPS_seen by lia. apply Hrun. lia.
  - destruct (KMPSearch_stable (seen t) (seen p) (fits_int_seen t)
                (fits_int_seen p)) as (r & Hrun & _);
      [apply seen_nonempty; lia|].
    exists (Done r). split; [|split; [left|]; eauto].
    intros fuel Hfuel. rewrite KMPSearch_seen by lia. apply Hrun. lia.
Qed.

Lemma computeZArray_ends (s : list ascii) :
  exists o,
    (forall fuel, (length s <= fuel)%nat -> computeZArray fuel s = o) /\
    ends o /\ (0 <= int_of_size (len s) -> exists r, o = Done r).
Proof.
  destruct (Z_lt_ge_dec (int_of_size (len s)) 0) as [Hneg|Hpos].
  - exists LengthError. split; [intros; by apply computeZArray_LengthError|].
    split; [by right|lia].
  - destruct (computeZArray_stable (seen s) (fits_int_seen s)) as (r & Hrun & _).
    exists (Done r). split; [|split; [left|]; eauto].
    intros fuel Hfuel. rewrite computeZArray_seen by lia. apply Hrun.
    pose proof (length_seen s). lia.
Qed.

Lemma zAlgorithmSearch_ends (t p : list ascii) :
  exists o,
    (forall fuel, (length t + length p <= fuel)%nat ->
       zAlgorithmSearch fuel t p = o) /\
    ends o /\
    (0 <= int_of_size (len t) -> 0 <= int_of_size (len p) ->
     exists r, o = Done r).
Proof.
  pose proof (length_seen t) as Hlt. pose proof (length_seen p) as Hlp.
  destruct (Z_lt_ge_dec (int_of_size (len t)) 0) as [Hnt|Hpt].
  { exists LengthError.
    split; [intros; by apply zAlgorithmSearch_LengthError_text|].
    split; [by right|lia]. }
  destruct (Z.eq_dec (int_of_size (len p)) 0) as [H0|Hne].
  { exists (Done (zeros (int_of_size (len t)))).
    split; [intros; apply zAlgorithmSearch_int_zero; (done || lia)|].
    split; [left|]; eauto. }
  destruct (Z_lt_ge_dec (int_of_size (len p)) 0) as [Hneg|Hpos].
  { exists LengthError.
    split; [intros; apply zAlgorithmSearch_LengthError_pattern; (done || lia)|].
    split; [by right|lia]. }
  destruct (zAlgorithmSearch_stable (seen t) (seen p) (fits_int_seen t)
              (fits_int_seen p)) as (r & Hrun & _);
    [apply seen_nonempty; lia|].
  exists (Done r). split; [|split; [left|]; eauto].
  intros fuel Hfuel. rewrite zAlgorithmSearch_seen by lia. apply Hrun. lia.
Qed.

(** ** Termination *)

(** What a loop returns on some fuel, it returns without fuel. *)
Lemma loop_while {S : Type} (cond : S -> outcome bool) (body : S -> outcome S)
    (fuel : nat) :
  forall (s : S) (a : Acc (loop_next cond body) s) (r : S),
    while fuel cond body s = Done r -> loop cond body s a = Done r.
Proof.
  induction fuel as [|fuel IH]; intros s a r; destruct a as [a]; simpl;
    generalize (eq_refl (cond s)); generalize (cond s) at 2 3 4;
    intros [[|]| | |] Hc; simpl; try done.
  generalize (eq_refl (body s)). generalize (body s) at 2 3 4.
  intros [s'| | |] Hb; simpl; try done.
  apply IH.
Qed.

Lemma computeLPS_loop_acc (p : list ascii) :
  Acc (loop_next (computeLPS_cond (int_of_size (len p))) (computeLPS_body p))
      (LpsState 1 0 (zeros (int_of_size (len p)))).
Proof.
  destruct (Z_le_gt_dec (int_of_size (len p)) 0) as [H0|Hpos].
  - constructor. intros s' [Hc _]. unfold computeLPS_cond in Hc. simpl in Hc.
    destruct (Z.ltb_spec 1 (int_of_size (len p))); [lia|discriminate].
  - apply (loop_acc (computeLPS_inv (seen p)) (computeLPS_mu (seen p)) True).
    + intros s Hs.
      destruct (computeLPS_step_seen p s) as [?|[? ?]]; [lia|done|auto..].
    + rewrite <- (len_seen p) by lia. apply computeLPS_init.
      rewrite len_seen by lia. lia.
Qed.

Lemma rd_nil {A : Type} (i : Z) : rd (@nil A) i = OutOfBounds.
Proof. unfold rd, ix. by destruct (0 <=? i). Qed.

(** With [m = 0] and the empty array of [computeLPS], an iteration of
    the loop of [KMPSearch] that ends has moved [i] forward. *)
Lemma KMPSearch_body_int_zero (t p : list ascii) (n : Z) (s s' : kmp_state) :
  kmp_i s < n ->
  KMPSearch_body t p n 0 [] s = Done s' -> kmp_i s' = kmp_i s + 1.
Proof.
  destruct s as [i j lps]. simpl. intros Hi H. unfold KMPSearch_body in H.
  apply bind_Done in H as (pj & Hpj & H).
  apply bind_Done in H as (ti & Hti & H).
  apply bind_Done in H as ([i1 j1 lps1] & H1 & H).
  destruct (Z.eqb_spec j1 0) as [Hj1|Hj1];
    [rewrite rd_nil in H; discriminate|].
  apply bind_Done in H as (c & Hc & H).
  destruct c; simpl in H; [rewrite rd_nil in H; discriminate|].
  injection H as <-. simpl.
  destruct (ceq pj ti) eqn:E.
  - apply bind_Done in H1 as (lps' & _ & [= <- _ _]). done.
  - injection H1 as <- <- <-.
    destruct (Z.ltb_spec i n); [|lia].
    rewrite Hpj, Hti in Hc. simpl in Hc. rewrite E in Hc. discriminate.
Qed.

Lemma KMPSearch_loop_acc (fuel : nat) (t p : list ascii) (lps_pattern : list Z) :
  computeLPS fuel p = Done lps_pattern ->
  Acc (loop_next (KMPSearch_cond (int_of_size (len t)))
         (KMPSearch_body t p (int_of_size (len t)) (int_of_size (len p))
            lps_pattern))
      (KmpState 0 0 (zeros (int_of_size (len t)))).
Proof.
  intros Hlps. pose proof (computeLPS_Done _ _ _ Hlps) as Hm.
  destruct (Z_le_gt_dec (int_of_size (len t)) 0) as [Hn|Hn].
  { constructor. intros s' [Hc _]. unfold KMPSearch_cond in Hc. simpl in Hc.
    destruct (Z.ltb_spec 0 (int_of_size (len t))); [lia|discriminate]. }
  destruct (Z.eq_dec (int_of_size (len p)) 0) as [H0|Hne].
  - (* [m == 0]: the array of [computeLPS] is empty *)
    assert (lps_pattern = []) as ->.
    { unfold computeLPS in Hlps. rewrite H0 in Hlps. simpl in Hlps.
      rewrite while_false in Hlps by done. by injection Hlps as <-. }
    rewrite H0.
    apply (well_founded_lt_compat _
             (fun s => Z.to_nat (int_of_size (len t) - kmp_i s))).
    intros s' s [Hc Hb]. unfold KMPSearch_cond in Hc.
    destruct (Z.ltb_spec (kmp_i s) (int_of_size (len t))); [|discriminate].
    apply KMPSearch_body_int_zero in Hb; [lia|done].
  - rewrite computeLPS_seen in Hlps by done.
    assert (Htab : lps_table (seen p) lps_pattern (len (seen p))).
    { destruct (computeLPS_run fuel (seen p) (fits_int_seen p))
        as [[E _]|(r & E & _ & Htab)]; [congruence|].
      rewrite E in Hlps. by injection Hlps as <-. }
    apply (loop_acc (KMPSearch_inv (seen p) (seen t)) (KMPSearch_mu (seen t)) True).
    + intros s Hs.
      destruct (KMPSearch_step_seen t p lps_pattern s) as [?|[? ?]];
        [lia|done|done|done|auto..].
    + rewrite <- (len_seen t) by lia. apply KMPSearch_init.
      rewrite len_seen by lia. lia.
Qed.

Lemma extend_wf (s : list ascii) (n L : Z) :
  well_founded (loop_next (extend_cond s n L) extend_body).
Proof.
  apply (well_founded_lt_compat _ (fun R => Z.to_nat (n - R))).
  intros R' R [Hc Hb]. unfold extend_cond in Hc.
  destruct (Z.ltb_spec R n); [|discriminate].
  injection Hb as <-. lia.
Qed.

Lemma search_extend_wf (t p : list ascii) (m n L : Z) :
  well_founded (loop_next (search_extend_cond t p m n L) extend_body).
Proof.
  apply (well_founded_lt_compat _ (fun R => Z.to_nat (m - R))).
  intros R' R [Hc Hb]. unfold search_extend_cond in Hc.
  destruct (Z.ltb_spec R m); [|discriminate].
  injection Hb as <-. lia.
Qed.

Lemma computeZArray_wf (fuel : nat) (s : list ascii) (n : Z) :
  well_founded (loop_next (computeZArray_cond n) (computeZArray_body fuel s n)).
Proof.
  apply (well_founded_lt_compat _ (fun st => Z.to_nat (n - z_i st))).
  intros st' st [Hc Hb]. unfold computeZArray_cond in Hc.
  apply computeZArray_body_i in Hb.
  destruct (Z.ltb_spec (z_i st) n); [lia|discriminate].
Qed.

Lemma zAlgorithmSearch_wf (fuel : nat) (t p : list ascii) (m n : Z) (zp : list Z) :
  well_founded (loop_next (zAlgorithmSearch_cond m)
                  (zAlgorithmSearch_body fuel t p m n zp)).
Proof.
  apply (well_founded_lt_compat _ (fun st => Z.to_nat (m - z_i st))).
  intros st' st [Hc Hb]. unfold zAlgorithmSearch_cond in Hc.
  apply zAlgorithmSearch_body_i in Hb.
  destruct (Z.ltb_spec (z_i st) m); [lia|discriminate].
Qed.

Lemma new_vector_inv (n : Z) (v : list Z) :
  new_vector n = Done v -> v = zeros n.
Proof. unfold new_vector. destruct (n <? 0); [done|]. by intros [= <-]. Qed.

(** The loop of [computeLPS], run without fuel, ends with the array that
    [computeLPS] returns. *)
Lemma computeLPS_loop (fuel : nat) (p : list ascii) (lps : list Z)
    (a : Acc (loop_next (computeLPS_cond (int_of_size (len p)))
                (computeLPS_body p))
             (LpsState 1 0 (zeros (int_of_size (len p))))) :
  computeLPS fuel p = Done lps ->
  exists s, loop (computeLPS_cond (int_of_size (len p))) (computeLPS_body p)
              (LpsState 1 0 (zeros (int_of_size (len p)))) a = Done s /\
            lps_arr s = lps.
Proof.
  unfold computeLPS. intros H. apply bind_Done in H as (v & Hv & H).
  apply new_vector_inv in Hv as ->.
  apply bind_Done in H as (s & Hs & [= H]).
  exists s. split; [by apply (loop_while _ _ fuel)|done].
Qed.

(** The loop of [KMPSearch], run without fuel, ends with the array that
    [KMPSearch] returns. *)
Lemma KMPSearch_loop (fuel : nat) (t p : list ascii) (lps_pattern res : list Z)
    (a : Acc (loop_next (KMPSearch_cond (int_of_size (len t)))
                (KMPSearch_body t p (int_of_size (len t))
                   (int_of_size (len p)) lps_pattern))
             (KmpState 0 0 (zeros (int_of_size (len t))))) :
  int_of_size (len p) <> 0 ->
  computeLPS fuel p = Done lps_pattern ->
  KMPSearch fuel t p = Done res ->
  exists s, loop (KMPSearch_cond (int_of_size (len t)))
              (KMPSearch_body t p (int_of_size (len t)) (int_of_size (len p))
                 lps_pattern)
              (KmpState 0 0 (zeros (int_of_size (len t)))) a = Done s /\
            kmp_arr s = res.
Proof.
  intros Hp Hlps. unfold KMPSearch.
  destruct (Z.eqb_spec (int_of_size (len p)) 0) as [H0|_]; [done|].
  rewrite Hlps. simpl. intros H. apply bind_Done in H as (v & Hv & H).
  apply new_vector_inv in Hv as ->.
  apply bind_Done in H as (s & Hs & [= H]).
  exists s. split; [by apply (loop_while _ _ fuel)|done].
Qed.

(** ** The claims *)

(** C1.  For every text of length [n] and every non-empty pattern of
    length [m], both below [2^31], [KMPSearch] returns an array of length
    [n] whose entry at each index [i] is the length of the longest prefix
    of the pattern that is also a suffix of [text[0..i]]; where a full
    match ends at [i] the entry is [m] itself. *)
Theorem KMPSearch_correct (text pattern : list ascii) :
  fits_int text -> fits_int pattern -> (0 < length pattern)%nat ->
  exists res,
    (forall fuel, (2 * (length text + length pattern) <= fuel)%nat ->
       KMPSearch fuel text pattern = Done res) /\
    length res = length text /\
    (forall i, (i < length text)%nat ->
       exists k, res !! i = Some (Z.of_nat k) /\
                 is_longest (prefix_is_suffix pattern (take (S i) text)) k) /\
    (forall i, (i < length text)%nat ->
       pattern `suffix_of` take (S i) text -> res !! i = Some (len pattern)).
Proof.
  intros Hft Hfp Hp.
  destruct (KMPSearch_stable text pattern Hft Hfp Hp) as (res & Hrun & Hlen & Htab).
  exists res. split; [done|]. split; [by apply length_len|].
  split; [intros i Hi; by apply kmp_table_lookup|].
  intros i Hi Hsuf.
  destruct (kmp_table_lookup pattern text res i Htab Hi) as (k & Hk & [Hin Hbest]).
  assert (length pattern <= k)%nat.
  { apply Hbest. split; [done|]. by rewrite take_ge by done. }
  rewrite Hk. f_equal. destruct Hin. unfold len. lia.
Qed.

Lemma KMPSearch_correct_witness :
  exists res, KMPSearch 20 (str "ababab") (str "abab") = Done res /\
              res !! 3%nat = Some 4.
Proof.
  destruct (KMPSearch_correct (str "ababab") (str "abab")) as (res & Hrun & _ & _ & Hfull);
    [by vm_compute|by vm_compute|simpl; lia|].
  exists res. split; [apply Hrun; simpl; lia|].
  apply (Hfull 3%nat); [simpl; lia|]. by exists [].
Defined.

(** C1, as stated for every pattern, fails on a pattern of [2^32] symbols:
    its length as an [int] is 0, and [KMPSearch] returns the empty array
    for a text of three symbols. *)
Lemma KMPSearch_correct_counterexample :
  len (long_string (2 ^ 32)) = 2 ^ 32 /\
  forall fuel, KMPSearch fuel (str "aaa") (long_string (2 ^ 32)) = Done [].
Proof.
  split; [apply len_long_string; lia|].
  intros fuel. apply KMPSearch_int_zero. by rewrite len_long_string by lia.
Qed.

(** C2.  For every text of length [n] and every non-empty pattern of
    length [m], both below [2^31], [zAlgorithmSearch] returns an array of
    length [n] whose entry at each index [i] is the length of the longest
    prefix of the pattern that matches the text from position [i] on; the
    entry is [m] exactly when a full occurrence of the pattern starts at
    [i]. *)
Theorem zAlgorithmSearch_correct (text pattern : list ascii) :
  fits_int text -> fits_int pattern -> (0 < length pattern)%nat ->
  exists res,
    (forall fuel, (length text + length pattern <= fuel)%nat ->
       zAlgorithmSearch fuel text pattern = Done res) /\
    length res = length text /\
    (forall i, (i < length text)%nat ->
       exists L, res !! i = Some (Z.of_nat L) /\
                 is_longest (prefix_match pattern text i) L) /\
    (forall i, (i < length text)%nat ->
       res !! i = Some (len pattern) <-> occurs_at pattern text i).
Proof.
  intros Hft Hfp Hp.
  destruct (zAlgorithmSearch_stable text pattern Hft Hfp Hp)
    as (res & Hrun & Hlen & Htab).
  exists res. split; [done|]. split; [by apply length_len|].
  split; [intros i Hi; by apply z_table_lookup|].
  intros i Hi.
  destruct (z_table_lookup pattern text res i Htab Hi) as (L & HL & [Hin Hbest]).
  rewrite HL, occurs_at_prefix_match. unfold len. split.
  - intros [= He]. by replace (length pattern) with L by lia.
  - intros Hocc. f_equal. specialize (Hbest _ Hocc). destruct Hin. lia.
Qed.

Lemma zAlgorithmSearch_correct_witness :
  exists res, zAlgorithmSearch 7 (str "aaaaa") (str "aa") = Done res /\
              (res !! 3%nat = Some 2 <-> occurs_at (str "aa") (str "aaaaa") 3).
Proof.
  destruct (zAlgorithmSearch_correct (str "aaaaa") (str "aa")) as (res & Hrun & _ & _ & Hfull);
    [by vm_compute|by vm_compute|simpl; lia|].
  exists res. split; [apply Hrun; simpl; lia|].
  apply (Hfull 3%nat). simpl; lia.
Defined.

(** C2, as stated for every text, fails on a text of [2^31] symbols: its
    length as an [int] is negative, and [zAlgorithmSearch] ends in the
    exception of its first constructor. *)
Lemma zAlgorithmSearch_correct_counterexample :
  len (long_string (2 ^ 31)) = 2 ^ 31 /\
  forall fuel,
    zAlgorithmSearch fuel (long_string (2 ^ 31)) (str "a") = LengthError.
Proof.
  split; [apply len_long_string; lia|].
  intros fuel. apply zAlgorithmSearch_LengthError_text.
  by rewrite len_long_string by lia.
Qed.

(** C3.  For every pattern of fewer than [2^31] symbols, [computeLPS]
    returns an array [lps] of the pattern's length [m] in which, at every
    index [i], [lps[i]] is the length of the longest proper prefix of
    [pattern[0..i]] that is also a suffix of [pattern[0..i]]; in
    particular [lps[i] <= i], and [lps[0] = 0] when [m >= 1]. *)
Theorem computeLPS_correct (pattern : list ascii) :
  fits_int pattern ->
  exists lps,
    (forall fuel, (2 * length pattern <= fuel)%nat ->
       computeLPS fuel pattern = Done lps) /\
    length lps = length pattern /\
    (forall i, (i < length pattern)%nat ->
       exists k, lps !! i = Some (Z.of_nat k) /\
                 is_longest (proper_border (take (S i) pattern)) k /\
                 (k <= i)%nat) /\
    ((1 <= length pattern)%nat -> lps !! 0%nat = Some 0).
Proof.
  intros Hfp.
  destruct (computeLPS_stable pattern Hfp) as (lps & Hrun & Hlen & Htab).
  exists lps. split; [done|]. split; [by apply length_len|].
  assert (Hix : forall i, (i < length pattern)%nat ->
       exists k, lps !! i = Some (Z.of_nat k) /\
                 is_longest (proper_border (take (S i) pattern)) k /\
                 (k <= i)%nat).
  { intros i Hi. destruct (lps_table_lookup pattern lps i Htab Hi) as (k & Hk & Hlong).
    exists k. split; [done|]. split; [done|].
    destruct Hlong as [[Hlt _] _]. rewrite length_take_le in Hlt by lia. lia. }
  split; [done|].
  intros Hm. destruct (Hix 0%nat) as (k & Hk & _ & Hle); [lia|].
  by replace k with 0%nat in Hk by lia.
Qed.

Lemma computeLPS_correct_witness :
  exists lps, computeLPS 12 (str "ABABAB") = Done lps /\
              lps !! 0%nat = Some 0.
Proof.
  destruct (computeLPS_correct (str "ABABAB")) as (lps & Hrun & _ & _ & Hzero);
    [by vm_compute|].
  exists lps. split; [apply Hrun; simpl; lia|]. apply Hzero. simpl; lia.
Defined.

(** C3, as stated for every pattern, fails on a pattern of [2^31]
    symbols: its length as an [int] is negative, and [computeLPS] ends in
    the exception of its constructor. *)
Lemma computeLPS_correct_counterexample :
  len (long_string (2 ^ 31)) = 2 ^ 31 /\
  forall fuel, computeLPS fuel (long_string (2 ^ 31)) = LengthError.
Proof.
  split; [apply len_long_string; lia|].
  intros fuel. apply computeLPS_LengthError.
  by rewrite len_long_string by lia.
Qed.

(** C4.  For every string [s] of length [n] below [2^31],
    [computeZArray] returns an array of length [n] whose entry at index 0
    is [n] (when [n >= 1]) and whose entry at every index [i > 0] is at
    most [n - i] and is the longest length [L] with
    [s[0..L) == s[i..i+L)]. *)
Theorem computeZArray_correct (s : list ascii) :
  fits_int s ->
  exists za,
    (forall fuel, (length s <= fuel)%nat -> computeZArray fuel s = Done za) /\
    length za = length s /\
    ((1 <= length s)%nat -> za !! 0%nat = Some (len s)) /\
    (forall i, (0 < i < length s)%nat ->
       exists L, za !! i = Some (Z.of_nat L) /\
                 (L <= length s - i)%nat /\
                 is_longest (prefix_match s s i) L).
Proof.
  intros Hfs.
  destruct (computeZArray_stable s Hfs) as (za & Hrun & Hlen & Htab).
  exists za. split; [done|]. split; [by apply length_len|]. split.
  - intros Hn.
    destruct (z_table_lookup s s za 0%nat Htab) as (L & HL & [Hin Hbest]); [lia|].
    rewrite HL. f_equal. unfold len.
    assert (length s <= L)%nat.
    { apply Hbest. split; [done|]. split; [lia|]. by rewrite drop_0. }
    destruct Hin. lia.
  - intros i Hi.
    destruct (z_table_lookup s s za i Htab) as (L & HL & Hlong); [lia|].
    exists L. split; [done|]. split; [|done].
    destruct Hlong as [(_ & ? & _) _]. lia.
Qed.

Lemma computeZArray_correct_witness :
  exists za, computeZArray 5 (str "aabaa") = Done za /\
             za !! 0%nat = Some 5.
Proof.
  destruct (computeZArray_correct (str "aabaa")) as (za & Hrun & _ & Hzero & _);
    [by vm_compute|].
  exists za. split; [apply Hrun; simpl; lia|]. apply Hzero. simpl; lia.
Defined.

(** C4, as stated for every string, fails on a string of [2^32] symbols:
    its length as an [int] is 0, and [computeZArray] returns the empty
    array. *)
Lemma computeZArray_correct_counterexample :
  len (long_string (2 ^ 32)) = 2 ^ 32 /\
  forall fuel, computeZArray fuel (long_string (2 ^ 32)) = Done [].
Proof.
  split; [apply len_long_string; lia|].
  intros fuel. apply computeZArray_int_zero.
  by rewrite len_long_string by lia.
Qed.

(** C5.  For every text and every non-empty pattern of length [m], both
    of fewer than [2^31] symbols, the indices [i] with
    [KMPSearch(text, pattern)[i] = m] are exactly the end offsets of the
    full occurrences of the pattern, and they are the indices [j] with
    [zAlgorithmSearch(text, pattern)[j] = m] shifted by [j = i - m + 1]. *)
Theorem KMPSearch_zAlgorithmSearch_agree (text pattern : list ascii) :
  fits_int text -> fits_int pattern -> (0 < length pattern)%nat ->
  exists kmp zs,
    (forall fuel, (2 * (length text + length pattern) <= fuel)%nat ->
       KMPSearch fuel text pattern = Done kmp /\
       zAlgorithmSearch fuel text pattern = Done zs) /\
    (forall i, (i < length text)%nat ->
       kmp !! i = Some (len pattern) <->
       (length pattern <= S i)%nat /\
       occurs_at pattern text (S i - length pattern)) /\
    (forall i, (i < length text)%nat ->
       kmp !! i = Some (len pattern) <->
       (length pattern <= S i)%nat /\
       zs !! (S i - length pattern)%nat = Some (len pattern)) /\
    (forall j, (j < length text)%nat ->
       zs !! j = Some (len pattern) <->
       kmp !! (j + length pattern - 1)%nat = Some (len pattern)).
Proof.
  intros Hft Hfp Hp.
  destruct (KMPSearch_stable text pattern Hft Hfp Hp)
    as (kmp & Hkrun & Hklen & Hktab).
  destruct (zAlgorithmSearch_stable text pattern Hft Hfp Hp)
    as (zs & Hzrun & Hzlen & Hztab).
  exists kmp, zs.
  assert (Hend : forall i, (i < length text)%nat ->
       kmp !! i = Some (len pattern) <->
       (length pattern <= S i)%nat /\
       occurs_at pattern text (S i - length pattern)).
  { intros i Hi. rewrite (kmp_table_full pattern text kmp i Hktab Hi).
    by apply suffix_occurs_at. }
  split; [|split; [done|split]].
  - intros fuel Hfuel. split; [apply Hkrun|apply Hzrun]; lia.
  - intros i Hi. rewrite (Hend i Hi). split; intros [Hle H]; (split; [done|]).
    + apply (z_table_full pattern text); [done|lia|done].
    + apply (z_table_full pattern text) in H; [done..|lia].
  - intros j Hj. rewrite (z_table_full pattern text zs j Hztab Hj).
    destruct (decide (j + length pattern - 1 < length text)%nat) as [Hin|Hout].
    + rewrite (Hend _ Hin).
      replace (S (j + length pattern - 1) - length pattern)%nat with j by lia.
      split; [intros ?; split; [lia|done]|by intros [_ ?]].
    + rewrite (lookup_ge_None_2 kmp) by (apply length_len in Hklen; lia).
      split; [intros [? _]; lia|done].
Qed.

Lemma KMPSearch_zAlgorithmSearch_agree_witness :
  exists kmp zs,
    KMPSearch 20 (str "ababab") (str "abab") = Done kmp /\
    zAlgorithmSearch 20 (str "ababab") (str "abab") = Done zs /\
    (kmp !! 5%nat = Some 4 <-> zs !! 2%nat = Some 4).
Proof.
  destruct (KMPSearch_zAlgorithmSearch_agree (str "ababab") (str "abab"))
    as (kmp & zs & Hrun & _ & _ & Hshift);
    [by vm_compute|by vm_compute|simpl; lia|].
  exists kmp, zs. destruct (Hrun 20%nat) as [Hk Hz]; [simpl; lia|].
  split; [done|]. split; [done|].
  symmetry. apply (Hshift 2%nat). simpl; lia.
Defined.

(** C5, as stated for every pattern, fails on a pattern of [2^31]
    symbols: neither search returns an array. *)
Lemma KMPSearch_zAlgorithmSearch_agree_counterexample :
  len (long_string (2 ^ 31)) = 2 ^ 31 /\
  forall fuel,
    KMPSearch fuel (str "a") (long_string (2 ^ 31)) = LengthError /\
    zAlgorithmSearch fuel (str "a") (long_string (2 ^ 31)) = LengthError.
Proof.
  split; [apply len_long_string; lia|].
  intros fuel. split.
  - apply KMPSearch_LengthError_pattern. by rewrite len_long_string by lia.
  - apply zAlgorithmSearch_LengthError_pattern; [by vm_compute|].
    by rewrite len_long_string by lia.
Qed.

(** C6.  Whatever the lengths of the inputs (both empty, a pattern longer
    than the text, lengths that are no [int]s, ...) and however far the run
    gets, no access of the four functions to an input sequence or to an
    array falls outside its bounds. *)
Theorem no_out_of_bounds (fuel : nat) (text pattern : list ascii) :
  computeLPS fuel pattern <> OutOfBounds /\
  KMPSearch fuel text pattern <> OutOfBounds /\
  computeZArray fuel pattern <> OutOfBounds /\
  zAlgorithmSearch fuel text pattern <> OutOfBounds.
Proof.
  split; [apply computeLPS_safe|].
  split; [apply KMPSearch_safe|].
  split; [apply computeZArray_safe|apply zAlgorithmSearch_safe].
Qed.

(** C7.  On empty inputs: [computeLPS] and [computeZArray] of the empty
    string are the empty array, [KMPSearch] of any text and the empty
    pattern is the empty array, and [zAlgorithmSearch] of a text of fewer
    than [2^31] symbols and the empty pattern is the array of as many zeros
    as the text has symbols. *)
Theorem empty_inputs (fuel : nat) (text : list ascii) :
  computeLPS fuel [] = Done [] /\
  computeZArray fuel [] = Done [] /\
  KMPSearch fuel text [] = Done [] /\
  (fits_int text ->
   zAlgorithmSearch fuel text [] = Done (replicate (length text) 0)).
Proof.
  split; [by destruct fuel|]. split; [done|].
  split; [apply KMPSearch_empty|apply zAlgorithmSearch_empty].
Qed.

Lemma empty_inputs_witness :
  zAlgorithmSearch 0 (str "abc") [] = Done [0; 0; 0].
Proof.
  destruct (empty_inputs 0 (str "abc")) as (_ & _ & _ & Hz).
  apply Hz. by vm_compute.
Defined.

(** C7, as stated for every text, fails on a text of [2^31] symbols:
    [zAlgorithmSearch] with the empty pattern ends in the exception of its
    constructor. *)
Lemma empty_inputs_counterexample :
  len (long_string (2 ^ 31)) = 2 ^ 31 /\
  forall fuel, zAlgorithmSearch fuel (long_string (2 ^ 31)) [] = LengthError.
Proof.
  split; [apply len_long_string; lia|].
  intros fuel. apply zAlgorithmSearch_LengthError_text.
  by rewrite len_long_string by lia.
Qed.

(** C8.  Every call of each of the four functions terminates, whatever
    the inputs: with enough fuel it ends, by returning a result or by the
    exception of a constructor, and it ends in the same way for any larger
    fuel; on inputs of fewer than [2^31] symbols it returns.  No loop can
    run forever: from their initial states the loops of [computeLPS] and
    [KMPSearch], with their fall-back [j = lps[j - 1]], have no infinite
    run, and, run as total functions by recursion on that fact, they end
    with the arrays the two functions return; the iteration relations of
    the [for] loops of [computeZArray] and [zAlgorithmSearch] and of their
    window-extension loops are well-founded. *)
Theorem all_calls_terminate (text pattern : list ascii) :
  (exists lps kmp za zs : outcome (list Z),
     (forall fuel, (2 * (length text + length pattern) <= fuel)%nat ->
        computeLPS fuel pattern = lps /\
        KMPSearch fuel text pattern = kmp /\
        computeZArray fuel pattern = za /\
        zAlgorithmSearch fuel text pattern = zs) /\
     ends lps /\ ends kmp /\ ends za /\ ends zs /\
     (fits_int text -> fits_int pattern ->
      exists r1 r2 r3 r4,
        lps = Done r1 /\ kmp = Done r2 /\ za = Done r3 /\ zs = Done r4) /\
     (forall r a, lps = Done r -> exists s,
        loop (computeLPS_cond (int_of_size (len pattern)))
          (computeLPS_body pattern)
          (LpsState 1 0 (zeros (int_of_size (len pattern)))) a = Done s /\
        lps_arr s = r) /\
     (forall r1 r2 a, lps = Done r1 -> kmp = Done r2 ->
        int_of_size (len pattern) <> 0 -> exists s,
        loop (KMPSearch_cond (int_of_size (len text)))
          (KMPSearch_body text pattern (int_of_size (len text))
             (int_of_size (len pattern)) r1)
          (KmpState 0 0 (zeros (int_of_size (len text)))) a = Done s /\
        kmp_arr s = r2)) /\
  Acc (loop_next (computeLPS_cond (int_of_size (len pattern)))
         (computeLPS_body pattern))
      (LpsState 1 0 (zeros (int_of_size (len pattern)))) /\
  (forall fuel lps_pattern, computeLPS fuel pattern = Done lps_pattern ->
     Acc (loop_next (KMPSearch_cond (int_of_size (len text)))
            (KMPSearch_body text pattern (int_of_size (len text))
               (int_of_size (len pattern)) lps_pattern))
         (KmpState 0 0 (zeros (int_of_size (len text))))) /\
  (forall fuel,
     well_founded (loop_next (computeZArray_cond (int_of_size (len pattern)))
                     (computeZArray_body fuel pattern
                        (int_of_size (len pattern))))) /\
  (forall fuel Z_pattern,
     well_founded (loop_next (zAlgorithmSearch_cond (int_of_size (len text)))
                     (zAlgorithmSearch_body fuel text pattern
                        (int_of_size (len text)) (int_of_size (len pattern))
                        Z_pattern))) /\
  (forall L,
     well_founded (loop_next (extend_cond pattern (int_of_size (len pattern)) L)
                     extend_body)) /\
  (forall L,
     well_founded (loop_next (search_extend_cond text pattern
                                (int_of_size (len text))
                                (int_of_size (len pattern)) L) extend_body)).
Proof.
  split.
  { destruct (computeLPS_ends pattern) as (lps & Hlps & Elps & Rlps).
    destruct (KMPSearch_ends text pattern) as (kmp & Hkmp & Ekmp & Rkmp).
    destruct (computeZArray_ends pattern) as (za & Hza & Eza & Rza).
    destruct (zAlgorithmSearch_ends text pattern) as (zs & Hzs & Ezs & Rzs).
    exists lps, kmp, za, zs.
    split; [|split; [done|split; [done|split; [done|split; [done|]]]]].
    { intros fuel Hfuel. split; [apply Hlps; lia|]. split; [apply Hkmp; lia|].
      split; [apply Hza; lia|apply Hzs; lia]. }
    split; [|split].
    - intros Hft Hfp.
      apply int_of_size_nonneg in Hft. apply int_of_size_nonneg in Hfp.
      destruct (Rlps Hfp) as [r1 ->]. destruct (Rkmp Hft Hfp) as [r2 ->].
      destruct (Rza Hfp) as [r3 ->]. destruct (Rzs Hft Hfp) as [r4 ->].
      by exists r1, r2, r3, r4.
    - intros r a ->.
      apply (computeLPS_loop (2 * (length text + length pattern))).
      apply Hlps. lia.
    - intros r1 r2 a -> -> Hne.
      apply (KMPSearch_loop (2 * (length text + length pattern))); [done|..].
      + apply Hlps. lia.
      + by apply Hkmp. }
  split; [apply computeLPS_loop_acc|].
  split; [intros fuel lps_pattern; apply KMPSearch_loop_acc|].
  split; [intros fuel; apply computeZArray_wf|].
  split; [intros fuel Z_pattern; apply zAlgorithmSearch_wf|].
  split; [intros L; apply extend_wf|intros L; apply search_extend_wf].
Qed.

(** C9.  On the text "ABABDABACDABABCABAB" and the pattern "ABABCABAB",
    [zAlgorithmSearch] returns [4,0,2,0,0,3,0,1,0,0,9,0,2,0,0,4,0,2,0];
    the only entry equal to the pattern's length 9 is the one at offset
    10. *)
Theorem zAlgorithmSearch_scenario4 :
  (forall fuel, (19 <= fuel)%nat ->
     zAlgorithmSearch fuel scenario4_text scenario4_pattern
       = Done scenario4_result) /\
  len scenario4_pattern = 9 /\
  (forall j, scenario4_result !! j = Some 9 <-> j = 10%nat).
Proof.
  split; [|split; [done|]].
  - intros fuel Hfuel. apply (zAlgorithmSearch_mono 19 fuel); [done|].
    by vm_compute.
  - intros j. unfold scenario4_result.
    do 19 (destruct j as [|j];
           [simpl; split; intros H;
            [first [discriminate H|reflexivity]|first [reflexivity|lia]]|]).
    simpl. split; intros H; [discriminate H|lia].
Qed.

(** C10.  For every text of length [n] and every non-empty pattern of
    length [m], both below [2^31], [KMPSearch] returns an array of length
    [n] whose every entry satisfies [0 <= entry[i] <= min(m, i+1)], and
    [entry[i+1] <= entry[i] + 1] for every [i < n-1]. *)
Theorem KMPSearch_bounds (text pattern : list ascii) :
  fits_int text -> fits_int pattern -> (0 < length pattern)%nat ->
  exists res,
    (forall fuel, (2 * (length text + length pattern) <= fuel)%nat ->
       KMPSearch fuel text pattern = Done res) /\
    length res = length text /\
    (forall i, (i < length text)%nat ->
       exists v, res !! i = Some v /\
                 0 <= v <= Z.min (len pattern) (Z.of_nat i + 1)) /\
    (forall i, (S i < length text)%nat ->
       exists v w, res !! i = Some v /\ res !! S i = Some w /\ w <= v + 1).
Proof.
  intros Hft Hfp Hp.
  destruct (KMPSearch_stable text pattern Hft Hfp Hp) as (res & Hrun & Hlen & Htab).
  exists res. split; [done|]. split; [by apply length_len|]. split.
  - intros i Hi. destruct (Htab (Z.of_nat i)) as (v & Hv & [Hocc _]);
      [unfold len; lia|].
    exists v. rewrite <- ix_of_nat. split; [done|]. destruct Hocc. lia.
  - intros i Hi.
    destruct (Htab (Z.of_nat i)) as (v & Hv & [Hocc Hbest]); [unfold len; lia|].
    destruct (Htab (Z.of_nat (S i))) as (w & Hw & [Hocc' _]); [unfold len; lia|].
    exists v, w. rewrite <- !ix_of_nat. split; [done|]. split; [done|].
    destruct (Z_le_gt_dec w 0) as [|Hpos]; [destruct Hocc; lia|].
    replace (Z.of_nat (S i) + 1) with (Z.of_nat i + 1 + 1) in Hocc' by lia.
    replace w with (w - 1 + 1) in Hocc' by lia.
    apply occ_shrink' in Hocc' as [Hocc' _]; [|lia].
    specialize (Hbest _ Hocc'). lia.
Qed.

Lemma KMPSearch_bounds_witness :
  exists res, KMPSearch 20 (str "ababab") (str "abab") = Done res /\
              length res = 6%nat.
Proof.
  destruct (KMPSearch_bounds (str "ababab") (str "abab")) as (res & Hrun & Hlen & _);
    [by vm_compute|by vm_compute|simpl; lia|].
  exists res. split; [apply Hrun; simpl; lia|]. exact Hlen.
Defined.

(** C10, as stated for every text, fails on a text of [2^31] symbols:
    [KMPSearch] returns no array, but ends in the exception of the
    constructor of its result. *)
Lemma KMPSearch_bounds_counterexample :
  len (long_string (2 ^ 31)) = 2 ^ 31 /\
  forall fuel, KMPSearch fuel (long_string (2 ^ 31)) (str "a") = LengthError.
Proof.
  split; [apply len_long_string; lia|].
  intros fuel. apply (KMPSearch_LengthError_text fuel _ _ [0]).
  - by rewrite len_long_string by lia.
  - by vm_compute.
  - by destruct fuel.
Qed.

(** ** Further properties of the four functions *)

Lemma zmax_unique (p t : list ascii) (i z z' : Z) :
  zmax p t i z -> zmax p t i z' -> z = z'.
Proof.
  intros H H'. pose proof (zmax_longest p t i z z' H (proj1 H')).
  pose proof (zmax_longest p t i z' z H' (proj1 H)). lia.
Qed.

Lemma is_kmp_unique (p t : list ascii) (i v v' : Z) :
  is_kmp p t i v -> is_kmp p t i v' -> v = v'.
Proof.
  intros [H Hb] [H' Hb']. specialize (Hb _ H'). specialize (Hb' _ H). lia.
Qed.

(** Two arrays of one length with the same entries are equal. *)
Lemma ix_ext (v w : list Z) :
  len v = len w ->
  (forall i, 0 <= i < len v -> ix v i = ix w i) -> v = w.
Proof.
  intros Hlen Hix. apply list_eq. intros i.
  destruct (decide (i < length v)%nat) as [Hi|Hi].
  - rewrite <- !ix_of_nat. apply Hix. unfold len. lia.
  - rewrite !lookup_ge_None_2; [done|apply length_len in Hlen; lia|lia].
Qed.

(** X1.  On inputs of fewer than [2^31] symbols, every entry of the
    array [zAlgorithmSearch] returns for a non-empty pattern lies between
    0 and both the pattern's length [n] and
    the number [m - i] of text symbols from its position on: the extension
    loop stops at [R < m] and at [R - L < n]. *)
Theorem zAlgorithmSearch_bounds (text pattern : list ascii) :
  fits_int text -> fits_int pattern -> (0 < length pattern)%nat ->
  exists res,
    (forall fuel, (length text + length pattern <= fuel)%nat ->
       zAlgorithmSearch fuel text pattern = Done res) /\
    (forall i, (i < length text)%nat ->
       exists v, res !! i = Some v /\
                 0 <= v <= Z.min (len pattern) (len text - Z.of_nat i)).
Proof.
  intros Hft Hfp Hp.
  destruct (zAlgorithmSearch_stable text pattern Hft Hfp Hp)
    as (res & Hrun & Hlen & Htab).
  exists res. split; [done|]. intros i Hi.
  destruct (Htab (Z.of_nat i)) as (v & Hv & [Hzm _]); [unfold len; lia|].
  exists v. rewrite <- ix_of_nat. split; [done|]. destruct Hzm as (? & ? & ? & _). lia.
Qed.

Lemma zAlgorithmSearch_bounds_witness :
  exists res, zAlgorithmSearch 9 (str "xyzabc") (str "abc") = Done res /\
              exists v, res !! 4%nat = Some v /\ 0 <= v <= 2.
Proof.
  destruct (zAlgorithmSearch_bounds (str "xyzabc") (str "abc")) as (res & Hrun & Hb);
    [by vm_compute|by vm_compute|simpl; lia|].
  exists res. split; [apply Hrun; simpl; lia|].
  destruct (Hb 4%nat) as (v & Hv & Hr); [simpl; lia|].
  exists v. split; [exact Hv|]. exact Hr.
Defined.

(** X2.  In the array [computeLPS] returns for a pattern of fewer than
    [2^31] symbols, an entry exceeds the one before it by at most one: the loop raises [j] once for each position
    it records. *)
Theorem computeLPS_growth (pattern : list ascii) :
  fits_int pattern ->
  exists lps,
    (forall fuel, (2 * length pattern <= fuel)%nat ->
       computeLPS fuel pattern = Done lps) /\
    (forall i, (S i < length pattern)%nat ->
       exists v w, lps !! i = Some v /\ lps !! S i = Some w /\ w <= v + 1).
Proof.
  intros Hfp.
  destruct (computeLPS_stable pattern Hfp) as (lps & Hrun & Hlen & Htab).
  exists lps. split; [done|]. intros i Hi.
  destruct (Htab (Z.of_nat i)) as (v & Hv & (Hle & Hocc & Hbest)); [unfold len; lia|].
  destruct (Htab (Z.of_nat (S i))) as (w & Hw & (Hle' & Hocc' & _)); [unfold len; lia|].
  exists v, w. rewrite <- !ix_of_nat. split; [done|]. split; [done|].
  destruct (Z_le_gt_dec w 0) as [|Hpos]; [destruct Hocc; lia|].
  replace (Z.of_nat (S i) + 1) with (Z.of_nat i + 1 + 1) in Hocc' by lia.
  replace w with (w - 1 + 1) in Hocc' by lia.
  apply occ_shrink' in Hocc' as [Hocc' _]; [|lia].
  assert (w - 1 <= v); [|lia]. apply Hbest; [lia|done].
Qed.

Lemma computeLPS_growth_witness :
  exists lps, computeLPS 22 (str "AABAACAABAA") = Done lps /\
              exists v w, lps !! 4%nat = Some v /\ lps !! 5%nat = Some w /\
                          w <= v + 1.
Proof.
  destruct (computeLPS_growth (str "AABAACAABAA")) as (lps & Hrun & Hg);
    [by vm_compute|].
  exists lps. split; [apply Hrun; simpl; lia|].
  apply (Hg 4%nat). simpl; lia.
Defined.

(** X3.  When the pattern, of fewer than [2^31] symbols, is longer than
    the text, neither [KMPSearch] nor [zAlgorithmSearch] reports an
    occurrence: no entry of either array
    equals the pattern's length. *)
Theorem longer_pattern_no_match (text pattern : list ascii) :
  fits_int pattern -> (length text < length pattern)%nat ->
  exists kmp zs,
    (forall fuel, (2 * (length text + length pattern) <= fuel)%nat ->
       KMPSearch fuel text pattern = Done kmp /\
       zAlgorithmSearch fuel text pattern = Done zs) /\
    (forall i, kmp !! i <> Some (len pattern)) /\
    (forall i, zs !! i <> Some (len pattern)).
Proof.
  intros Hfp Hlt. assert (Hp : (0 < length pattern)%nat) by lia.
  assert (Hft : fits_int text) by (unfold fits_int, len in *; lia).
  destruct (KMPSearch_stable text pattern Hft Hfp Hp)
    as (kmp & Hkrun & Hklen & Hktab).
  destruct (zAlgorithmSearch_stable text pattern Hft Hfp Hp)
    as (zs & Hzrun & Hzlen & Hztab).
  exists kmp, zs. split; [|split].
  - intros fuel Hfuel. split; [apply Hkrun|apply Hzrun]; lia.
  - intros i Hi. pose proof (lookup_lt_Some _ _ _ Hi) as Hin.
    apply length_len in Hklen. rewrite <- ix_of_nat in Hi.
    destruct (Hktab (Z.of_nat i)) as (v & Hv & [Hocc _]); [unfold len; lia|].
    rewrite Hv in Hi. injection Hi as ->. destruct Hocc as (_ & ? & _).
    unfold len in *. lia.
  - intros i Hi. pose proof (lookup_lt_Some _ _ _ Hi) as Hin.
    apply length_len in Hzlen. rewrite <- ix_of_nat in Hi.
    destruct (Hztab (Z.of_nat i)) as (v & Hv & [Hzm _]); [unfold len; lia|].
    rewrite Hv in Hi. injection Hi as ->. destruct Hzm as (_ & ? & ? & _).
    unfold len in *. lia.
Qed.

Lemma longer_pattern_no_match_witness :
  exists kmp zs,
    KMPSearch 16 (str "ABC") (str "ABCDE") = Done kmp /\
    zAlgorithmSearch 16 (str "ABC") (str "ABCDE") = Done zs /\
    kmp !! 2%nat <> Some 5 /\ zs !! 0%nat <> Some 5.
Proof.
  destruct (longer_pattern_no_match (str "ABC") (str "ABCDE"))
    as (kmp & zs & Hrun & Hk & Hz); [by vm_compute|simpl; lia|].
  exists kmp, zs. destruct (Hrun 16%nat) as [H1 H2]; [simpl; lia|].
  split; [exact H1|]. split; [exact H2|]. split; [apply Hk|apply Hz].
Defined.

(** X4.  Searching a string in itself gives its Z-array: for every [s]
    of fewer than [2^31] symbols, [zAlgorithmSearch(s, s)] and
    [computeZArray(s)] return the same array. *)
Theorem zAlgorithmSearch_self (s : list ascii) :
  fits_int s ->
  exists za,
    forall fuel, (2 * length s <= fuel)%nat ->
      computeZArray fuel s = Done za /\ zAlgorithmSearch fuel s s = Done za.
Proof.
  intros Hfs. destruct s as [|c s].
  - exists []. intros fuel _. split; [done|by apply zAlgorithmSearch_empty].
  - destruct (computeZArray_stable (c :: s) Hfs) as (za & Hrun & Hlen & Htab).
    destruct (zAlgorithmSearch_stable (c :: s) (c :: s) Hfs Hfs)
      as (zs & Hrun' & Hlen' & Htab'); [simpl; lia|].
    exists za. intros fuel Hfuel. split; [apply Hrun; lia|].
    rewrite Hrun' by lia. f_equal. apply ix_ext; [congruence|].
    intros i Hi.
    destruct (Htab i) as (v & Hv & Hmax); [lia|].
    destruct (Htab' i) as (v' & Hv' & Hmax'); [lia|].
    rewrite Hv, Hv'. f_equal. by apply (zmax_unique (c :: s) (c :: s) i).
Qed.

Lemma zAlgorithmSearch_self_witness :
  exists za, computeZArray 18 (str "ababababa") = Done za /\
             zAlgorithmSearch 18 (str "ababababa") (str "ababababa") = Done za.
Proof.
  destruct (zAlgorithmSearch_self (str "ababababa")) as (za & Hrun);
    [by vm_compute|].
  exists za. apply Hrun. simpl; lia.
Defined.

Lemma ix_cons {A : Type} (a : A) (v : list A) (i : Z) :
  0 <= i -> ix (a :: v) (i + 1) = ix v i.
Proof.
  intros Hi. unfold ix.
  destruct (Z.leb_spec 0 (i + 1)); [|lia]. destruct (Z.leb_spec 0 i); [|lia].
  replace (Z.to_nat (i + 1)) with (S (Z.to_nat i)) by lia. done.
Qed.

(** A prefix of [p] that ends before position [i] of [t] is one, no longer
    than [i], that ends before position [i + 1] of [c :: t]. *)
Lemma occ_cons (p t : list ascii) (c : ascii) (k i : Z) :
  occ p t k i <-> k <= i /\ occ p (c :: t) k (i + 1).
Proof.
  unfold occ, len. simpl length. split.
  - intros (Hk & Hi & Hx). split; [lia|]. split; [lia|]. split; [lia|].
    intros x Hr. rewrite Hx by done.
    replace (i + 1 - k + x) with (i - k + x + 1) by lia. by rewrite ix_cons by lia.
  - intros (Hki & Hk & Hi & Hx). split; [lia|]. split; [lia|].
    intros x Hr. rewrite Hx by done.
    replace (i + 1 - k + x) with (i - k + x + 1) by lia. by rewrite ix_cons by lia.
Qed.

(** X5.  [computeLPS] is [KMPSearch] of the pattern in its own tail: for
    every non-empty pattern [c :: rest] of fewer than [2^31] symbols,
    [computeLPS(c :: rest)] is 0 followed by
    [KMPSearch(rest, c :: rest)]. *)
Theorem computeLPS_KMPSearch_tail (c : ascii) (rest : list ascii) :
  fits_int (c :: rest) ->
  exists kmp,
    forall fuel, (4 * length (c :: rest) <= fuel)%nat ->
      KMPSearch fuel rest (c :: rest) = Done kmp /\
      computeLPS fuel (c :: rest) = Done (0 :: kmp).
Proof.
  intros Hfp.
  assert (Hfr : fits_int rest)
    by (unfold fits_int, len in *; simpl in Hfp; lia).
  destruct (computeLPS_stable (c :: rest) Hfp) as (lps & Hrun & Hlen & Htab).
  destruct (KMPSearch_stable rest (c :: rest) Hfr Hfp)
    as (kmp & Hrun' & Hlen' & Htab'); [simpl; lia|].
  exists kmp. intros fuel Hfuel. simpl in Hfuel.
  split; [apply Hrun'; simpl; lia|].
  rewrite Hrun by (simpl; lia). f_equal.
  assert (Hl : len (c :: rest) = len rest + 1) by (unfold len; simpl; lia).
  apply ix_ext; [unfold len in *; simpl in *; lia|].
  intros i Hi. rewrite Hlen, Hl in Hi.
  destruct (Htab i) as (v & Hv & (Hle & Hocc & Hbest)); [lia|]. rewrite Hv.
  destruct (Z.eq_dec i 0) as [->|Hi0].
  - change (ix (0 :: kmp) 0) with (Some 0). f_equal. destruct Hocc. lia.
  - replace i with (i - 1 + 1) at 1 by lia. rewrite ix_cons by lia.
    destruct (Htab' (i - 1)) as (w & Hw & [Hocc' Hbest']); [lia|]. rewrite Hw.
    replace (i - 1 + 1) with i in * by lia.
    f_equal. apply (occ_cons _ _ c) in Hocc' as [Hwi Hocc'].
    assert (w <= v) by (by apply Hbest).
    assert (v <= w); [|lia].
    apply Hbest'. apply (occ_cons _ _ c). by split.
Qed.

Lemma computeLPS_KMPSearch_tail_witness :
  exists kmp, KMPSearch 24 (str "BABAB") (str "ABABAB") = Done kmp /\
              computeLPS 24 (str "ABABAB") = Done (0 :: kmp).
Proof.
  destruct (computeLPS_KMPSearch_tail "A"%char (str "BABAB")) as (kmp & Hrun);
    [by vm_compute|].
  exists kmp. apply Hrun. simpl; lia.
Defined.

Lemma ix_app_l {A : Type} (v w : list A) (i : Z) :
  0 <= i < len v -> ix (v ++ w) i = ix v i.
Proof.
  intros Hi. unfold ix. destruct (Z.leb_spec 0 i); [|lia].
  apply lookup_app_l. unfold len in Hi. lia.
Qed.

(** X6.  When the text is a prefix of the pattern (in particular shorter
    than it), and the pattern has fewer than [2^31] symbols, [KMPSearch]
    records 1, 2, ..., [n]: every text symbol extends
    the match; and [zAlgorithmSearch] records the whole length [n] of the
    text at offset 0. *)
Theorem text_prefix_of_pattern (text pattern : list ascii) :
  fits_int pattern -> (0 < length pattern)%nat ->
  text `prefix_of` pattern ->
  exists kmp zs,
    (forall fuel, (2 * (length text + length pattern) <= fuel)%nat ->
       KMPSearch fuel text pattern = Done kmp /\
       zAlgorithmSearch fuel text pattern = Done zs) /\
    (forall i, (i < length text)%nat -> kmp !! i = Some (Z.of_nat (S i))) /\
    ((0 < length text)%nat -> zs !! 0%nat = Some (len text)).
Proof.
  intros Hfp Hp [l ->].
  assert (Hle : len text <= len (text ++ l))
    by (unfold len; rewrite length_app; lia).
  assert (Hft : fits_int text) by (unfold fits_int in *; lia).
  destruct (KMPSearch_stable text (text ++ l) Hft Hfp Hp)
    as (kmp & Hkrun & Hklen & Hktab).
  destruct (zAlgorithmSearch_stable text (text ++ l) Hft Hfp Hp)
    as (zs & Hzrun & Hzlen & Hztab).
  exists kmp, zs. split; [|split].
  - intros fuel Hfuel. split; [apply Hkrun|apply Hzrun]; lia.
  - intros i Hi. rewrite <- ix_of_nat.
    destruct (Hktab (Z.of_nat i)) as (v & Hv & [Hocc Hbest]); [unfold len; lia|].
    rewrite Hv. f_equal.
    assert (Z.of_nat i + 1 <= v); [|destruct Hocc as (_ & ? & _); lia].
    apply Hbest. unfold occ. unfold len in *. split; [lia|]. split; [lia|].
    intros x Hx. rewrite ix_app_l by (unfold len; lia). f_equal. lia.
  - intros Hn. rewrite <- (ix_of_nat zs 0).
    destruct (Hztab (Z.of_nat 0)) as (v & Hv & Hmax); [unfold len; lia|].
    rewrite Hv. f_equal.
    assert (len text <= v); [|destruct Hmax as [(_ & _ & ? & _) _]; lia].
    apply (zmax_longest _ _ _ _ _ Hmax). pose proof (len_nonneg text).
    split; [lia|]. split; [lia|]. split; [lia|].
    intros x Hx. rewrite ix_app_l by lia. f_equal.
Qed.

Lemma text_prefix_of_pattern_witness :
  exists kmp, KMPSearch 16 (str "ABC") (str "ABCDE") = Done kmp /\
              kmp !! 2%nat = Some 3.
Proof.
  destruct (text_prefix_of_pattern (str "ABC") (str "ABCDE"))
    as (kmp & zs & Hrun & Hk & _);
    [by vm_compute|simpl; lia|by exists (str "DE")|].
  exists kmp. split; [apply Hrun; simpl; lia|].
  apply (Hk 2%nat). simpl; lia.
Defined.

(** X7.  On inputs of fewer than [2^31] symbols, an entry of the array
    [zAlgorithmSearch] returns is 0 exactly where the text symbol differs
    from the first symbol of the pattern. *)
Theorem zAlgorithmSearch_zero (text pattern : list ascii) :
  fits_int text -> fits_int pattern -> (0 < length pattern)%nat ->
  exists res,
    (forall fuel, (length text + length pattern <= fuel)%nat ->
       zAlgorithmSearch fuel text pattern = Done res) /\
    (forall i, (i < length text)%nat ->
       res !! i = Some 0 <-> text !! i <> pattern !! 0%nat).
Proof.
  intros Hft Hfp Hp.
  destruct (zAlgorithmSearch_stable text pattern Hft Hfp Hp)
    as (res & Hrun & Hlen & Htab).
  exists res. split; [done|]. intros i Hi.
  destruct (Htab (Z.of_nat i)) as (v & Hv & [Hzm Hstop]); [unfold len; lia|].
  rewrite <- !ix_of_nat, Hv. split.
  - intros [= ->]. intros He. apply Hstop; [unfold len; lia..|].
    rewrite Z.add_0_r. by rewrite He.
  - intros Hne. f_equal. destruct Hzm as (Hv0 & _ & _ & Hx).
    destruct (Z_le_gt_dec v 0); [lia|]. exfalso. apply Hne.
    specialize (Hx 0). rewrite Z.add_0_r in Hx. symmetry. apply Hx. lia.
Qed.

Lemma zAlgorithmSearch_zero_witness :
  exists res, zAlgorithmSearch 9 (str "xyzabc") (str "abc") = Done res /\
              res !! 1%nat = Some 0.
Proof.
  destruct (zAlgorithmSearch_zero (str "xyzabc") (str "abc")) as (res & Hrun & Hz);
    [by vm_compute|by vm_compute|simpl; lia|].
  exists res. split; [apply Hrun; simpl; lia|].
  apply (Hz 1%nat); [simpl; lia|]. simpl. discriminate.
Defined.

(** X8.  In the array [KMPSearch] returns on inputs of fewer than [2^31]
    symbols, the entry at [i] is at least 1
    when [text[i]] is the first symbol of the pattern, and is 0 when
    [text[i]] does not occur in the pattern at all. *)
Theorem KMPSearch_zero (text pattern : list ascii) :
  fits_int text -> fits_int pattern -> (0 < length pattern)%nat ->
  exists res,
    (forall fuel, (2 * (length text + length pattern) <= fuel)%nat ->
       KMPSearch fuel text pattern = Done res) /\
    (forall i, (i < length text)%nat -> text !! i = pattern !! 0%nat ->
       exists v, res !! i = Some v /\ 1 <= v) /\
    (forall i c, text !! i = Some c -> c ∉ pattern -> res !! i = Some 0).
Proof.
  intros Hft Hfp Hp.
  destruct (KMPSearch_stable text pattern Hft Hfp Hp) as (res & Hrun & Hlen & Htab).
  exists res. split; [done|]. split.
  - intros i Hi He.
    destruct (Htab (Z.of_nat i)) as (v & Hv & [Hocc Hbest]); [unfold len; lia|].
    exists v. rewrite <- ix_of_nat. split; [done|].
    apply Hbest. unfold occ, len. split; [lia|]. split; [lia|].
    intros x Hx. replace x with 0 by lia.
    replace (Z.of_nat i + 1 - 1 + 0) with (Z.of_nat i) by lia.
    rewrite (ix_of_nat text), He. exact (ix_of_nat pattern 0).
  - intros i c Hc Hnot. pose proof (lookup_lt_Some _ _ _ Hc) as Hi.
    destruct (Htab (Z.of_nat i)) as (v & Hv & [Hocc _]); [unfold len; lia|].
    rewrite <- ix_of_nat, Hv. f_equal. destruct Hocc as (Hv0 & _ & Hx).
    destruct (Z_le_gt_dec v 0); [lia|]. exfalso. apply Hnot.
    specialize (Hx (v - 1)).
    replace (Z.of_nat i + 1 - v + (v - 1)) with (Z.of_nat i) in Hx by lia.
    rewrite ix_of_nat, Hc in Hx.
    replace (v - 1) with (Z.of_nat (Z.to_nat (v - 1))) in Hx by lia.
    rewrite ix_of_nat in Hx. apply list_elem_of_lookup.
    exists (Z.to_nat (v - 1)). apply Hx. lia.
Qed.

Lemma KMPSearch_zero_witness :
  exists res, KMPSearch 20 (str "XYZABC") (str "ABC") = Done res /\
              res !! 1%nat = Some 0.
Proof.
  destruct (KMPSearch_zero (str "XYZABC") (str "ABC")) as (res & Hrun & _ & Hz);
    [by vm_compute|by vm_compute|simpl; lia|].
  exists res. split; [apply Hrun; simpl; lia|].
  apply (Hz 1%nat "Y"%char); [reflexivity|].
  intros Hin. do 3 (apply elem_of_cons in Hin as [Hin|Hin]; [discriminate Hin|]).
  by apply elem_of_nil in Hin.
Defined.

Lemma len_replicate {A : Type} (n : nat) (x : A) : len (replicate n x) = Z.of_nat n.
Proof. unfold len. by rewrite length_replicate. Qed.

Lemma ix_replicate {A : Type} (n : nat) (x : A) (i : Z) :
  0 <= i < Z.of_nat n -> ix (replicate n x) i = Some x.
Proof.
  intros Hi. unfold ix. destruct (Z.leb_spec 0 i); [|lia].
  apply lookup_replicate_2. lia.
Qed.

Lemma len_tabulate (f : nat -> Z) (n : nat) : len (f <$> seq 0 n) = Z.of_nat n.
Proof. unfold len. by rewrite length_fmap, length_seq. Qed.

Lemma ix_tabulate (f : nat -> Z) (n : nat) (i : Z) :
  0 <= i < Z.of_nat n -> ix (f <$> seq 0 n) i = Some (f (Z.to_nat i)).
Proof.
  intros Hi. unfold ix. destruct (Z.leb_spec 0 i); [|lia].
  rewrite list_lookup_fmap, lookup_seq_lt by lia. done.
Qed.

(** In strings of one repeated symbol every prefix occurs everywhere. *)
Lemma occ_replicate (c : ascii) (m n : nat) (k i : Z) :
  0 <= k <= Z.of_nat m -> k <= i <= Z.of_nat n ->
  occ (replicate m c) (replicate n c) k i.
Proof.
  intros Hk Hi. unfold occ. rewrite !len_replicate.
  split; [done|]. split; [done|]. intros x Hx. by rewrite !ix_replicate by lia.
Qed.

Lemma zm_replicate (c : ascii) (m n : nat) (i z : Z) :
  0 <= z <= Z.of_nat m -> 0 <= i -> i + z <= Z.of_nat n ->
  zm (replicate m c) (replicate n c) i z.
Proof.
  intros Hz Hi Hiz. unfold zm. rewrite !len_replicate.
  split; [done|]. split; [done|]. split; [done|].
  intros x Hx. by rewrite !ix_replicate by lia.
Qed.

(** X9.  On a pattern of [n < 2^31] equal symbols [computeLPS] returns
    [0, 1, ..., n-1]: every comparison succeeds and [j] follows [i]. *)
Theorem computeLPS_all_same (c : ascii) (n fuel : nat) :
  fits_int (replicate n c) -> (2 * n <= fuel)%nat ->
  computeLPS fuel (replicate n c) = Done (Z.of_nat <$> seq 0 n).
Proof.
  intros Hfp Hfuel.
  destruct (computeLPS_stable (replicate n c) Hfp) as (lps & Hrun & Hlen & Htab).
  rewrite length_replicate in Hrun. rewrite len_replicate in Hlen, Htab.
  rewrite (Hrun fuel Hfuel). f_equal.
  apply ix_ext; [by rewrite len_tabulate|].
  intros i Hi. rewrite Hlen in Hi. rewrite ix_tabulate by done.
  destruct (Htab i Hi) as (v & Hv & (Hle & _ & Hbest)). rewrite Hv. f_equal.
  assert (i <= v); [|lia].
  apply Hbest; [lia|]. apply occ_replicate; lia.
Qed.

Lemma computeLPS_all_same_witness :
  computeLPS 10 (replicate 5 "A"%char) = Done [0; 1; 2; 3; 4].
Proof.
  apply (computeLPS_all_same "A"%char 5 10); [by vm_compute|simpl; lia].
Defined.

(** X10.  On a string of [n < 2^31] equal symbols [computeZArray] returns
    [n, n-1, ..., 1]: every suffix matches the prefix to the end. *)
Theorem computeZArray_all_same (c : ascii) (n fuel : nat) :
  fits_int (replicate n c) -> (n <= fuel)%nat ->
  computeZArray fuel (replicate n c)
    = Done ((fun i => Z.of_nat (n - i)) <$> seq 0 n).
Proof.
  intros Hfs Hfuel.
  destruct (computeZArray_stable (replicate n c) Hfs) as (za & Hrun & Hlen & Htab).
  rewrite length_replicate in Hrun. rewrite len_replicate in Hlen, Htab.
  rewrite (Hrun fuel Hfuel). f_equal.
  apply ix_ext; [by rewrite len_tabulate|].
  intros i Hi. rewrite Hlen in Hi. rewrite ix_tabulate by done.
  destruct (Htab i Hi) as (v & Hv & Hmax). rewrite Hv. f_equal.
  apply (zmax_unique _ _ _ _ _ Hmax). split.
  - apply zm_replicate; lia.
  - rewrite !len_replicate. lia.
Qed.

Lemma computeZArray_all_same_witness :
  computeZArray 5 (replicate 5 "a"%char) = Done [5; 4; 3; 2; 1].
Proof.
  apply (computeZArray_all_same "a"%char 5 5); [by vm_compute|simpl; lia].
Defined.

(** X11.  On a text of [n] and a pattern of [m >= 1] copies of one
    symbol, both below [2^31], where the occurrences overlap, [KMPSearch] records
    [min(i + 1, m)] at [i] and [zAlgorithmSearch] records
    [min(m, n - i)]. *)
Theorem search_all_same (c : ascii) (n m fuel : nat) :
  fits_int (replicate n c) -> fits_int (replicate m c) ->
  (0 < m)%nat -> (2 * (n + m) <= fuel)%nat ->
  KMPSearch fuel (replicate n c) (replicate m c)
    = Done ((fun i => Z.of_nat (S i `min` m)) <$> seq 0 n) /\
  zAlgorithmSearch fuel (replicate n c) (replicate m c)
    = Done ((fun i => Z.of_nat (m `min` (n - i))) <$> seq 0 n).
Proof.
  intros Hft Hfp Hm Hfuel.
  assert (Hp : (0 < length (replicate m c))%nat) by (by rewrite length_replicate).
  destruct (KMPSearch_stable (replicate n c) (replicate m c) Hft Hfp Hp)
    as (kmp & Hkrun & Hklen & Hktab).
  destruct (zAlgorithmSearch_stable (replicate n c) (replicate m c) Hft Hfp Hp)
    as (zs & Hzrun & Hzlen & Hztab).
  rewrite !length_replicate in Hkrun, Hzrun.
  rewrite len_replicate in Hklen, Hktab, Hzlen, Hztab.
  rewrite Hkrun, Hzrun by lia. split; f_equal.
  - apply ix_ext; [by rewrite len_tabulate|].
    intros i Hi. rewrite Hklen in Hi. rewrite ix_tabulate by done.
    destruct (Hktab i Hi) as (v & Hv & Hkmp). rewrite Hv. f_equal.
    apply (is_kmp_unique _ _ _ _ _ Hkmp). split.
    + apply occ_replicate; lia.
    + intros v' (Hv' & Hi' & _). rewrite len_replicate in Hv'. lia.
  - apply ix_ext; [by rewrite len_tabulate|].
    intros i Hi. rewrite Hzlen in Hi. rewrite ix_tabulate by done.
    destruct (Hztab i Hi) as (v & Hv & Hmax). rewrite Hv. f_equal.
    apply (zmax_unique _ _ _ _ _ Hmax). split.
    + apply zm_replicate; lia.
    + rewrite !len_replicate. lia.
Qed.

Lemma search_all_same_witness :
  KMPSearch 14 (replicate 5 "a"%char) (replicate 2 "a"%char) = Done [1; 2; 2; 2; 2] /\
  zAlgorithmSearch 14 (replicate 5 "a"%char) (replicate 2 "a"%char)
    = Done [2; 2; 2; 2; 1].
Proof.
  apply (search_all_same "a"%char 5 2 14);
    [by vm_compute|by vm_compute|simpl; lia..].
Defined.

Lemma zm_shorter (p t : list ascii) (i z k : Z) :
  zm p t i z -> 0 <= k <= z -> zm p t i k.
Proof.
  intros (Hz & Hi & Hiz & Hx) Hk. repeat split; try lia.
  intros x Hr. apply Hx. lia.
Qed.

(** X12.  How [KMPSearch] uses the array of [computeLPS], on inputs of
    fewer than [2^31] symbols: from one text
    position to the next the recorded length either grows by one, or
    drops to 0, or drops to at most [lps[v - 1] + 1], where [v >= 1] is the
    length recorded before; this covers the fold after a full match. *)
Theorem KMPSearch_fallback (text pattern : list ascii) :
  fits_int text -> fits_int pattern -> (0 < length pattern)%nat ->
  exists lps kmp,
    (forall fuel, (2 * (length text + length pattern) <= fuel)%nat ->
       computeLPS fuel pattern = Done lps /\
       KMPSearch fuel text pattern = Done kmp) /\
    (forall i v w, kmp !! i = Some v -> kmp !! S i = Some w ->
       w = v + 1 \/ w = 0 \/
       (1 <= v /\ exists b, lps !! Z.to_nat (v - 1) = Some b /\ w <= b + 1)).
Proof.
  intros Hft Hfp Hp.
  destruct (computeLPS_stable pattern Hfp) as (lps & Hlrun & Hllen & Hltab).
  destruct (KMPSearch_stable text pattern Hft Hfp Hp)
    as (kmp & Hkrun & Hklen & Hktab).
  exists lps, kmp. split.
  { intros fuel Hfuel. split; [apply Hlrun|apply Hkrun]; lia. }
  intros i v w Hv Hw.
  pose proof (lookup_lt_Some _ _ _ Hw) as Hi. apply length_len in Hklen.
  rewrite <- ix_of_nat in Hv, Hw.
  destruct (Hktab (Z.of_nat i)) as (v' & Hv' & [Hocc Hbest]); [unfold len; lia|].
  destruct (Hktab (Z.of_nat (S i))) as (w' & Hw' & [Hocc' _]); [unfold len; lia|].
  rewrite Hv in Hv'. injection Hv' as <-. rewrite Hw in Hw'. injection Hw' as <-.
  destruct (Z_le_gt_dec w 0) as [|Hpos]; [right; left; destruct Hocc'; lia|].
  replace (Z.of_nat (S i) + 1) with (Z.of_nat i + 1 + 1) in Hocc' by lia.
  replace w with (w - 1 + 1) in Hocc' by lia.
  apply occ_shrink' in Hocc' as [Hocc' _]; [|lia].
  pose proof (Hbest _ Hocc') as Hle.
  destruct (Z.eq_dec (w - 1) v) as [|Hne]; [left; lia|]. right; right.
  assert (Hvm : 1 <= v <= len pattern) by (destruct Hocc; lia).
  split; [lia|].
  destruct (Hltab (v - 1)) as (b & Hb & (_ & _ & Hbbest)); [lia|].
  exists b. replace (v - 1) with (Z.of_nat (Z.to_nat (v - 1))) in Hb by lia.
  rewrite ix_of_nat in Hb. split; [done|].
  assert (w - 1 <= b); [|lia].
  apply Hbbest; [lia|]. replace (v - 1 + 1) with v by lia.
  apply (occ_overlap pattern text (w - 1) v (Z.of_nat i + 1)); [done..|lia].
Qed.

Lemma KMPSearch_fallback_witness :
  exists lps kmp,
    computeLPS 20 (str "abab") = Done lps /\
    KMPSearch 20 (str "ababab") (str "abab") = Done kmp /\
    exists b, lps !! 3%nat = Some b /\ 3 <= b + 1.
Proof.
  destruct (KMPSearch_fallback (str "ababab") (str "abab"))
    as (lps & kmp & Hrun & Hstep); [by vm_compute|by vm_compute|simpl; lia|].
  exists lps, kmp. destruct (Hrun 20%nat) as [Hl Hk]; [simpl; lia|].
  split; [exact Hl|]. split; [exact Hk|].
  assert (Hkmp : kmp = [1; 2; 3; 4; 3; 4]).
  { assert (E : KMPSearch 20 (str "ababab") (str "abab") = Done [1; 2; 3; 4; 3; 4])
      by reflexivity.
    rewrite Hk in E. by injection E. }
  destruct (Hstep 3%nat 4 3) as [H|[H|[_ H]]];
    [by rewrite Hkmp|by rewrite Hkmp|lia|lia|].
  exact H.
Defined.

(** X13.  The arrays of [computeLPS] and [computeZArray] for one string
    of fewer than [2^31] symbols describe the same borders: a positive entry [lps[i] = v] is a match of
    length at least [v] at offset [i + 1 - v] of the Z-array; and a match
    [Z[j]] that reaches position [i] (with [1 <= j <= i]) gives
    [lps[i] >= i + 1 - j]. *)
Theorem computeLPS_computeZArray (s : list ascii) :
  fits_int s ->
  exists lps za,
    (forall fuel, (2 * length s <= fuel)%nat ->
       computeLPS fuel s = Done lps /\ computeZArray fuel s = Done za) /\
    (forall i v, lps !! i = Some v -> 1 <= v ->
       exists z, za !! (S i - Z.to_nat v)%nat = Some z /\ v <= z) /\
    (forall i j z, (1 <= j <= i)%nat -> (i < length s)%nat ->
       za !! j = Some z -> Z.of_nat (S i - j) <= z ->
       exists v, lps !! i = Some v /\ Z.of_nat (S i - j) <= v).
Proof.
  intros Hfs.
  destruct (computeLPS_stable s Hfs) as (lps & Hlrun & Hllen & Hltab).
  destruct (computeZArray_stable s Hfs) as (za & Hzrun & Hzlen & Hztab).
  exists lps, za. split; [|split].
  - intros fuel Hfuel. split; [apply Hlrun|apply Hzrun]; lia.
  - intros i v Hv Hpos.
    pose proof (lookup_lt_Some _ _ _ Hv) as Hi. apply length_len in Hllen.
    rewrite <- ix_of_nat in Hv.
    destruct (Hltab (Z.of_nat i)) as (v' & Hv' & (Hle & Hocc & _)); [unfold len; lia|].
    rewrite Hv in Hv'. injection Hv' as <-.
    apply occ_zm in Hocc.
    replace (Z.of_nat i + 1 - v) with (Z.of_nat (S i - Z.to_nat v)) in Hocc by lia.
    destruct (Hztab (Z.of_nat (S i - Z.to_nat v))) as (z & Hz & Hmax);
      [unfold len; lia|].
    exists z. rewrite <- ix_of_nat. split; [done|].
    by apply (zmax_longest _ _ _ _ _ Hmax).
  - intros i j z Hj Hi Hz Hreach. rewrite <- ix_of_nat in Hz.
    destruct (Hztab (Z.of_nat j)) as (z' & Hz' & [Hzm _]); [unfold len; lia|].
    rewrite Hz in Hz'. injection Hz' as <-.
    destruct (Hltab (Z.of_nat i)) as (v & Hv & (_ & _ & Hbest)); [unfold len; lia|].
    exists v. rewrite <- ix_of_nat. split; [done|].
    apply Hbest; [lia|]. apply occ_zm.
    replace (Z.of_nat i + 1 - Z.of_nat (S i - j)) with (Z.of_nat j) by lia.
    apply (zm_shorter _ _ _ z); [done|lia].
Qed.

Lemma computeLPS_computeZArray_witness :
  exists lps za,
    computeLPS 8 (str "abab") = Done lps /\
    computeZArray 8 (str "abab") = Done za /\
    exists v, lps !! 3%nat = Some v /\ 2 <= v.
Proof.
  destruct (computeLPS_computeZArray (str "abab")) as (lps & za & Hrun & _ & Hz);
    [by vm_compute|].
  exists lps, za. destruct (Hrun 8%nat) as [Hl Hzr]; [simpl; lia|].
  split; [exact Hl|]. split; [exact Hzr|].
  assert (Hza : za = [4; 0; 2; 0]).
  { assert (E : computeZArray 8 (str "abab") = Done [4; 0; 2; 0]) by reflexivity.
    rewrite Hzr in E. by injection E. }
  apply (Hz 3%nat 2%nat 2); [lia|simpl; lia|by rewrite Hza|simpl; lia].
Defined.

Lemma len_app {A : Type} (v w : list A) : len (v ++ w) = len v + len w.
Proof. unfold len. rewrite length_app. lia. Qed.

Lemma ix_app_r {A : Type} (v w : list A) (i : Z) :
  0 <= i -> ix (v ++ w) (len v + i) = ix w i.
Proof.
  intros Hi. unfold ix, len.
  destruct (Z.leb_spec 0 (Z.of_nat (length v) + i)); [|lia].
  destruct (Z.leb_spec 0 i); [|lia].
  rewrite lookup_app_r by lia. f_equal. lia.
Qed.

Lemma ix_take {A : Type} (v : list A) (k : nat) (i : Z) :
  0 <= i < Z.of_nat k -> ix (take k v) i = ix v i.
Proof.
  intros Hi. unfold ix. destruct (Z.leb_spec 0 i); [|lia].
  apply lookup_take_lt. lia.
Qed.

Lemma ix_drop {A : Type} (v : list A) (k : nat) (i : Z) :
  0 <= i -> ix (drop k v) i = ix v (Z.of_nat k + i).
Proof.
  intros Hi. unfold ix. destruct (Z.leb_spec 0 i); [|lia].
  destruct (Z.leb_spec 0 (Z.of_nat k + i)); [|lia].
  rewrite lookup_drop. f_equal. lia.
Qed.

Lemma fits_int_app {A : Type} (v w : list A) :
  fits_int (v ++ w) -> fits_int v /\ fits_int w.
Proof.
  unfold fits_int. rewrite len_app.
  pose proof (len_nonneg v). pose proof (len_nonneg w). lia.
Qed.

(** What ends inside [t1] does not depend on what follows [t1]. *)
Lemma occ_app_l (p t1 t2 : list ascii) (k i : Z) :
  i <= len t1 -> occ p (t1 ++ t2) k i <-> occ p t1 k i.
Proof.
  intros Hi. unfold occ. rewrite len_app. pose proof (len_nonneg t2).
  split; intros (Hk & Hr & Hx); (split; [done|]); (split; [lia|]);
    intros x Hxr; specialize (Hx x Hxr);
    rewrite ix_app_l in * by lia; done.
Qed.

Lemma occ_app_both (p1 p2 : list ascii) (k i : Z) :
  i <= len p1 -> occ (p1 ++ p2) (p1 ++ p2) k i <-> occ p1 p1 k i.
Proof.
  intros Hi. unfold occ. rewrite len_app. pose proof (len_nonneg p2).
  split; intros (Hk & Hr & Hx); (split; [lia|]); (split; [lia|]);
    intros x Hxr; specialize (Hx x Hxr);
    rewrite !ix_app_l in * by lia; done.
Qed.

(** What starts inside [t2] does not depend on what precedes [t2]. *)
Lemma zmax_app_r (p t1 t2 : list ascii) (i z : Z) :
  0 <= i -> zmax p (t1 ++ t2) (len t1 + i) z <-> zmax p t2 i z.
Proof.
  intros Hi. unfold zmax, zm. rewrite len_app. pose proof (len_nonneg t1).
  replace (len t1 + i + z) with (len t1 + (i + z)) by lia.
  split.
  - intros [(Hz & _ & Hiz & Hx) Hstop]. split.
    + split; [done|]. split; [done|]. split; [lia|].
      intros x Hxr. rewrite (Hx x Hxr).
      replace (len t1 + i + x) with (len t1 + (i + x)) by lia.
      apply ix_app_r. lia.
    + intros H1 H2. rewrite <- (ix_app_r t1 t2) by lia. apply Hstop; lia.
  - intros [(Hz & _ & Hiz & Hx) Hstop]. split.
    + split; [done|]. split; [lia|]. split; [lia|].
      intros x Hxr. rewrite (Hx x Hxr).
      replace (len t1 + i + x) with (len t1 + (i + x)) by lia.
      symmetry. apply ix_app_r. lia.
    + intros H1 H2. rewrite ix_app_r by lia. apply Hstop; lia.
Qed.

(** X14.  [KMPSearch] works on line: the entry at [i] depends on the text
    up to [i] only, so the array for a text followed by more text (of
    fewer than [2^31] symbols in all) begins with the array for the
    text. *)
Theorem KMPSearch_online (text more pattern : list ascii) :
  fits_int (text ++ more) -> fits_int pattern -> (0 < length pattern)%nat ->
  exists kmp rest,
    forall fuel,
      (2 * (length text + length more + length pattern) <= fuel)%nat ->
      KMPSearch fuel text pattern = Done kmp /\
      KMPSearch fuel (text ++ more) pattern = Done (kmp ++ rest).
Proof.
  intros Hfa Hfp Hp. destruct (fits_int_app _ _ Hfa) as [Hft _].
  destruct (KMPSearch_stable text pattern Hft Hfp Hp) as (kmp & Hrun & Hlen & Htab).
  destruct (KMPSearch_stable (text ++ more) pattern Hfa Hfp Hp)
    as (all & Hrun' & Hlen' & Htab').
  rewrite length_app in Hrun'. rewrite len_app in Hlen', Htab'.
  exists kmp, (drop (length text) all). intros fuel Hfuel.
  split; [apply Hrun; lia|]. rewrite Hrun' by lia. f_equal.
  rewrite <- (take_drop (length text) all) at 1. f_equal.
  pose proof (len_nonneg more).
  assert (Hl : len (take (length text) all) = len text).
  { unfold len in *. rewrite length_take_le; lia. }
  apply ix_ext; [congruence|].
  intros i Hi. rewrite Hl in Hi. rewrite ix_take by (unfold len in Hi; lia).
  destruct (Htab i Hi) as (v & Hv & [Hocc Hbest]).
  destruct (Htab' i) as (v' & Hv' & Hkmp'); [lia|].
  rewrite Hv, Hv'. f_equal. apply (is_kmp_unique _ _ _ _ _ Hkmp'). split.
  - apply (occ_app_l pattern text more); [lia|done].
  - intros w Hw. apply Hbest. apply (occ_app_l pattern text more) in Hw; [done|lia].
Qed.

Lemma KMPSearch_online_witness :
  exists kmp rest,
    KMPSearch 20 (str "abab") (str "abab") = Done kmp /\
    KMPSearch 20 (str "ababab") (str "abab") = Done (kmp ++ rest).
Proof.
  destruct (KMPSearch_online (str "abab") (str "ab") (str "abab"))
    as (kmp & rest & Hrun); [by vm_compute|by vm_compute|simpl; lia|].
  exists kmp, rest. apply (Hrun 20%nat). simpl; lia.
Defined.

(** X15.  [computeLPS] works on line as well: the array for a pattern
    followed by more symbols (fewer than [2^31] in all) begins with the
    array for the pattern. *)
Theorem computeLPS_online (pattern more : list ascii) :
  fits_int (pattern ++ more) ->
  exists lps rest,
    forall fuel, (2 * (length pattern + length more) <= fuel)%nat ->
      computeLPS fuel pattern = Done lps /\
      computeLPS fuel (pattern ++ more) = Done (lps ++ rest).
Proof.
  intros Hfa. destruct (fits_int_app _ _ Hfa) as [Hfp _].
  destruct (computeLPS_stable pattern Hfp) as (lps & Hrun & Hlen & Htab).
  destruct (computeLPS_stable (pattern ++ more) Hfa)
    as (all & Hrun' & Hlen' & Htab').
  rewrite length_app in Hrun'. rewrite len_app in Hlen', Htab'.
  exists lps, (drop (length pattern) all). intros fuel Hfuel.
  split; [apply Hrun; lia|]. rewrite Hrun' by lia. f_equal.
  rewrite <- (take_drop (length pattern) all) at 1. f_equal.
  pose proof (len_nonneg more).
  assert (Hl : len (take (length pattern) all) = len pattern).
  { unfold len in *. rewrite length_take_le; lia. }
  apply ix_ext; [congruence|].
  intros i Hi. rewrite Hl in Hi. rewrite ix_take by (unfold len in Hi; lia).
  destruct (Htab i Hi) as (v & Hv & (Hle & Hocc & Hbest)).
  destruct (Htab' i) as (v' & Hv' & (Hle' & Hocc' & Hbest')); [lia|].
  rewrite Hv, Hv'. f_equal.
  apply (occ_app_both pattern more) in Hocc'; [|lia].
  assert (v' <= v) by (by apply Hbest).
  assert (v <= v'); [|lia].
  apply Hbest'; [done|]. apply (occ_app_both pattern more); [lia|done].
Qed.

Lemma computeLPS_online_witness :
  exists lps rest,
    computeLPS 12 (str "ABAB") = Done lps /\
    computeLPS 12 (str "ABABAB") = Done (lps ++ rest).
Proof.
  destruct (computeLPS_online (str "ABAB") (str "AB")) as (lps & rest & Hrun);
    [by vm_compute|].
  exists lps, rest. apply (Hrun 12%nat). simpl; lia.
Defined.

(** X16.  [zAlgorithmSearch] looks forward only: the entry at [i] depends
    on the text from [i] on, so the array for a text preceded by other text
    (of fewer than [2^31] symbols in all) ends with the array for the
    text. *)
Theorem zAlgorithmSearch_suffix (before text pattern : list ascii) :
  fits_int (before ++ text) -> fits_int pattern -> (0 < length pattern)%nat ->
  exists front zs,
    forall fuel,
      (length before + length text + length pattern <= fuel)%nat ->
      zAlgorithmSearch fuel text pattern = Done zs /\
      zAlgorithmSearch fuel (before ++ text) pattern = Done (front ++ zs).
Proof.
  intros Hfa Hfp Hp. destruct (fits_int_app _ _ Hfa) as [_ Hft].
  destruct (zAlgorithmSearch_stable text pattern Hft Hfp Hp)
    as (zs & Hrun & Hlen & Htab).
  destruct (zAlgorithmSearch_stable (before ++ text) pattern Hfa Hfp Hp)
    as (all & Hrun' & Hlen' & Htab').
  rewrite length_app in Hrun'. rewrite len_app in Hlen', Htab'.
  exists (take (length before) all), zs. intros fuel Hfuel.
  split; [apply Hrun; lia|]. rewrite Hrun' by lia. f_equal.
  rewrite <- (take_drop (length before) all) at 1. f_equal.
  pose proof (len_nonneg before).
  assert (Hl : len (drop (length before) all) = len text).
  { unfold len in *. rewrite length_drop. lia. }
  apply ix_ext; [congruence|].
  intros i Hi. rewrite Hl in Hi. rewrite ix_drop by lia.
  destruct (Htab i Hi) as (v & Hv & Hmax).
  destruct (Htab' (len before + i)) as (v' & Hv' & Hmax'); [lia|].
  fold (len before). rewrite Hv, Hv'. f_equal.
  apply (zmax_app_r pattern before text) in Hmax'; [|lia].
  by apply (zmax_unique pattern text i).
Qed.

Lemma zAlgorithmSearch_suffix_witness :
  exists front zs,
    zAlgorithmSearch 9 (str "abc") (str "abc") = Done zs /\
    zAlgorithmSearch 9 (str "xyzabc") (str "abc") = Done (front ++ zs).
Proof.
  destruct (zAlgorithmSearch_suffix (str "xyz") (str "abc") (str "abc"))
    as (front & zs & Hrun); [by vm_compute|by vm_compute|simpl; lia|].
  exists front, zs. apply (Hrun 9%nat). simpl; lia.
Defined.

(** ** The two programs *)

(** Replaces the calls of the four functions on [fuel >= 64] by their
    results: those on fuel 64, by monotonicity. *)
Ltac settle_call mono c fuel Hfuel :=
  let c64 := eval pattern fuel in c in
  match c64 with
  | ?f _ =>
      let r := eval vm_compute in (f 64%nat) in
      let E := fresh "E" in
      assert (E : c = r)
        by (apply (mono 64%nat fuel); [exact Hfuel|vm_compute; reflexivity]);
      rewrite !E; clear E
  end.

Ltac settle_calls fuel Hfuel :=
  repeat match goal with
  | |- context [computeLPS fuel ?p] =>
      settle_call computeLPS_mono (computeLPS fuel p) fuel Hfuel
  | |- context [KMPSearch fuel ?t ?p] =>
      settle_call KMPSearch_mono (KMPSearch fuel t p) fuel Hfuel
  | |- context [computeZArray fuel ?s] =>
      settle_call computeZArray_mono (computeZArray fuel s) fuel Hfuel
  | |- context [zAlgorithmSearch fuel ?t ?p] =>
      settle_call zAlgorithmSearch_mono (zAlgorithmSearch fuel t p) fuel Hfuel
  end.

(** X17.  The program of knuth_morris_pratt.cc runs to its end: none of
    the 17 assertions of [testComputeLPS] and [testKMPSearch] fails, the
    two samples print their arrays, and [main] returns 0. *)
Theorem knuth_morris_pratt_main (fuel : nat) :
  (64 <= fuel)%nat ->
  knuth_morris_pratt.main fuel EmptyString
    = Ok 0 knuth_morris_pratt.transcript.
Proof.
  intros Hfuel.
  unfold knuth_morris_pratt.main, knuth_morris_pratt.testComputeLPS,
    knuth_morris_pratt.testKMPSearch, knuth_morris_pratt.runComputeLPSSample,
    knuth_morris_pratt.runKMPSearchSample.
  cbv zeta. settle_calls fuel Hfuel. by vm_compute.
Qed.

Lemma knuth_morris_pratt_main_witness :
  knuth_morris_pratt.main 64 EmptyString = Ok 0 knuth_morris_pratt.transcript.
Proof. apply (knuth_morris_pratt_main 64). simpl; lia. Defined.

(** X18.  The program of the Z-algorithm file runs to its end: none of
    the 23 assertions of [testComputeZArray] and [testZAlgorithmSearch]
    fails, the two samples print their arrays, and [main] returns 0. *)
Theorem z_algorithm_main (fuel : nat) :
  (64 <= fuel)%nat ->
  z_algorithm.main fuel EmptyString = Ok 0 z_algorithm.transcript.
Proof.
  intros Hfuel.
  unfold z_algorithm.main, z_algorithm.testComputeZArray,
    z_algorithm.testZAlgorithmSearch, z_algorithm.computeZArraySample,
    z_algorithm.zAlgorithmSearchSample.
  cbv zeta. settle_calls fuel Hfuel. by vm_compute.
Qed.

Lemma z_algorithm_main_witness :
  z_algorithm.main 64 EmptyString = Ok 0 z_algorithm.transcript.
Proof. apply (z_algorithm_main 64). simpl; lia. Defined.

(** ** Renaming the symbols *)

Section Renaming.
Variable f : ascii -> ascii.
Hypothesis f_inj : forall a b, f a = f b -> a = b.

Lemma len_fmap (v : list ascii) : len (f <$> v) = len v.
Proof. unfold len. by rewrite length_fmap. Qed.

Lemma rd_fmap (v : list ascii) (i : Z) :
  rd (f <$> v) i = bind (rd v i) (fun a => Done (f a)).
Proof.
  unfold rd, ix. destruct (0 <=? i); [|done].
  rewrite list_lookup_fmap. by destruct (v !! Z.to_nat i).
Qed.

Lemma ceq_fmap (a b : ascii) : ceq (f a) (f b) = ceq a b.
Proof.
  destruct (ceq a b) eqn:E.
  - apply ceq_true in E as ->. by apply ceq_true.
  - apply ceq_false. apply ceq_false in E. intros H. by apply E, f_inj.
Qed.

Lemma computeLPS_body_fmap (p : list ascii) (s : lps_state) :
  computeLPS_body (f <$> p) s = computeLPS_body p s.
Proof.
  destruct s as [i j lps]. unfold computeLPS_body. rewrite !rd_fmap.
  destruct (rd p i); [|done..]. simpl. destruct (rd p j); [|done..]. simpl.
  by rewrite ceq_fmap.
Qed.

Lemma KMPSearch_body_fmap (t p : list ascii) (n m : Z) (lps_pattern : list Z)
    (s : kmp_state) :
  KMPSearch_body (f <$> t) (f <$> p) n m lps_pattern s
    = KMPSearch_body t p n m lps_pattern s.
Proof.
  destruct s as [i j lps]. unfold KMPSearch_body. rewrite !rd_fmap.
  destruct (rd p j); [|reflexivity..]. simpl.
  destruct (rd t i); [|reflexivity..]. simpl.
  rewrite ceq_fmap. apply bind_ext. intros [i' j' lps'].
  destruct (j' =? m); [reflexivity|]. f_equal.
  destruct (i' <? n); [|reflexivity]. rewrite !rd_fmap.
  destruct (rd p j'); [|reflexivity..]. simpl.
  destruct (rd t i'); [|reflexivity..]. simpl.
  by rewrite ceq_fmap.
Qed.

Lemma extend_cond_fmap (s : list ascii) (n L R : Z) :
  extend_cond (f <$> s) n L R = extend_cond s n L R.
Proof.
  unfold extend_cond. destruct (R <? n); [|done]. rewrite !rd_fmap.
  destruct (rd s (R - L)); [|done..]. simpl. destruct (rd s R); [|done..]. simpl.
  by rewrite ceq_fmap.
Qed.

Lemma search_extend_cond_fmap (t p : list ascii) (m n L R : Z) :
  search_extend_cond (f <$> t) (f <$> p) m n L R = search_extend_cond t p m n L R.
Proof.
  unfold search_extend_cond. destruct (R <? m); [|done].
  destruct (R - L <? n); [|done]. rewrite !rd_fmap.
  destruct (rd t R); [|done..]. simpl. destruct (rd p (R - L)); [|done..]. simpl.
  by rewrite ceq_fmap.
Qed.

Lemma computeZArray_body_fmap (fuel : nat) (s : list ascii) (n : Z) (st : z_state) :
  computeZArray_body fuel (f <$> s) n st = computeZArray_body fuel s n st.
Proof.
  destruct st as [i L R za]. unfold computeZArray_body.
  by rewrite !(while_ext _ _ _ _ (extend_cond_fmap s n i) (fun R => eq_refl)).
Qed.

Lemma zAlgorithmSearch_body_fmap (fuel : nat) (t p : list ascii) (m n : Z)
    (zp : list Z) (st : z_state) :
  zAlgorithmSearch_body fuel (f <$> t) (f <$> p) m n zp st
    = zAlgorithmSearch_body fuel t p m n zp st.
Proof.
  destruct st as [i L R za]. unfold zAlgorithmSearch_body.
  by rewrite !(while_ext _ _ _ _ (search_extend_cond_fmap t p m n i)
                 (fun R => eq_refl)).
Qed.

Lemma computeLPS_fmap (fuel : nat) (p : list ascii) :
  computeLPS fuel (f <$> p) = computeLPS fuel p.
Proof.
  unfold computeLPS. rewrite len_fmap.
  apply bind_ext. intros lps. f_equal.
  apply while_ext; [done|]. apply computeLPS_body_fmap.
Qed.

Lemma computeZArray_fmap (fuel : nat) (s : list ascii) :
  computeZArray fuel (f <$> s) = computeZArray fuel s.
Proof.
  unfold computeZArray. rewrite len_fmap.
  destruct (int_of_size (len s) =? 0); [done|].
  apply bind_ext. intros za0. apply bind_ext. intros za. f_equal.
  apply while_ext; [done|]. intros st. apply computeZArray_body_fmap.
Qed.

(** X19.  The four functions only compare symbols for equality: renaming
    the symbols of the inputs by an injective map changes no outcome, on
    any fuel and for inputs of any length (a renaming keeps the lengths,
    so also the [int]s they are converted to). *)
Theorem renaming_invariance (fuel : nat) (text pattern : list ascii) :
  computeLPS fuel (f <$> pattern) = computeLPS fuel pattern /\
  KMPSearch fuel (f <$> text) (f <$> pattern) = KMPSearch fuel text pattern /\
  computeZArray fuel (f <$> pattern) = computeZArray fuel pattern /\
  zAlgorithmSearch fuel (f <$> text) (f <$> pattern)
    = zAlgorithmSearch fuel text pattern.
Proof.
  split; [apply computeLPS_fmap|]. split; [|split; [apply computeZArray_fmap|]].
  - unfold KMPSearch. rewrite !len_fmap, computeLPS_fmap.
    destruct (int_of_size (len pattern) =? 0); [done|].
    apply bind_ext. intros lps_pattern. apply bind_ext. intros lps. f_equal.
    apply while_ext; [done|]. apply KMPSearch_body_fmap.
  - unfold zAlgorithmSearch. rewrite !len_fmap, computeZArray_fmap.
    apply bind_ext. intros za.
    destruct (int_of_size (len pattern) =? 0); [done|].
    apply bind_ext. intros zp. f_equal.
    apply while_ext; [done|]. apply zAlgorithmSearch_body_fmap.
Qed.

End Renaming.

Lemma renaming_invariance_witness :
  KMPSearch 20 (toggle_case <$> str "ababab") (toggle_case <$> str "abab")
    = KMPSearch 20 (str "ababab") (str "abab").
Proof.
  apply (renaming_invariance toggle_case).
  intros [a0 a1 a2 a3 a4 a5 a6 a7] [b0 b1 b2 b3 b4 b5 b6 b7] H.
  injection H as -> -> -> -> -> H -> ->.
  destruct a5, b5; (reflexivity || discriminate H).
Defined.

(** ** Edge cases of the inputs *)

(** X20.  On the empty text both searches return the empty array,
    whatever the pattern of fewer than [2^31] symbols. *)
Theorem empty_text (pattern : list ascii) (fuel : nat) :
  fits_int pattern ->
  (2 * length pattern <= fuel)%nat ->
  KMPSearch fuel [] pattern = Done [] /\
  zAlgorithmSearch fuel [] pattern = Done [].
Proof.
  intros Hfp Hfuel. destruct pattern as [|c pattern]; [done|].
  destruct (KMPSearch_stable [] (c :: pattern) fits_int_nil Hfp)
    as (kmp & Hk & Hklen & _); [simpl; lia|].
  destruct (zAlgorithmSearch_stable [] (c :: pattern) fits_int_nil Hfp)
    as (zs & Hz & Hzlen & _); [simpl; lia|].
  apply len_nil_inv in Hklen as ->. apply len_nil_inv in Hzlen as ->.
  split; [apply Hk|apply Hz]; simpl in *; lia.
Qed.

Lemma empty_text_witness :
  KMPSearch 6 [] (str "ABC") = Done [] /\
  zAlgorithmSearch 6 [] (str "ABC") = Done [].
Proof. apply (empty_text (str "ABC") 6); [by vm_compute|simpl; lia]. Defined.

(** X21.  When the first symbol of a string of fewer than [2^31] symbols
    does not occur again in it (as when all its symbols are distinct), [computeLPS] returns zeros only
    and [computeZArray] returns the length followed by zeros only. *)
Theorem first_symbol_unique (c : ascii) (rest : list ascii) (fuel : nat) :
  fits_int (c :: rest) ->
  c ∉ rest ->
  (2 * length (c :: rest) <= fuel)%nat ->
  computeLPS fuel (c :: rest) = Done (replicate (length (c :: rest)) 0) /\
  computeZArray fuel (c :: rest)
    = Done (len (c :: rest) :: replicate (length rest) 0).
Proof.
  intros Hfs Hc Hfuel.
  assert (Hnot : forall i, 1 <= i -> ix (c :: rest) 0 <> ix (c :: rest) i).
  { intros i Hi He. replace i with (i - 1 + 1) in He by lia.
    rewrite ix_cons in He by lia. apply Hc.
    replace (i - 1) with (Z.of_nat (Z.to_nat (i - 1))) in He by lia.
    rewrite ix_of_nat in He. apply list_elem_of_lookup.
    exists (Z.to_nat (i - 1)). by rewrite <- He. }
  destruct (computeLPS_stable (c :: rest) Hfs) as (lps & Hl & Hllen & Hltab).
  destruct (computeZArray_stable (c :: rest) Hfs) as (za & Hz & Hzlen & Hztab).
  rewrite (Hl fuel Hfuel), (Hz fuel) by lia. split; f_equal.
  - apply ix_ext; [by rewrite len_replicate|].
    intros i Hi. rewrite Hllen in Hi. unfold len in Hi.
    rewrite ix_replicate by lia.
    destruct (Hltab i) as (v & Hv & (Hle & Hocc & _)); [unfold len; lia|].
    rewrite Hv. f_equal. destruct Hocc as (Hv0 & _ & Hx).
    destruct (Z_le_gt_dec v 0); [lia|]. exfalso.
    apply (Hnot (i + 1 - v + 0)); [lia|]. apply Hx. lia.
  - apply ix_ext.
    { rewrite Hzlen. unfold len. simpl. rewrite length_replicate. lia. }
    intros i Hi. rewrite Hzlen in Hi.
    destruct (Hztab i Hi) as (v & Hv & Hmax). rewrite Hv.
    destruct (Z.eq_dec i 0) as [->|Hi0].
    + change (ix (len (c :: rest) :: replicate (length rest) 0) 0)
        with (Some (len (c :: rest))).
      f_equal. apply (zmax_unique _ _ _ _ _ Hmax). split; [|lia].
      pose proof (len_nonneg (c :: rest)).
      split; [lia|]. split; [lia|]. split; [lia|]. intros x Hx. by rewrite Z.add_0_l.
    + replace i with (i - 1 + 1) at 1 by lia. rewrite ix_cons by lia.
      unfold len in Hi. simpl in Hi. rewrite ix_replicate by lia.
      f_equal. destruct Hmax as [(Hv0 & _ & _ & Hx) _].
      destruct (Z_le_gt_dec v 0); [lia|]. exfalso.
      apply (Hnot (i + 0)); [lia|]. apply Hx. lia.
Qed.

Lemma first_symbol_unique_witness :
  computeLPS 10 (str "ABCDE") = Done [0; 0; 0; 0; 0] /\
  computeZArray 10 (str "ABCDE") = Done [5; 0; 0; 0; 0].
Proof.
  apply (first_symbol_unique "A"%char (str "BCDE") 10);
    [by vm_compute| |simpl; lia].
  intros Hin. do 4 (apply elem_of_cons in Hin as [Hin|Hin]; [discriminate Hin|]).
  by apply elem_of_nil in Hin.
Defined.

(** ** Lengths that are no [int]s *)

(** X22.  A string whose length as an [int] is negative (as for [2^31]
    symbols) makes the constructor that is to hold one entry per symbol
    throw: [computeLPS] and [computeZArray] of such a string,
    [KMPSearch] for such a pattern and [zAlgorithmSearch] for such a text
    end in the exception, whatever the other input and the fuel. *)
Theorem negative_int_length (fuel : nat) (long other : list ascii) :
  int_of_size (len long) < 0 ->
  computeLPS fuel long = LengthError /\
  computeZArray fuel long = LengthError /\
  KMPSearch fuel other long = LengthError /\
  zAlgorithmSearch fuel long other = LengthError.
Proof.
  intros Hneg. split; [by apply computeLPS_LengthError|].
  split; [by apply computeZArray_LengthError|].
  split; [by apply KMPSearch_LengthError_pattern|].
  by apply zAlgorithmSearch_LengthError_text.
Qed.

Lemma negative_int_length_witness :
  computeLPS 0 (long_string (2 ^ 31)) = LengthError /\
  computeZArray 0 (long_string (2 ^ 31)) = LengthError /\
  KMPSearch 0 (str "abc") (long_string (2 ^ 31)) = LengthError /\
  zAlgorithmSearch 0 (long_string (2 ^ 31)) (str "abc") = LengthError.
Proof.
  apply (negative_int_length 0 (long_string (2 ^ 31)) (str "abc")).
  rewrite len_long_string by lia. reflexivity.
Defined.

Lemma seen_long_string (n : Z) :
  0 <= int_of_size n <= n ->
  seen (long_string n) = long_string (int_of_size n).
Proof.
  intros H. unfold seen. rewrite len_long_string by lia.
  unfold long_string. rewrite take_replicate. f_equal. lia.
Qed.

(** X23.  Of a string whose length as an [int] is not negative, the four
    functions look at the symbols below that [int] only: each call is the
    call on those parts of the inputs (so that, of a string of [2^32 + k]
    symbols, the first [k] count). *)
Theorem beyond_int_length (fuel : nat) (text pattern : list ascii) :
  0 <= int_of_size (len text) -> 0 <= int_of_size (len pattern) ->
  computeLPS fuel pattern = computeLPS fuel (seen pattern) /\
  KMPSearch fuel text pattern = KMPSearch fuel (seen text) (seen pattern) /\
  computeZArray fuel pattern = computeZArray fuel (seen pattern) /\
  zAlgorithmSearch fuel text pattern
    = zAlgorithmSearch fuel (seen text) (seen pattern).
Proof.
  intros Hn Hm. split; [by apply computeLPS_seen|].
  split; [by apply KMPSearch_seen|].
  split; [by apply computeZArray_seen|by apply zAlgorithmSearch_seen].
Qed.

Lemma beyond_int_length_witness :
  computeLPS 4 (long_string (2 ^ 32 + 2)) = Done [0; 1] /\
  KMPSearch 4 (str "aaa") (long_string (2 ^ 32 + 2)) = Done [1; 2; 2].
Proof.
  assert (E : seen (long_string (2 ^ 32 + 2)) = long_string 2)
    by (apply (seen_long_string (2 ^ 32 + 2)); by vm_compute).
  destruct (beyond_int_length 4 (str "aaa") (long_string (2 ^ 32 + 2)))
    as (Hlps & Hkmp & _);
    [by vm_compute|rewrite len_long_string by lia; by vm_compute|].
  rewrite Hlps, Hkmp, E. split; reflexivity.
Defined.
